(** * zf_rush: proxy pool and retrying request executor

    A shallow embedding of [src/zf_rush/proxy.py], [src/zf_rush/client.py]
    and the imports of [src/zf_rush/__init__.py], and the properties of
    the proxy validator, the providers, the preload worker, the
    single-slot buffer, the retry loop, the disguise headers and the
    executor as a context manager.

    Conventions of the embedding.
    - A Python [str] is a [string]: a sequence of code points below 256.
    - A Python call that may raise is a value of [result]; [try]/[except]
      is [try_except], which catches by class, as [except C] does.
    - Coroutines are run to completion one at a time; the points where
      other coroutines may run are made explicit where a property depends
      on them (the buffer).
    - Logging calls are left out: they do not change the state.
    - The libraries the code calls are embedded as far as it uses them:
      [urllib.parse.urlparse] and [ipaddress.IPv4Address] after the
      standard library of Python 3.11 (with its checks of bracketed
      hosts), [asyncio.Queue], and the exception classes of [httpx].
      The network, the HTTP server and the IPv6 parser are parameters,
      and so are the constructor of [httpx.AsyncClient], which may
      raise, the random sources and the wait of [close] for the preload
      task. *)

From Stdlib Require Import String Ascii List Bool Arith ZArith QArith Lia.
From Stdlib Require Import DecimalString DecimalNat Permutation Sorted.
Import ListNotations.

Local Open Scope string_scope.
Local Open Scope list_scope.

Set Implicit Arguments.

(* ================================================================== *)
(** * Python values: exceptions and results                            *)
(* ================================================================== *)

Module Py.

(** The exception classes the two modules can see: the built-in ones,
    those of [ipaddress] and [asyncio], and the hierarchy of
    [httpx/_exceptions.py]. *)
Inductive exn_class : Type :=
  | BaseException | Exception
  | CancelledError
  | NameError | AttributeError | KeyError | RuntimeError
  | ValueError | AddressValueError | NetmaskValueError
  | OSError | TimeoutError | ConnectionError | ConnectionResetError
  | QueueEmpty | QueueFull
  | HTTPError | RequestError | HTTPStatusError
  | TransportError | DecodingError | TooManyRedirects
  | TimeoutException | ConnectTimeout | ReadTimeout | WriteTimeout
  | PoolTimeout
  | NetworkError | ConnectError | ReadError | WriteError | CloseError
  | ProtocolError | LocalProtocolError | RemoteProtocolError
  | ProxyError | UnsupportedProtocol
  | InvalidURL | CookieConflict.

Definition exn_class_eq_dec (c d : exn_class) : {c = d} + {c <> d}.
Proof. decide equality. Defined.

Definition exn_class_eqb (c d : exn_class) : bool :=
  if exn_class_eq_dec c d then true else false.

(** The base class of each class ([class C(B)]); [BaseException] has
    none. *)
Definition base (c : exn_class) : option exn_class :=
  match c with
  | BaseException => None
  | Exception | CancelledError => Some BaseException
  | NameError | AttributeError | RuntimeError | ValueError | OSError
  | QueueEmpty | QueueFull | HTTPError | InvalidURL | CookieConflict
  | KeyError =>
      Some Exception
  | AddressValueError | NetmaskValueError => Some ValueError
  | TimeoutError | ConnectionError => Some OSError
  | ConnectionResetError => Some ConnectionError
  | RequestError | HTTPStatusError => Some HTTPError
  | TransportError | DecodingError | TooManyRedirects => Some RequestError
  | TimeoutException | NetworkError | ProtocolError | ProxyError
  | UnsupportedProtocol =>
      Some TransportError
  | ConnectTimeout | ReadTimeout | WriteTimeout | PoolTimeout =>
      Some TimeoutException
  | ConnectError | ReadError | WriteError | CloseError => Some NetworkError
  | LocalProtocolError | RemoteProtocolError => Some ProtocolError
  end.

(** [issubclass_upto n c d]: [d] is reached from [c] in at most [n]
    steps along [base]. *)
Fixpoint issubclass_upto (n : nat) (c d : exn_class) : bool :=
  exn_class_eqb c d ||
  match n with
  | O => false
  | S n' =>
      match base c with
      | Some b => issubclass_upto n' b d
      | None => false
      end
  end.

(** No class above is more than six steps below [BaseException]. *)
Definition issubclass (c d : exn_class) : bool := issubclass_upto 6 c d.

(** What an HTTP response carries, as far as the code reads it. *)
Record response : Type := mkResponse {
  status_code : Z;
  text : string
}.

(** An exception object: its class, its message and, for
    [HTTPStatusError], the response it was built from. *)
Record exn : Type := mkExn {
  exc_class : exn_class;
  exc_msg : string;
  exc_response : option response
}.

Definition exn_of (c : exn_class) (msg : string) : exn :=
  mkExn c msg None.

Inductive result (A : Type) : Type :=
  | Return (a : A)
  | Raise (e : exn).

Arguments Return {A} a.
Arguments Raise {A} e.

Definition bind {A B : Type} (m : result A) (k : A -> result B) : result B :=
  match m with
  | Return a => k a
  | Raise e => Raise e
  end.

(** [except classes as e: handler]: the handler runs when the class of
    the raised exception is a subclass of one of [classes]. *)
Definition caught_by (classes : list exn_class) (e : exn) : bool :=
  existsb (issubclass (exc_class e)) classes.

Definition try_except {A : Type} (body : result A)
    (classes : list exn_class) (handler : exn -> result A) : result A :=
  match body with
  | Return a => Return a
  | Raise e => if caught_by classes e then handler e else Raise e
  end.

(** Whether a call came back with a value. *)
Definition returns {A : Type} (r : result A) : bool :=
  match r with
  | Return _ => true
  | Raise _ => false
  end.

End Py.

Import Py.

Declare Scope py_scope.
Delimit Scope py_scope with py.
Notation "x <- m ;; k" := (bind m (fun x => k))
  (at level 61, m at next level, right associativity) : py_scope.
Notation "m ;;; k" := (bind m (fun _ => k))
  (at level 61, right associativity) : py_scope.
Local Open Scope py_scope.

(* ================================================================== *)
(** * The [str] methods the code and its libraries call                *)
(* ================================================================== *)

Module Str.

Definition code (c : ascii) : nat := nat_of_ascii c.

Definition between (lo hi : nat) (c : ascii) : bool :=
  (lo <=? code c)%nat && (code c <=? hi)%nat.

Definition char_isascii (c : ascii) : bool := (code c <? 128)%nat.

(** [str.isdigit] on one character: the decimal digits and the
    superscripts 1, 2, 3. *)
Definition char_isdigit (c : ascii) : bool :=
  between 48 57 c || between 178 179 c || between 185 185 c.

(** [str.isalpha] on one character. *)
Definition char_isalpha (c : ascii) : bool :=
  between 65 90 c || between 97 122 c
  || between 170 170 c || between 181 181 c || between 186 186 c
  || between 192 214 c || between 216 246 c || between 248 255 c.

(** [str.isspace] on one character. *)
Definition char_isspace (c : ascii) : bool :=
  between 9 13 c || between 28 32 c || between 133 133 c
  || between 160 160 c.

Definition char_lower (c : ascii) : ascii :=
  if between 65 90 c || between 192 214 c || between 216 222 c
  then ascii_of_nat (code c + 32)
  else c.

Fixpoint forall_chars (p : ascii -> bool) (s : string) : bool :=
  match s with
  | EmptyString => true
  | String c s' => p c && forall_chars p s'
  end.

(** [c in s] *)
Fixpoint contains (c : ascii) (s : string) : bool :=
  match s with
  | EmptyString => false
  | String d s' => Ascii.eqb c d || contains c s'
  end.

(** Truth value of a string: [not s] is [negb (truthy s)]. *)
Definition truthy (s : string) : bool :=
  match s with EmptyString => false | _ => true end.

Definition isascii (s : string) : bool := forall_chars char_isascii s.

(** [s.isdigit()] is false on the empty string. *)
Definition isdigit (s : string) : bool :=
  truthy s && forall_chars char_isdigit s.

Fixpoint lower (s : string) : string :=
  match s with
  | EmptyString => EmptyString
  | String c s' => String (char_lower c) (lower s')
  end.

(** [s.lstrip(chars)] *)
Fixpoint lstrip_chars (chars : string) (s : string) : string :=
  match s with
  | EmptyString => EmptyString
  | String c s' => if contains c chars then lstrip_chars chars s' else s
  end.

(** [s.replace(c, "")] *)
Fixpoint remove_char (c : ascii) (s : string) : string :=
  match s with
  | EmptyString => EmptyString
  | String d s' =>
      if Ascii.eqb c d then remove_char c s' else String d (remove_char c s')
  end.

(** [s.find(c)]: the first index of [c], or -1. *)
Fixpoint find (c : ascii) (s : string) : Z :=
  match s with
  | EmptyString => (-1)%Z
  | String d s' =>
      if Ascii.eqb c d then 0%Z
      else let i := find c s' in if (i <? 0)%Z then (-1)%Z else (i + 1)%Z
  end.

Fixpoint take (n : nat) (s : string) : string :=
  match n, s with
  | S n', String c s' => String c (take n' s')
  | _, _ => EmptyString
  end.

Fixpoint drop (n : nat) (s : string) : string :=
  match n, s with
  | S n', String _ s' => drop n' s'
  | _, _ => s
  end.

(** [s[:i]] and [s[i:]] for [0 <= i]. *)
Definition slice_to (i : Z) (s : string) : string := take (Z.to_nat i) s.
Definition slice_from (i : Z) (s : string) : string := drop (Z.to_nat i) s.

(** [s.startswith(p)] *)
Fixpoint startswith (p s : string) : bool :=
  match p, s with
  | EmptyString, _ => true
  | String a p', String b s' => Ascii.eqb a b && startswith p' s'
  | String _ _, EmptyString => false
  end.

(** [s.partition(c)]: the part before the first [c], the separator
    found (empty when there is none) and the part after it. *)
Fixpoint partition (c : ascii) (s : string) : string * string * string :=
  match s with
  | EmptyString => (EmptyString, EmptyString, EmptyString)
  | String d s' =>
      if Ascii.eqb c d then (EmptyString, String c EmptyString, s')
      else
        match partition c s' with
        | (before, EmptyString, _) => (s, EmptyString, EmptyString)
        | (before, sep, after) => (String d before, sep, after)
        end
  end.

(** [s.rpartition(c)]: split at the last [c]; without one, everything
    is in the third part. *)
Fixpoint rpartition (c : ascii) (s : string) : string * string * string :=
  match s with
  | EmptyString => (EmptyString, EmptyString, EmptyString)
  | String d s' =>
      match rpartition c s' with
      | (before, EmptyString, after) =>
          if Ascii.eqb c d then (EmptyString, String c EmptyString, s')
          else (EmptyString, EmptyString, s)
      | (before, sep, after) => (String d before, sep, after)
      end
  end.

(** [s.split(c)]: never empty; [n] separators give [n + 1] pieces. *)
Fixpoint split (c : ascii) (s : string) : list string :=
  match s with
  | EmptyString => [EmptyString]
  | String d s' =>
      if Ascii.eqb c d then EmptyString :: split c s'
      else
        match split c s' with
        | piece :: rest => String d piece :: rest
        | [] => [String d EmptyString]
        end
  end.

(** [sep.join(pieces)] for a one-character separator. *)
Fixpoint join (c : ascii) (pieces : list string) : string :=
  match pieces with
  | [] => EmptyString
  | [p] => p
  | p :: rest => p ++ String c (join c rest)
  end.

(** [s.strip()]: leading and trailing white space removed. *)
Fixpoint lstrip (s : string) : string :=
  match s with
  | EmptyString => EmptyString
  | String c s' => if char_isspace c then lstrip s' else s
  end.

Fixpoint rstrip (s : string) : string :=
  match s with
  | EmptyString => EmptyString
  | String c s' =>
      match rstrip s' with
      | EmptyString => if char_isspace c then EmptyString
                       else String c EmptyString
      | t => String c t
      end
  end.

Definition strip (s : string) : string := rstrip (lstrip s).

(** [s.rfind(c)]: the last index of [c], or -1. *)
Fixpoint rfind (c : ascii) (s : string) : Z :=
  match s with
  | EmptyString => (-1)%Z
  | String d s' =>
      let i := rfind c s' in
      if (0 <=? i)%Z then (i + 1)%Z
      else if Ascii.eqb c d then 0%Z else (-1)%Z
  end.

(** [s.find(c, start)] for [0 <= start]. *)
Definition find_from (c : ascii) (start : Z) (s : string) : Z :=
  let i := find c (slice_from start s) in
  if (i <? 0)%Z then (-1)%Z
  else (i + Z.min start (Z.of_nat (String.length s)))%Z.

(** The longest prefix of characters satisfying [p], and the rest. *)
Fixpoint span (p : ascii -> bool) (s : string) : string * string :=
  match s with
  | EmptyString => (EmptyString, EmptyString)
  | String c s' =>
      if p c then let (a, b) := span p s' in (String c a, b)
      else (EmptyString, s)
  end.

(** [int(s)] for a string of decimal digits. *)
Fixpoint int_acc (acc : Z) (s : string) : Z :=
  match s with
  | EmptyString => acc
  | String c s' => int_acc (10 * acc + Z.of_nat (code c - 48)) s'
  end.

Definition int (s : string) : Z := int_acc 0 s.

(** [str(n)] for a natural number. *)
Definition of_nat (n : nat) : string :=
  NilZero.string_of_uint (Nat.to_uint n).

(** [str(z)] for an [int], as in [f"{z}"]. *)
Definition of_int (z : Z) : string :=
  if (z <? 0)%Z then String "-" (of_nat (Z.to_nat (- z)))
  else of_nat (Z.to_nat z).

End Str.

(* ================================================================== *)
(** * [ipaddress]: the IPv4 address parser                             *)
(* ================================================================== *)

Module Ipaddress.

(** [_BaseV4._parse_octet] *)
Definition _parse_octet (octet_str : string) : result Z :=
  if negb (Str.truthy octet_str) then
    Raise (exn_of ValueError "Empty octet not permitted")
  else if negb (Str.isascii octet_str && Str.isdigit octet_str) then
    Raise (exn_of ValueError "Only decimal digits permitted")
  else if (3 <? String.length octet_str)%nat then
    Raise (exn_of ValueError "At most 3 characters permitted")
  else if negb (String.eqb octet_str "0") && Str.startswith "0" octet_str then
    Raise (exn_of ValueError "Leading zeros are not permitted")
  else
    let octet_int := Str.int octet_str in
    if (255 <? octet_int)%Z then
      Raise (exn_of ValueError "Octet (> 255) not permitted")
    else Return octet_int.

(** [map(cls._parse_octet, octets)], consumed from the left. *)
Fixpoint parse_octets (octets : list string) : result (list Z) :=
  match octets with
  | [] => Return []
  | o :: rest =>
      n <- _parse_octet o ;;
      ns <- parse_octets rest ;;
      Return (n :: ns)
  end.

(** [int.from_bytes(bytes, 'big')] *)
Definition from_bytes_big (bytes : list Z) : Z :=
  fold_left (fun acc b => (256 * acc + b)%Z) bytes 0%Z.

(** [_BaseV4._ip_int_from_string] *)
Definition _ip_int_from_string (ip_str : string) : result Z :=
  if negb (Str.truthy ip_str) then
    Raise (exn_of AddressValueError "Address cannot be empty")
  else
    let octets := Str.split "." ip_str in
    if negb (length octets =? 4)%nat then
      Raise (exn_of AddressValueError "Expected 4 octets")
    else
      try_except
        (bytes <- parse_octets octets ;; Return (from_bytes_big bytes))
        [ValueError]
        (fun exc => Raise (exn_of AddressValueError (exc_msg exc))).

(** [str(address)] for the argument the validator passes: a host name
    or [None]. *)
Definition str_of (address : option string) : string :=
  match address with
  | Some s => s
  | None => "None"
  end.

(** [IPv4Address(address)] for a string or [None]; the value is the
    address as an integer. *)
Definition IPv4Address (address : option string) : result Z :=
  let addr_str := str_of address in
  if Str.contains "/" addr_str then
    Raise (exn_of AddressValueError "Unexpected '/'")
  else _ip_int_from_string addr_str.

Inductive ip_version : Type := V4 | V6.

Section WithIPv6.

(** The IPv6 parser is not embedded: [IPv6Address_ok s] stands for
    "[IPv6Address(s)] does not raise". *)
Variable IPv6Address_ok : string -> bool.

(** [ipaddress.ip_address] *)
Definition ip_address (address : string) : result ip_version :=
  match IPv4Address (Some address) with
  | Return _ => Return V4
  | Raise e =>
      if caught_by [AddressValueError; NetmaskValueError] e then
        if IPv6Address_ok address then Return V6
        else Raise (exn_of ValueError
                      "does not appear to be an IPv4 or IPv6 address")
      else Raise e
  end.

End WithIPv6.

End Ipaddress.

(* ================================================================== *)
(** * [urllib.parse]: [urlparse] and the host and port of its result   *)
(* ================================================================== *)

Module Urllib.

Definition scheme_chars : string :=
  "abcdefghijklmnopqrstuvwxyzABCDEFGHIJKLMNOPQRSTUVWXYZ0123456789+-.".

(** The code points 0 to 32. *)
Definition _WHATWG_C0_CONTROL_OR_SPACE : string :=
  string_of_list_ascii (map ascii_of_nat (seq 0 33)).

Definition _UNSAFE_URL_BYTES_TO_REMOVE : list ascii :=
  [ascii_of_nat 9; ascii_of_nat 13; ascii_of_nat 10].

Definition uses_params : list string :=
  [""; "ftp"; "hdl"; "prospero"; "http"; "imap"; "https"; "shttp"; "rtsp";
   "rtspu"; "sip"; "sips"; "mms"; "sftp"; "tel"].

Record ParseResult : Type := mkParseResult {
  scheme : string;
  netloc : string;
  path : string;
  params : string;
  query : string;
  fragment : string
}.

Definition is_delim (c : ascii) : bool := Str.contains c "/?#".

(** [_splitnetloc(url, 2)]: the text between the two slashes and the
    first of "/", "?", "#", and what follows. *)
Definition _splitnetloc (url : string) : string * string :=
  Str.span (fun c => negb (is_delim c)) (Str.drop 2 url).

(** [_checknetloc]: a netloc that is not all ASCII is normalised (NFKC)
    and refused when that brings in one of "/", "?", "#", "@", ":".  No
    code point below 256 normalises to one of these, so on the strings
    of this embedding the check passes. *)
Definition _checknetloc (netloc : string) : result unit := Return tt.

Definition ishex (c : ascii) : bool :=
  Str.between 48 57 c || Str.between 65 70 c || Str.between 97 102 c.

(** [re.match(r"\Av[a-fA-F0-9]+\..+\Z", hostname)]: "v", at least one
    hexadecimal digit, a dot, and at least one more character, none of
    them a line feed. *)
Definition ipvfuture_match (hostname : string) : bool :=
  match hostname with
  | String "v" rest =>
      match Str.span ishex rest with
      | (String _ _, String "." tail) =>
          Str.truthy tail && negb (Str.contains (ascii_of_nat 10) tail)
      | _ => false
      end
  | _ => false
  end.

Section WithIPv6.

Variable IPv6Address_ok : string -> bool.

(** [_check_bracketed_host] *)
Definition _check_bracketed_host (hostname : string) : result unit :=
  if Str.startswith "v" hostname then
    if negb (ipvfuture_match hostname) then
      Raise (exn_of ValueError "IPvFuture address is invalid")
    else Return tt
  else
    ip <- Ipaddress.ip_address IPv6Address_ok hostname ;;
    match ip with
    | Ipaddress.V4 =>
        Raise (exn_of ValueError "An IPv4 address cannot be in brackets")
    | Ipaddress.V6 => Return tt
    end.

(** [_check_bracketed_netloc] *)
Definition _check_bracketed_netloc (netloc : string) : result unit :=
  let '(_, _, hostname_and_port) := Str.rpartition "@" netloc in
  let '(before_bracket, have_open_br, bracketed) :=
    Str.partition "[" hostname_and_port in
  if Str.truthy have_open_br then
    if Str.truthy before_bracket then
      Raise (exn_of ValueError "Invalid IPv6 URL")
    else
      let '(hostname, _, port) := Str.partition "]" bracketed in
      if Str.truthy port && negb (Str.startswith ":" port) then
        Raise (exn_of ValueError "Invalid IPv6 URL")
      else _check_bracketed_host hostname
  else
    let '(hostname, _, port) := Str.partition ":" hostname_and_port in
    _check_bracketed_host hostname.

(** [urlsplit(url)] with the default scheme and fragments allowed; the
    result is given with an empty [params], which [urlparse] fills. *)
Definition urlsplit (url : string) : result ParseResult :=
  let url := Str.lstrip_chars _WHATWG_C0_CONTROL_OR_SPACE url in
  let url := fold_left (fun u b => Str.remove_char b u)
               _UNSAFE_URL_BYTES_TO_REMOVE url in
  let i := Str.find ":" url in
  let '(scheme, url) :=
    match url with
    | String c0 _ =>
        if (0 <? i)%Z && Str.char_isascii c0 && Str.char_isalpha c0
           && Str.forall_chars (fun c => Str.contains c scheme_chars)
                (Str.slice_to i url)
        then (Str.lower (Str.slice_to i url), Str.slice_from (i + 1) url)
        else (EmptyString, url)
    | EmptyString => (EmptyString, url)
    end in
  located <-
    (if String.eqb (Str.take 2 url) "//" then
       let '(netloc, url) := _splitnetloc url in
       let has_open := Str.contains "[" netloc in
       let has_close := Str.contains "]" netloc in
       if (has_open && negb has_close) || (has_close && negb has_open) then
         Raise (exn_of ValueError "Invalid IPv6 URL")
       else
         (if has_open && has_close then _check_bracketed_netloc netloc
          else Return tt) ;;;
         Return (netloc, url)
     else Return (EmptyString, url)) ;;
  let '(netloc, url) := located in
  let '(url, fragment) :=
    if Str.contains "#" url then
      let '(u, _, f) := Str.partition "#" url in (u, f)
    else (url, EmptyString) in
  let '(url, query) :=
    if Str.contains "?" url then
      let '(u, _, q) := Str.partition "?" url in (u, q)
    else (url, EmptyString) in
  _checknetloc netloc ;;;
  Return (mkParseResult scheme netloc url EmptyString query fragment).

(** [_splitparams] *)
Definition _splitparams (url : string) : string * string :=
  if Str.contains "/" url then
    let i := Str.find_from ";" (Str.rfind "/" url) url in
    if (i <? 0)%Z then (url, EmptyString)
    else (Str.slice_to i url, Str.slice_from (i + 1) url)
  else
    let i := Str.find ";" url in
    (Str.slice_to i url, Str.slice_from (i + 1) url).

(** [urlparse(url)] *)
Definition urlparse (url : string) : result ParseResult :=
  r <- urlsplit url ;;
  let '(url, params) :=
    if existsb (String.eqb (scheme r)) uses_params
       && Str.contains ";" (path r)
    then _splitparams (path r)
    else (path r, EmptyString) in
  Return (mkParseResult (scheme r) (netloc r) url params
            (query r) (fragment r)).

End WithIPv6.

(** [_hostinfo]: host and port text of the netloc; an empty port is
    [None]. *)
Definition _hostinfo (r : ParseResult) : string * option string :=
  let '(_, _, hostinfo) := Str.rpartition "@" (netloc r) in
  let '(_, have_open_br, bracketed) := Str.partition "[" hostinfo in
  let '(hostname, port) :=
    if Str.truthy have_open_br then
      let '(hostname, _, port) := Str.partition "]" bracketed in
      let '(_, _, port) := Str.partition ":" port in
      (hostname, port)
    else
      let '(hostname, _, port) := Str.partition ":" hostinfo in
      (hostname, port) in
  (hostname, if Str.truthy port then Some port else None).

(** The [hostname] property: lower-cased up to a zone separator, [None]
    when empty. *)
Definition hostname (r : ParseResult) : option string :=
  let hostname := fst (_hostinfo r) in
  if negb (Str.truthy hostname) then None
  else
    let '(hostname, percent, zone) := Str.partition "%" hostname in
    Some (Str.lower hostname ++ percent ++ zone)%string.

(** The [port] property: raises [ValueError] for a port that is not all
    ASCII digits or lies outside 0..65535. *)
Definition port (r : ParseResult) : result (option Z) :=
  match snd (_hostinfo r) with
  | None => Return None
  | Some port =>
      if Str.isdigit port && Str.isascii port then
        let port := Str.int port in
        if negb ((0 <=? port)%Z && (port <=? 65535)%Z) then
          Raise (exn_of ValueError "Port out of range 0-65535")
        else Return (Some port)
      else
        Raise (exn_of ValueError "Port could not be cast to integer value")
  end.

End Urllib.

(* ================================================================== *)
(** * [asyncio.Queue], as far as the pool uses it                      *)
(* ================================================================== *)

Module Queue.

Record t : Type := mk {
  maxsize : Z;
  items : list string
}.

(** [asyncio.Queue(maxsize=n)] *)
Definition create (n : Z) : t := mk n [].

Definition qsize (q : t) : Z := Z.of_nat (length (items q)).

Definition empty (q : t) : bool :=
  match items q with [] => true | _ => false end.

(** [full()]: a queue with [maxsize <= 0] is never full. *)
Definition full (q : t) : bool :=
  if (maxsize q <=? 0)%Z then false else (maxsize q <=? qsize q)%Z.

Definition put_nowait (q : t) (item : string) : result t :=
  if full q then Raise (exn_of QueueFull "")
  else Return (mk (maxsize q) (items q ++ [item])).

Definition get_nowait (q : t) : result (string * t) :=
  match items q with
  | [] => Raise (exn_of QueueEmpty "")
  | item :: rest => Return (item, mk (maxsize q) rest)
  end.

End Queue.

(* ================================================================== *)
(** * [dict] with [str] keys and values, as far as the executor uses it *)
(* ================================================================== *)

Module Dict.

(** The items in the order of insertion; a key stands once. *)
Definition t : Type := list (string * string).

(** [d.get(k)] *)
Fixpoint get (d : t) (k : string) : option string :=
  match d with
  | [] => None
  | (k', v) :: d' => if String.eqb k k' then Some v else get d' k
  end.

(** [d[k] = v]: the value is replaced where the key stands; a new key
    goes to the end. *)
Fixpoint set (k v : string) (d : t) : t :=
  match d with
  | [] => [(k, v)]
  | (k', v') :: d' =>
      if String.eqb k k' then (k', v) :: d' else (k', v') :: set k v d'
  end.

(** [d.update(other)]: the items of [other], set in their order. *)
Definition update (d other : t) : t :=
  fold_left (fun d kv => set (fst kv) (snd kv) d) other d.

(** The display [{k1: v1, ...}]: the items are set from left to
    right. *)
Definition display (items : list (string * string)) : t := update [] items.

(** [d.copy()]: a dict of its own with the same items. *)
Definition copy (d : t) : t := d.

End Dict.

(* ================================================================== *)
(** * [proxy.py]                                                       *)
(* ================================================================== *)

Module Proxy.

(** Modelled from the spec: the entry of [proxy_platforms]
    ([config.py], which declares [ProxyPlatformConfig], is not among the
    sources).  The spec lists the keys [name], [get_proxy_link],
    [priority] and [zh_name]; the code reads [priority] with a default,
    so it may be absent. *)
Record ProxyPlatformConfig : Type := mkPlatform {
  name : string;
  get_proxy_link : string;
  priority : option Z;
  zh_name : string
}.

(** Modelled from the spec: the [proxy_config] mapping of [AppConfig],
    with the keys the code reads. *)
Record ProxyConf : Type := mkProxyConf {
  enable : bool;
  use : string;
  proxy_platforms : list ProxyPlatformConfig
}.

(** Modelled from the spec: [AppConfig], with the options the two
    modules read. *)
Record AppConfig : Type := mkAppConfig {
  proxy_config : ProxyConf;
  max_retries : Z
}.

(** The two subclasses of [ProxyProvider]. *)
Inductive ProxyProvider : Type :=
  | DebugProxyProvider (proxy : string)
  | RemoteProxyProvider (config : ProxyPlatformConfig).

(** What a coroutine of the pool does to the outside, in order. *)
Inductive event : Type :=
  | EvGetProxy (provider : ProxyProvider)   (* [provider.get_proxy()] *)
  | EvHttpGet (url : string)                (* [client.get(url, timeout=5)] *)
  | EvAcquire                               (* [async with self.lock] entered *)
  | EvRelease                               (* ... and left *)
  | EvSleep (seconds : Q).                  (* [asyncio.sleep(seconds)] *)

Definition trace : Type := list event.

Definition is_http_get (ev : event) : bool :=
  match ev with EvHttpGet _ => true | _ => false end.

(** The number of GET requests issued so far. *)
Definition gets (tr : trace) : nat := length (filter is_http_get tr).

(** The providers contacted so far, in order. *)
Fixpoint contacted (tr : trace) : list ProxyProvider :=
  match tr with
  | [] => []
  | EvGetProxy p :: tr' => p :: contacted tr'
  | _ :: tr' => contacted tr'
  end.

(** The preload task: created by [asyncio.create_task]. *)
Record Task : Type := mkTask { done : bool }.

Record ProxyPool : Type := mkPool {
  app_config : AppConfig;
  providers : list ProxyProvider;
  proxy_queue : Queue.t;
  _stop_event : bool;
  _cooldown_time : Q;
  _full_queue_cooldown : Q;
  invalid_proxy_count : Z;
  _preload_task : option Task;
  current_proxy : option string
}.

Definition set_providers (ps : list ProxyProvider) (self : ProxyPool) :=
  mkPool (app_config self) ps (proxy_queue self) (_stop_event self)
    (_cooldown_time self) (_full_queue_cooldown self)
    (invalid_proxy_count self) (_preload_task self) (current_proxy self).

Definition set_proxy_queue (q : Queue.t) (self : ProxyPool) :=
  mkPool (app_config self) (providers self) q (_stop_event self)
    (_cooldown_time self) (_full_queue_cooldown self)
    (invalid_proxy_count self) (_preload_task self) (current_proxy self).

Definition set_invalid_proxy_count (n : Z) (self : ProxyPool) :=
  mkPool (app_config self) (providers self) (proxy_queue self)
    (_stop_event self) (_cooldown_time self) (_full_queue_cooldown self)
    n (_preload_task self) (current_proxy self).

Definition set_preload_task (t : option Task) (self : ProxyPool) :=
  mkPool (app_config self) (providers self) (proxy_queue self)
    (_stop_event self) (_cooldown_time self) (_full_queue_cooldown self)
    (invalid_proxy_count self) t (current_proxy self).

Definition set_current_proxy (p : option string) (self : ProxyPool) :=
  mkPool (app_config self) (providers self) (proxy_queue self)
    (_stop_event self) (_cooldown_time self) (_full_queue_cooldown self)
    (invalid_proxy_count self) (_preload_task self) p.

Definition set_stop_event (b : bool) (self : ProxyPool) :=
  mkPool (app_config self) (providers self) (proxy_queue self) b
    (_cooldown_time self) (_full_queue_cooldown self)
    (invalid_proxy_count self) (_preload_task self) (current_proxy self).

(** Truth value of an [Optional[str]]. *)
Definition truthy (proxy : option string) : bool :=
  match proxy with
  | Some s => Str.truthy s
  | None => false
  end.

(* ------------------------------------------------------------------ *)
(** ** Providers                                                       *)

Section Providers.

(** The network: [http_get k url] is what the [k]-th GET of the run,
    sent to [url], comes back with: a response, or the exception the
    [async with] block ends with. *)
Variable http_get : nat -> string -> result response.

(** [RemoteProxyProvider.get_proxy] *)
Definition remote_get_proxy (config : ProxyPlatformConfig) (tr : trace)
    : result (option string) * trace :=
  let url := get_proxy_link config in
  (try_except
     (resp <- http_get (gets tr) url ;;
      Return (Some ("http://" ++ Str.strip (text resp))%string))
     [Exception]
     (fun _ => Return None),
   tr ++ [EvHttpGet url]).

(** [provider.get_proxy()], by the class of [provider]. *)
Definition get_proxy (provider : ProxyProvider) (tr : trace)
    : result (option string) * trace :=
  let tr := tr ++ [EvGetProxy provider] in
  match provider with
  | DebugProxyProvider proxy => (Return (Some proxy), tr)
  | RemoteProxyProvider config => remote_get_proxy config tr
  end.

End Providers.

(* ------------------------------------------------------------------ *)
(** ** State passing for the methods of the pool                       *)

(** A method of the pool: from the state of [self] to a result and the
    state it leaves, also when it raises. *)
Definition M (A : Type) : Type := ProxyPool -> result A * ProxyPool.

Definition ret {A : Type} (a : A) : M A := fun self => (Return a, self).

Definition lift {A : Type} (r : result A) : M A := fun self => (r, self).

Definition sbind {A B : Type} (m : M A) (k : A -> M B) : M B :=
  fun self =>
    match m self with
    | (Return a, self') => k a self'
    | (Raise e, self') => (Raise e, self')
    end.

Definition get_self : M ProxyPool := fun self => (Return self, self).

Definition update (f : ProxyPool -> ProxyPool) : M unit :=
  fun self => (Return tt, f self).

Declare Scope st_scope.
Delimit Scope st_scope with st.
Notation "x <- m ;; k" := (sbind m (fun x => k))
  (at level 61, m at next level, right associativity) : st_scope.
Notation "m ;;; k" := (sbind m (fun _ => k))
  (at level 61, right associativity) : st_scope.

(* ------------------------------------------------------------------ *)
(** ** Names of the module                                             *)

(** The value a global name can be bound to, as far as
    [_init_providers] can tell values apart. *)
Inductive pyval : Type :=
  | VNone
  | VBool (b : bool)
  | VStr (s : string)
  | VObj (qualname : string).   (* a module, class or function *)

Definition val_truthy (v : pyval) : bool :=
  match v with
  | VNone => false
  | VBool b => b
  | VStr s => Str.truthy s
  | VObj _ => true
  end.

(** The names [proxy.py] binds at module level: its imports and its
    four classes. *)
Definition module_globals : list (string * pyval) :=
  map (fun x => (x, VObj x))
    ["Optional"; "ABC"; "abstractmethod"; "urlparse"; "ipaddress";
     "asyncio"; "httpx"; "logger"; "AppConfig"; "ProxyPlatformConfig";
     "ProxyProvider"; "DebugProxyProvider"; "RemoteProxyProvider";
     "ProxyPool";
     "__name__"; "__doc__"; "__package__"; "__loader__"; "__spec__";
     "__file__"; "__cached__"; "__builtins__"].

(** The names of the [builtins] module. *)
Definition builtin_names : list string :=
  ["ArithmeticError"; "AssertionError"; "AttributeError"; "BaseException";
   "BaseExceptionGroup"; "BlockingIOError"; "BrokenPipeError";
   "BufferError"; "BytesWarning"; "ChildProcessError";
   "ConnectionAbortedError"; "ConnectionError"; "ConnectionRefusedError";
   "ConnectionResetError"; "DeprecationWarning"; "EOFError"; "Ellipsis";
   "EncodingWarning"; "EnvironmentError"; "Exception"; "ExceptionGroup";
   "False"; "FileExistsError"; "FileNotFoundError"; "FloatingPointError";
   "FutureWarning"; "GeneratorExit"; "IOError"; "ImportError";
   "ImportWarning"; "IndentationError"; "IndexError"; "InterruptedError";
   "IsADirectoryError"; "KeyError"; "KeyboardInterrupt"; "LookupError";
   "MemoryError"; "ModuleNotFoundError"; "NameError"; "None";
   "NotADirectoryError"; "NotImplemented"; "NotImplementedError";
   "OSError"; "OverflowError"; "PendingDeprecationWarning";
   "PermissionError"; "ProcessLookupError"; "RecursionError";
   "ReferenceError"; "ResourceWarning"; "RuntimeError"; "RuntimeWarning";
   "StopAsyncIteration"; "StopIteration"; "SyntaxError"; "SyntaxWarning";
   "SystemError"; "SystemExit"; "TabError"; "TimeoutError"; "True";
   "TypeError"; "UnboundLocalError"; "UnicodeDecodeError";
   "UnicodeEncodeError"; "UnicodeError"; "UnicodeTranslateError";
   "UnicodeWarning"; "UserWarning"; "ValueError"; "Warning";
   "ZeroDivisionError"; "__build_class__"; "__debug__"; "__doc__";
   "__import__"; "__loader__"; "__name__"; "__package__"; "__spec__";
   "abs"; "aiter"; "all"; "anext"; "any"; "ascii"; "bin"; "bool";
   "breakpoint"; "bytearray"; "bytes"; "callable"; "chr"; "classmethod";
   "compile"; "complex"; "copyright"; "credits"; "delattr"; "dict"; "dir";
   "divmod"; "enumerate"; "eval"; "exec"; "exit"; "filter"; "float";
   "format"; "frozenset"; "getattr"; "globals"; "hasattr"; "hash"; "help";
   "hex"; "id"; "input"; "int"; "isinstance"; "issubclass"; "iter"; "len";
   "license"; "list"; "locals"; "map"; "max"; "memoryview"; "min"; "next";
   "object"; "oct"; "open"; "ord"; "pow"; "print"; "property"; "quit";
   "range"; "repr"; "reversed"; "round"; "set"; "setattr"; "slice";
   "sorted"; "staticmethod"; "str"; "sum"; "super"; "tuple"; "type";
   "vars"; "zip"].

Fixpoint lookup (x : string) (ns : list (string * pyval)) : option pyval :=
  match ns with
  | [] => None
  | (y, v) :: ns' => if String.eqb x y then Some v else lookup x ns'
  end.

(** Reading a name that is not local to the function: the globals of
    the module, then the built-ins, else [NameError]. *)
Definition load_global (globals : list (string * pyval)) (x : string)
    : result pyval :=
  match lookup x globals with
  | Some v => Return v
  | None =>
      if existsb (String.eqb x) builtin_names then Return (VObj x)
      else Raise (exn_of NameError x)
  end.

(* ------------------------------------------------------------------ *)
(** ** Construction of the pool                                        *)

(** [asyncio.create_task(self._preload_worker())]: a task that has not
    finished. *)
Definition create_task : Task := mkTask false.

(** [_start_preload] *)
Definition _start_preload : M unit :=
  (self <- get_self ;;
   match providers self, _preload_task self with
   | _ :: _, None => update (set_preload_task (Some create_task))
   | _, _ => ret tt
   end)%st.

(** [self.providers.append(provider)] *)
Definition append_provider (provider : ProxyProvider) : M unit :=
  update (fun self => set_providers (providers self ++ [provider]) self).

(** [DebugProxyProvider(debug_proxy)]: the embedding has debug
    providers for a [str] only. *)
Definition new_debug_provider (debug_proxy : pyval) : result ProxyProvider :=
  match debug_proxy with
  | VStr s => Return (DebugProxyProvider s)
  | _ => Raise (exn_of RuntimeError "debug_proxy is not a str")
  end.

(** [x.get("priority", 1)] *)
Definition priority_key (x : ProxyPlatformConfig) : Z :=
  match priority x with
  | Some p => p
  | None => 1%Z
  end.

(** [platforms.sort(key=...)]: ascending and stable. *)
Fixpoint insert_by_key (x : ProxyPlatformConfig)
    (sorted : list ProxyPlatformConfig) : list ProxyPlatformConfig :=
  match sorted with
  | [] => [x]
  | y :: rest =>
      if (priority_key x <=? priority_key y)%Z then x :: sorted
      else y :: insert_by_key x rest
  end.

Definition sort_by_key (platforms : list ProxyPlatformConfig)
    : list ProxyPlatformConfig :=
  fold_right insert_by_key [] platforms.

Section Init.

(** The global names visible to [_init_providers]. *)
Variable globals : list (string * pyval).

(** [_init_providers] *)
Definition _init_providers : M unit :=
  (self <- get_self ;;
   let proxy_conf := proxy_config (app_config self) in
   if negb (enable proxy_conf) then ret tt
   else
     debug <- lift (load_global globals "debug") ;;
     cond <- (if val_truthy debug
              then lift (load_global globals "debug_proxy")
              else ret debug) ;;
     if val_truthy cond then
       debug_proxy <- lift (load_global globals "debug_proxy") ;;
       provider <- lift (new_debug_provider debug_proxy) ;;
       append_provider provider ;;;
       _start_preload
     else
       (if String.eqb (use proxy_conf) "debug_proxy" then
          debug_proxy <- lift (load_global globals "debug_proxy") ;;
          if val_truthy debug_proxy then
            provider <- lift (new_debug_provider debug_proxy) ;;
            append_provider provider
          else ret tt
        else
          let platforms :=
            filter (fun p => String.eqb (name p) (use proxy_conf))
              (proxy_platforms proxy_conf) in
          let platforms := sort_by_key platforms in
          update (fun self =>
            set_providers
              (providers self ++ map RemoteProxyProvider platforms) self)) ;;;
       _start_preload)%st.

(** [ProxyPool.__init__]: the result, and [self] as it stands at the
    end or where the exception left it. *)
Definition __init__ (app_config : AppConfig) : result unit * ProxyPool :=
  let self :=
    {| app_config := app_config;
       providers := [];
       proxy_queue := Queue.create 1;
       _stop_event := false;
       _cooldown_time := 1 # 2;
       _full_queue_cooldown := 5;
       invalid_proxy_count := 0;
       _preload_task := None;
       current_proxy := None |} in
  _init_providers self.

End Init.

(** [ProxyPool(app_config)], in the module as it is. *)
Definition new (app_config : AppConfig) : result unit * ProxyPool :=
  __init__ module_globals app_config.

(* ------------------------------------------------------------------ *)
(** ** The validator                                                   *)

Section Pool.

Variable IPv6Address_ok : string -> bool.
Variable http_get : nat -> string -> result response.

(** The body of the outer [try] of [_validate_proxy]. *)
Definition _validate_proxy_try (proxy : string) : result bool :=
  parsed <- Urllib.urlparse IPv6Address_ok proxy ;;
  if negb (existsb (String.eqb (Urllib.scheme parsed)) ["http"; "https"])
  then Return false
  else
    match Ipaddress.IPv4Address (Urllib.hostname parsed) with
    | Raise e =>
        if caught_by [AddressValueError] e then Return false else Raise e
    | Return _ =>
        port <- Urllib.port parsed ;;
        match port with
        | None => Return false                        (* [not parsed.port] *)
        | Some n =>
            if (n =? 0)%Z then Return false           (* [not parsed.port] *)
            else if negb ((1 <=? n)%Z && (n <=? 65535)%Z) then Return false
            else Return true
        end
    end.

(** [_validate_proxy] *)
Definition _validate_proxy (proxy : string) : result bool :=
  try_except (_validate_proxy_try proxy) [Exception]
    (fun _ => Return false).

(* ------------------------------------------------------------------ *)
(** ** The preload worker                                              *)

(** How the body of the [for] loop is left. *)
Inductive flow : Type :=
  | Continue                (* on to the next provider *)
  | Break                   (* [break] *)
  | Propagate (e : exn).    (* an exception leaves the loop *)

(** The body of the [for] loop after [provider.get_proxy()] has
    answered [proxy]: it runs without suspension. *)
Definition offer (proxy : option string) (wait_time : Q) (self : ProxyPool)
    : flow * Q * ProxyPool :=
  match proxy with
  | Some s =>
      match (if Str.truthy s then _validate_proxy s else Return false) with
      | Raise e => (Propagate e, wait_time, self)
      | Return true =>
          match Queue.put_nowait (proxy_queue self) s with
          | Return q => (Continue, 0, set_proxy_queue q self)
          | Raise e =>
              if caught_by [QueueFull] e then (Break, wait_time, self)
              else (Propagate e, wait_time, self)
          end
      | Return false =>
          (Continue, wait_time,
           set_invalid_proxy_count (invalid_proxy_count self + 1) self)
      end
  | None =>
      (Continue, wait_time,
       set_invalid_proxy_count (invalid_proxy_count self + 1) self)
  end.

(** How the [for] loop over the providers ends. *)
Inductive scan_end : Type :=
  | Completed               (* every provider was visited *)
  | Broke                   (* [break] on a full queue *)
  | Stopped                 (* [return]: the stop signal was seen *)
  | Raised (e : exn).

(** [for provider in self.providers: ...], inside [async with self.lock]. *)
Fixpoint scan (ps : list ProxyProvider) (wait_time : Q) (self : ProxyPool)
    (tr : trace) : scan_end * Q * ProxyPool * trace :=
  match ps with
  | [] => (Completed, wait_time, self, tr)
  | provider :: rest =>
      if _stop_event self then (Stopped, wait_time, self, tr)
      else
        match get_proxy http_get provider tr with
        | (Raise e, tr) => (Raised e, wait_time, self, tr)
        | (Return proxy, tr) =>
            match offer proxy wait_time self with
            | (Continue, wait_time, self) => scan rest wait_time self tr
            | (Break, wait_time, self) => (Broke, wait_time, self, tr)
            | (Propagate e, wait_time, self) => (Raised e, wait_time, self, tr)
            end
        end
  end.

(** How one turn of the [while] loop of the worker ends. *)
Inductive round_end : Type :=
  | Again                   (* back to the test of the [while] *)
  | Ended                   (* the coroutine returns *)
  | Crashed (e : exn).      (* an exception leaves the coroutine *)

(** One turn of the [while] loop of [_preload_worker]: the [try] block
    and its two handlers. *)
Definition preload_round (self : ProxyPool) (tr : trace)
    : round_end * ProxyPool * trace :=
  let wait_time := _cooldown_time self in
  let '(outcome, wait_time, self, tr) :=
    if Queue.full (proxy_queue self) then
      (Completed, _full_queue_cooldown self, self, tr)
    else
      let '(outcome, wait_time, self, tr) :=
        scan (providers self) wait_time self (tr ++ [EvAcquire]) in
      (outcome, wait_time, self, tr ++ [EvRelease]) in
  match outcome with
  | Stopped => (Ended, self, tr)
  | Raised e =>
      if caught_by [CancelledError] e then (Ended, self, tr)
      else if caught_by [Exception] e then (Again, self, tr ++ [EvSleep 1])
      else (Crashed e, self, tr)
  | Completed | Broke =>
      if negb (_stop_event self) then (Again, self, tr ++ [EvSleep wait_time])
      else (Again, self, tr)
  end.

(** [_preload_worker]: the [while] loop, with the worker the only
    coroutine that runs.  [fuel] bounds the number of turns; [None] says
    that the worker has not returned within them. *)
Fixpoint _preload_worker (fuel : nat) (self : ProxyPool) (tr : trace)
    : option (result unit) * ProxyPool * trace :=
  match fuel with
  | O => (None, self, tr)
  | S fuel =>
      if _stop_event self then (Some (Return tt), self, tr)
      else
        match preload_round self tr with
        | (Again, self, tr) => _preload_worker fuel self tr
        | (Ended, self, tr) => (Some (Return tt), self, tr)
        | (Crashed e, self, tr) => (Some (Raise e), self, tr)
        end
  end.

(* ------------------------------------------------------------------ *)
(** ** [get_next_proxy]                                                *)

(** The [try] block at the head of [get_next_proxy]: a buffered address
    is taken and returned; [None] stands for falling through. *)
Definition take_buffered (self : ProxyPool)
    : result (option string) * ProxyPool :=
  match Queue.get_nowait (proxy_queue self) with
  | Return (proxy, q) =>
      (Return (Some proxy),
       set_current_proxy (Some proxy) (set_proxy_queue q self))
  | Raise e =>
      if caught_by [QueueEmpty] e then (Return None, self)
      else (Raise e, self)
  end.

(** The fallback: [for provider in self.providers: ...]. *)
Fixpoint first_proxy (ps : list ProxyProvider) (self : ProxyPool)
    (tr : trace) : result (option string) * ProxyPool * trace :=
  match ps with
  | [] => (Return None, self, tr)
  | provider :: rest =>
      match get_proxy http_get provider tr with
      | (Raise e, tr) => (Raise e, self, tr)
      | (Return proxy, tr) =>
          if truthy proxy then (Return proxy, set_current_proxy proxy self, tr)
          else first_proxy rest self tr
      end
  end.

(** [get_next_proxy] *)
Definition get_next_proxy (self : ProxyPool) (tr : trace)
    : result (option string) * ProxyPool * trace :=
  match take_buffered self with
  | (Raise e, self) => (Raise e, self, tr)
  | (Return (Some proxy), self) => (Return (Some proxy), self, tr)
  | (Return None, self) =>
      let '(r, self, tr) := first_proxy (providers self) self (tr ++ [EvAcquire]) in
      (r, self, tr ++ [EvRelease])
  end.

End Pool.

(* ------------------------------------------------------------------ *)
(** ** [close]                                                         *)

Section Close.

(** What [close] does once it has found a preload task that has not
    finished: the wait for it under [asyncio.wait_for] and the handler
    of [TimeoutError].  The event loop and its clock are not embedded;
    [await_preload_task] stands for the outcome of this part and the
    state it leaves. *)
Variable await_preload_task : ProxyPool -> result unit * ProxyPool.

(** [close] *)
Definition close : M unit :=
  (update (set_stop_event true) ;;;
   self <- get_self ;;
   match _preload_task self with
   | Some task => if negb (done task) then await_preload_task else ret tt
   | None => ret tt
   end)%st.

End Close.

End Proxy.

(* ================================================================== *)
(** * [client.py]                                                      *)
(* ================================================================== *)

Module Client.

(** An [httpx.AsyncClient], as far as the executor tells clients apart:
    by the proxy it was built with. *)
Record AsyncClient : Type := mkClient {
  proxy : option string
}.

(** What the executor does to the outside, in order. *)
Inductive event : Type :=
  | EvGetNextProxy (answer : option string)  (* [proxy_pool.get_next_proxy()] *)
  | EvNewClient (proxy : option string)      (* [httpx.AsyncClient(proxy=...)] *)
  | EvAclose (proxy : option string)         (* [aclose()] of such a client *)
  | EvRequest (proxy : option string).       (* [client.request(...)] *)

Definition is_request (ev : event) : bool :=
  match ev with EvRequest _ => true | _ => false end.

Definition is_get_next_proxy (ev : event) : bool :=
  match ev with EvGetNextProxy _ => true | _ => false end.

(** The number of requests sent so far. *)
Definition requests (log : list event) : nat :=
  length (filter is_request log).

(** The number of calls of [get_next_proxy] so far. *)
Definition pool_calls (log : list event) : nat :=
  length (filter is_get_next_proxy log).

Section Executor.

(** The pool the client was given, by its state and [get_next_proxy]. *)
Variable Pool : Type.
Variable pool_get_next_proxy : Pool -> result (option string) * Pool.

(** The call [httpx.AsyncClient(cookies=self.cache_data.cookies, ...,
    proxy=proxy)] of [_create_http_client], by the exception it ends
    with, if it ends with one.  Neither httpx nor a subclass of the
    executor is among the sources, so this is given.  The call first
    evaluates [self.cache_data.cookies]: [__init__] sets no
    [cache_data] (the assignment is commented out), so this raises
    [AttributeError] unless a subclass has set the attribute; and the
    constructor of httpx raises [ValueError] or [InvalidURL] for a
    proxy URL it refuses. *)
Variable AsyncClient_raises : option string -> option exn.

(** The server side: [send k proxy] is the outcome of the [k]-th
    request of the run, sent by a client bound to [proxy].  The method,
    URL and options of a call are the same at every attempt. *)
Variable send : nat -> option string -> result response.

Record BaseApiClient : Type := mkApi {
  _async_client : option AsyncClient;
  current_proxy : option string;
  proxy_pool : Pool;
  max_retries : Z;
  retry_status_codes : list Z;
  retry_exceptions : list exn_class;
  log : list event
}.

Definition set_async_client (c : option AsyncClient) (self : BaseApiClient) :=
  mkApi c (current_proxy self) (proxy_pool self) (max_retries self)
    (retry_status_codes self) (retry_exceptions self) (log self).

Definition set_current_proxy (p : option string) (self : BaseApiClient) :=
  mkApi (_async_client self) p (proxy_pool self) (max_retries self)
    (retry_status_codes self) (retry_exceptions self) (log self).

Definition set_proxy_pool (pool : Pool) (self : BaseApiClient) :=
  mkApi (_async_client self) (current_proxy self) pool (max_retries self)
    (retry_status_codes self) (retry_exceptions self) (log self).

Definition emit (ev : event) (self : BaseApiClient) :=
  mkApi (_async_client self) (current_proxy self) (proxy_pool self)
    (max_retries self) (retry_status_codes self) (retry_exceptions self)
    (log self ++ [ev]).

(** The retry settings [__init__] gives; no method changes them. *)
Definition configured (self : BaseApiClient) : Prop :=
  retry_status_codes self = [429; 500; 502; 503; 504]%Z /\
  retry_exceptions self
  = [RequestError; ProxyError; ConnectTimeout; ConnectionResetError].

Definition same_settings (self self' : BaseApiClient) : Prop :=
  max_retries self' = max_retries self /\
  retry_status_codes self' = retry_status_codes self /\
  retry_exceptions self' = retry_exceptions self.

(** [BaseApiClient.__init__] with a pool passed in; without one the
    constructor builds [ProxyPool(app_config)]. *)
Definition __init__ (app_config : Proxy.AppConfig) (proxy_pool : Pool)
    : BaseApiClient :=
  {| _async_client := None;
     current_proxy := None;
     proxy_pool := proxy_pool;
     max_retries := Proxy.max_retries app_config;
     retry_status_codes := [429; 500; 502; 503; 504]%Z;
     retry_exceptions :=
       [RequestError; ProxyError; ConnectTimeout; ConnectionResetError];
     log := [] |}.

(** [await self.proxy_pool.get_next_proxy()], recorded. *)
Definition call_get_next_proxy (self : BaseApiClient)
    : result (option string) * BaseApiClient :=
  match pool_get_next_proxy (proxy_pool self) with
  | (Raise e, pool) => (Raise e, set_proxy_pool pool self)
  | (Return answer, pool) =>
      (Return answer, emit (EvGetNextProxy answer) (set_proxy_pool pool self))
  end.

(** The call of the constructor: a client bound to [proxy], unless the
    call raises. *)
Definition httpx_AsyncClient (proxy : option string) : result AsyncClient :=
  match AsyncClient_raises proxy with
  | Some e => Raise e
  | None => Return (mkClient proxy)
  end.

(** [_create_http_client]: a pool object is always true, so the address
    is always fetched, and it is stored in [current_proxy] before the
    constructor runs.  The timeout and the TLS context passed to the
    constructor play no part below. *)
Definition _create_http_client (self : BaseApiClient)
    : result AsyncClient * BaseApiClient :=
  match call_get_next_proxy self with
  | (Raise e, self) => (Raise e, self)
  | (Return answer, self) =>
      let self := set_current_proxy answer self in
      match httpx_AsyncClient (current_proxy self) with
      | Raise e => (Raise e, self)
      | Return c => (Return c, emit (EvNewClient (current_proxy self)) self)
      end
  end.

(** [_refresh_client]: the client in place is closed first; when no new
    one can be made, the closed one stays in [_async_client]. *)
Definition _refresh_client (self : BaseApiClient)
    : result unit * BaseApiClient :=
  let self :=
    match _async_client self with
    | Some old => emit (EvAclose (proxy old)) self
    | None => self
    end in
  match _create_http_client self with
  | (Raise e, self) => (Raise e, self)
  | (Return c, self) => (Return tt, set_async_client (Some c) self)
  end.

(** [_get_http_client] *)
Definition _get_http_client (self : BaseApiClient)
    : result AsyncClient * BaseApiClient :=
  match _async_client self with
  | Some c => (Return c, self)
  | None =>
      match _create_http_client self with
      | (Raise e, self) => (Raise e, self)
      | (Return c, self) => (Return c, set_async_client (Some c) self)
      end
  end.

(** The [try] block of [_request_with_retry]: one attempt.  The
    message of the [HTTPStatusError] is abridged. *)
Definition attempt (self : BaseApiClient)
    : result response * BaseApiClient :=
  match _get_http_client self with
  | (Raise e, self) => (Raise e, self)
  | (Return client, self) =>
      let k := requests (log self) in
      let self := emit (EvRequest (proxy client)) self in
      match send k (proxy client) with
      | Raise e => (Raise e, self)
      | Return response =>
          if existsb (Z.eqb (status_code response)) (retry_status_codes self)
          then (Raise (mkExn HTTPStatusError "retryable status code"
                         (Some response)), self)
          else (Return response, self)
      end
  end.

(** The handler [except self.retry_exceptions as e], up to
    [retries += 1]. *)
Definition on_retry_exception (self : BaseApiClient)
    : result unit * BaseApiClient :=
  match call_get_next_proxy self with
  | (Raise e, self) => (Raise e, self)
  | (Return _, self) => _refresh_client self
  end.

(** The [while] loop of [_request_with_retry]; [fuel] bounds the number
    of turns.  A value [Return None] is the [None] a Python function
    returns when it falls off its end. *)
Fixpoint retry_loop (fuel : nat) (retries : Z) (self : BaseApiClient)
    : option (result (option response) * BaseApiClient) :=
  match fuel with
  | O => None
  | S fuel =>
      if (retries <=? max_retries self)%Z then
        match attempt self with
        | (Return response, self) => Some (Return (Some response), self)
        | (Raise e, self) =>
            if caught_by (retry_exceptions self) e then
              match on_retry_exception self with
              | (Raise e', self) => Some (Raise e', self)
              | (Return _, self) =>
                  let retries := (retries + 1)%Z in
                  if (max_retries self <? retries)%Z then Some (Raise e, self)
                  else retry_loop fuel retries self
              end
            else Some (Raise e, self)
        end
      else Some (Return None, self)
  end.

(** [_request_with_retry]: the loop from [retries = 0].  The loop takes
    at most [max_retries + 1] turns and one more test of its
    condition. *)
Definition _request_with_retry (self : BaseApiClient)
    : option (result (option response) * BaseApiClient) :=
  retry_loop (Z.to_nat (max_retries self + 1) + 1) 0 self.

(** [__aenter__]: the value it returns is [self]. *)
Definition __aenter__ (self : BaseApiClient)
    : result unit * BaseApiClient :=
  match _create_http_client self with
  | (Raise e, self) => (Raise e, self)
  | (Return c, self) => (Return tt, set_async_client (Some c) self)
  end.

(** [close] of the pool the client was given. *)
Variable pool_close : Pool -> result unit * Pool.

(** [__aexit__]: a pool object and a client object are always true.  It
    returns [None], so an exception of the [async with] block goes on. *)
Definition __aexit__ (self : BaseApiClient)
    : result unit * BaseApiClient :=
  match pool_close (proxy_pool self) with
  | (Raise e, pool) => (Raise e, set_proxy_pool pool self)
  | (Return _, pool) =>
      let self := set_proxy_pool pool self in
      match _async_client self with
      | Some c => (Return tt, emit (EvAclose (proxy c)) self)
      | None => (Return tt, self)
      end
  end.

End Executor.

(* ------------------------------------------------------------------ *)
(** ** The disguise headers                                            *)

Section Headers.

(** The random sources.  The calls of [random.randint], of
    [random.choice] and of [self.ua.random] are numbered as the run
    makes them: [randint k a b] is what [random.randint(a, b)] gives
    when it is the [k]-th of them, and so on. *)
Variable randint : nat -> Z -> Z -> Z.
Variable choice : nat -> list string -> string.
Variable ua_random : nat -> string.

(** [self.fake_headers_enabled], which [__init__] reads from the
    configuration (true when the option is absent). *)
Variable fake_headers_enabled : bool.

(** [_random_ip]: [fuel] bounds the number of turns of the [while True]
    loop, [k] counts the draws made so far; [None] says that no address
    was returned within the turns. *)
Fixpoint _random_ip (fuel : nat) (k : nat) : option (string * nat) :=
  match fuel with
  | O => None
  | S fuel =>
      let octet1 := randint k 1 254 in
      let k := S k in
      if existsb (Z.eqb octet1) [10; 127]%Z
         || ((224 <=? octet1)%Z && (octet1 <=? 255)%Z)
      then _random_ip fuel k
      else
        let octet2 := randint k 0 255 in
        let k := S k in
        if (if (octet1 =? 172)%Z then (16 <=? octet2)%Z && (octet2 <=? 31)%Z
            else if (octet1 =? 192)%Z then (octet2 =? 168)%Z
            else false)
        then _random_ip fuel k
        else
          let octet3 := randint k 0 255 in
          let k := S k in
          let octet4 := randint k 0 255 in
          let k := S k in
          if (octet1 =? 169)%Z && (octet2 =? 254)%Z then _random_ip fuel k
          else
            Some ((Str.of_int octet1 ++ "." ++ Str.of_int octet2 ++ "." ++
                   Str.of_int octet3 ++ "." ++ Str.of_int octet4)%string, k)
  end.

(** [_generate_fake_headers]: the values of the display are computed
    from left to right. *)
Definition _generate_fake_headers (fuel : nat) (k : nat)
    : option (Dict.t * nat) :=
  if negb fake_headers_enabled then Some (Dict.display [], k)
  else
    match _random_ip fuel k with
    | None => None
    | Some (forwarded_for, k) =>
        match _random_ip fuel k with
        | None => None
        | Some (real_ip, k) =>
            let user_agent := ua_random k in
            let k := S k in
            let language := choice k ["zh-CN,zh;q=0.9"; "en-US,en;q=0.5"] in
            let k := S k in
            Some (Dict.display
                    [("X-Forwarded-For", forwarded_for);
                     ("X-Real-IP", real_ip);
                     ("User-Agent", user_agent);
                     ("Accept-Language", language);
                     ("Cache-Control", "no-cache");
                     ("Pragma", "no-cache")], k)
        end
    end.

(** The head of [_request_with_retry]: the headers of the request, from
    the option [headers] of the call ([None] when it is not given). *)
Definition request_headers (headers : option Dict.t) (fuel : nat) (k : nat)
    : option (Dict.t * nat) :=
  let headers :=
    Dict.copy (match headers with Some h => h | None => Dict.display [] end) in
  match _generate_fake_headers fuel k with
  | None => None
  | Some (fake, k) => Some (Dict.update headers fake, k)
  end.

End Headers.

End Client.

(* ================================================================== *)
(** * [__init__.py]                                                    *)
(* ================================================================== *)

Module Package.

(** How an import statement ends: the names are bound, or
    [ImportError] is raised for a name the module does not have, or the
    module raised while it ran. *)
Inductive outcome : Type :=
  | Bound
  | ImportError (name : string)
  | Failed (e : exn).

(** The names [client.py] binds at module level: its imports and its
    class. *)
Definition client_names : list string :=
  ["ABC"; "abstractmethod"; "Optional"; "Any"; "random"; "ssl"; "httpx";
   "logger"; "UserAgent"; "AppConfig"; "ProxyPool"; "BaseApiClient";
   "__name__"; "__doc__"; "__package__"; "__loader__"; "__spec__";
   "__file__"; "__cached__"; "__builtins__"].

(** The names [proxy.py] binds at module level. *)
Definition proxy_names : list string := map fst Proxy.module_globals.

(** [from module import x1, x2, ...] once the module has run and binds
    [names]: the names are looked up from left to right.  Neither
    module is a package, so a name it lacks is no submodule either. *)
Fixpoint from_import (names : list string) (xs : list string) : outcome :=
  match xs with
  | [] => Bound
  | x :: rest =>
      if existsb (String.eqb x) names then from_import names rest
      else ImportError x
  end.

(** One statement after the other. *)
Definition and_then (first : outcome) (next : outcome) : outcome :=
  match first with
  | Bound => next
  | _ => first
  end.

(** The import statements of [__init__.py], in order.  The modules
    [async_decorators] and [config] are not among the sources, and
    [client.py] and [proxy.py] import libraries when they run: how
    these four steps end is given. *)
Definition __init__ (async_decorators client_runs config proxy_runs : outcome)
    : outcome :=
  and_then async_decorators
    (and_then client_runs
       (and_then (from_import client_names ["HttpClient"])
          (and_then config
             (and_then proxy_runs
                (from_import proxy_names
                   ["DebugProxyProvider"; "EmptyProxyProvider";
                    "ProxyProvider"; "RotatingProxyProvider";
                    "YiProxyProvider"]))))).

End Package.


(* ================================================================== *)
(** * The executor on the pool of [proxy.py]                           *)
(* ================================================================== *)

Module System.

(** The pool as the executor holds it: the object and the trace of what
    it has done. *)
Definition pool_state : Type := (Proxy.ProxyPool * Proxy.trace)%type.

Definition pool_get_next_proxy
    (http_get : nat -> string -> result response) (p : pool_state)
    : result (option string) * pool_state :=
  let '(r, self, tr) := Proxy.get_next_proxy http_get (fst p) (snd p) in
  (r, (self, tr)).

Definition pool_close
    (await_preload_task : Proxy.ProxyPool -> result unit * Proxy.ProxyPool)
    (p : pool_state) : result unit * pool_state :=
  let '(r, self) := Proxy.close await_preload_task (fst p) in
  (r, (self, snd p)).

End System.

(* ================================================================== *)
(** * The statements of the specification                              *)
(* ================================================================== *)

Module Spec.

(** ** The address format *)

(** A dotted quad: four decimal numbers from 0 to 255, written without
    padding and separated by dots. *)
Definition dotted_quad (h : string) : Prop :=
  exists a b c d : nat,
    (a <= 255 /\ b <= 255 /\ c <= 255 /\ d <= 255)%nat /\
    h = (Str.of_nat a ++ "." ++ Str.of_nat b ++ "." ++
         Str.of_nat c ++ "." ++ Str.of_nat d)%string.

(** "[a] parses as a URI with scheme in {http, https}, a host that is a
    syntactically valid IPv4 dotted-quad, and a port in [1, 65535]". *)
Definition valid_address (IPv6Address_ok : string -> bool) (a : string)
    : Prop :=
  exists r,
    Urllib.urlparse IPv6Address_ok a = Return r /\
    (Urllib.scheme r = "http" \/ Urllib.scheme r = "https") /\
    (exists h, Urllib.hostname r = Some h /\ dotted_quad h) /\
    (exists p, Urllib.port r = Return (Some p) /\ (1 <= p <= 65535)%Z).

(** ** The buffer under interleaving *)

(** The two operations on the buffer, as the worker and the callers of
    [get_next_proxy] perform them; each runs without suspension, so an
    interleaving of the two sides is a list of them. *)
Inductive action : Type :=
  | WorkerOffer (proxy : option string) (wait_time : Q)
  | ConsumerTake.

Definition step (IPv6Address_ok : string -> bool)
    (self : Proxy.ProxyPool) (a : action) : Proxy.ProxyPool :=
  match a with
  | WorkerOffer proxy wait_time =>
      snd (Proxy.offer IPv6Address_ok proxy wait_time self)
  | ConsumerTake => snd (Proxy.take_buffered self)
  end.

(** The pool after the actions, performed in this order. *)
Definition run (IPv6Address_ok : string -> bool) (actions : list action)
    (self : Proxy.ProxyPool) : Proxy.ProxyPool :=
  fold_left (step IPv6Address_ok) actions self.

(** ** The providers, asked in order *)

(** What the providers answer when they are asked one after the
    other. *)
Fixpoint poll (http_get : nat -> string -> result response)
    (ps : list Proxy.ProxyProvider) (tr : Proxy.trace)
    : list (result (option string)) :=
  match ps with
  | [] => []
  | p :: rest =>
      let '(r, tr') := Proxy.get_proxy http_get p tr in
      r :: poll http_get rest tr'
  end.

(** The first address among the answers: the first answer that is
    neither [None] nor empty. *)
Fixpoint first_address (answers : list (result (option string)))
    : option string :=
  match answers with
  | [] => None
  | Return (Some a) :: rest =>
      if Str.truthy a then Some a else first_address rest
  | _ :: rest => first_address rest
  end.

(** How many providers are asked before an address is found: all of
    them when there is none. *)
Fixpoint asked (answers : list (result (option string))) : nat :=
  match answers with
  | [] => O
  | Return (Some a) :: rest => if Str.truthy a then 1 else S (asked rest)
  | _ :: rest => S (asked rest)
  end.

(** An answer that is no address. *)
Definition no_address (r : result (option string)) : Prop :=
  r = Return None \/ r = Return (Some EmptyString).

(** The network fails with ordinary errors only: what a GET raises is an
    [Exception] (a transport error, a timeout), not a signal such as a
    cancellation. *)
Definition fails_with_errors (http_get : nat -> string -> result response)
    : Prop :=
  forall k url e,
    http_get k url = Raise e -> issubclass (exc_class e) Exception = true.

(** ** The provider scan *)

(** The verdict of the validator on a candidate, as a truth value. *)
Definition accepted (IPv6Address_ok : string -> bool) (s : string) : bool :=
  Str.truthy s &&
  match Proxy._validate_proxy IPv6Address_ok s with
  | Return b => b
  | Raise _ => false
  end.

(** "A successful non-blocking put of a validated address into the
    buffer short-circuits the remaining providers for that pass (no
    further provider is contacted in that pass) and sets the next sleep
    to zero": the pass ends with the trace as it stood when the provider
    had answered. *)
Definition put_short_circuits : Prop :=
  forall (IPv6Address_ok : string -> bool)
         (http_get : nat -> string -> result response)
         (p : Proxy.ProxyProvider) (rest : list Proxy.ProxyProvider)
         (wait_time : Q) (self : Proxy.ProxyPool) (tr tr1 : Proxy.trace)
         (s : string) (q : Queue.t),
    Proxy._stop_event self = false ->
    Proxy.get_proxy http_get p tr = (Return (Some s), tr1) ->
    accepted IPv6Address_ok s = true ->
    Queue.put_nowait (Proxy.proxy_queue self) s = Return q ->
    exists outcome self',
      Proxy.scan IPv6Address_ok http_get (p :: rest) wait_time self tr
      = (outcome, 0, self', tr1).

(** ** The retry loop *)

(** The request the log ends with: the proxy of its client. *)
Fixpoint last_request (log : list Client.event) : option (option string) :=
  match log with
  | [] => None
  | ev :: rest =>
      match last_request rest with
      | Some p => Some p
      | None =>
          match ev with
          | Client.EvRequest p => Some p
          | _ => None
          end
      end
  end.

Definition retry_statuses : list Z := [429; 500; 502; 503; 504]%Z.

(** "A retryable failure": a response whose status is in the retry set,
    or an exception of the retryable set. *)
Definition retryable_failure (outcome : result response) : Prop :=
  match outcome with
  | Return resp => In (status_code resp) retry_statuses
  | Raise e =>
      caught_by [RequestError; ProxyError; ConnectTimeout;
                 ConnectionResetError] e = true
  end.

(** [e] is the error an attempt with this outcome ends with: the
    exception of the transport, or the [HTTPStatusError] made from the
    response. *)
Definition error_of (outcome : result response) (e : exn) : Prop :=
  match outcome with
  | Return resp =>
      In (status_code resp) retry_statuses /\
      exc_class e = HTTPStatusError /\ exc_response e = Some resp
  | Raise e' => e = e'
  end.

End Spec.

(* ================================================================== *)
(** * Definitions used in the proofs                                   *)
(* ================================================================== *)

Module Aids.

Definition digits : list ascii :=
  ["0"; "1"; "2"; "3"; "4"; "5"; "6"; "7"; "8"; "9"]%char.

(** The strings of [n + 1] digits. *)
Fixpoint digit_strings (n : nat) : list string :=
  match n with
  | O => map (fun a => String a EmptyString) digits
  | S n' => flat_map (fun a => map (String a) (digit_strings n')) digits
  end.

(** The strings of one to three digits: every octet [_parse_octet]
    accepts is among them. *)
Definition octet_candidates : list string :=
  digit_strings 0 ++ digit_strings 1 ++ digit_strings 2.

(** The buffer has capacity 1 and holds at most one item. *)
Definition buffer_ok (self : Proxy.ProxyPool) : Prop :=
  Queue.maxsize (Proxy.proxy_queue self) = 1%Z /\
  (length (Queue.items (Proxy.proxy_queue self)) <= 1)%nat.

(** A method that leaves the buffer alone. *)
Definition keeps_queue {A : Type} (m : Proxy.M A) : Prop :=
  forall self, Proxy.proxy_queue (snd (m self)) = Proxy.proxy_queue self.

End Aids.

(* ================================================================== *)
(** * Sample configurations, pools, networks and servers               *)
(* ================================================================== *)

Module Sample.

(** None of the sample addresses has a bracketed host, so the IPv6
    parser is never consulted on them. *)
Definition no_ipv6 : string -> bool := fun _ => false.

Definition platform : Proxy.ProxyPlatformConfig :=
  Proxy.mkPlatform "pool-a" "https://proxy.example/get" (Some 1%Z) "A".

(** Proxies switched off, and switched on. *)
Definition cfg_off : Proxy.AppConfig :=
  Proxy.mkAppConfig (Proxy.mkProxyConf false "" []) 3.

Definition cfg_two_retries : Proxy.AppConfig :=
  Proxy.mkAppConfig (Proxy.mkProxyConf false "" []) 2.

Definition cfg_on : Proxy.AppConfig :=
  Proxy.mkAppConfig (Proxy.mkProxyConf true "pool-a" [platform]) 3.

Definition good : string := "http://192.0.2.1:8080".
Definition other : string := "http://192.0.2.2:8080".

Definition p_good : Proxy.ProxyProvider := Proxy.DebugProxyProvider good.
Definition p_other : Proxy.ProxyProvider := Proxy.DebugProxyProvider other.
Definition p_bad : Proxy.ProxyProvider :=
  Proxy.DebugProxyProvider "not an address".
Definition p_remote : Proxy.ProxyProvider :=
  Proxy.RemoteProxyProvider platform.

(** The pool a disabled configuration gives: no provider, empty
    buffer. *)
Definition pool_off : Proxy.ProxyPool := snd (Proxy.new cfg_off).

(** A pool with providers and, in [pool_ready], a buffered address. *)
Definition pool_with (ps : list Proxy.ProxyProvider) : Proxy.ProxyPool :=
  Proxy.set_providers ps pool_off.

Definition pool_ready : Proxy.ProxyPool :=
  Proxy.set_proxy_queue (Queue.mk 1 [good]) (pool_with [p_other]).

(** Networks for the remote provider. *)
Definition net_down : nat -> string -> result response :=
  fun _ _ => Raise (exn_of ConnectTimeout "timed out").

Definition net_up : nat -> string -> result response :=
  fun _ _ => Return (mkResponse 200 " 192.0.2.7:3128 ").

(** Servers for the executor. *)
Definition always (status : Z) : nat -> option string -> result response :=
  fun _ _ => Return (mkResponse status "").

Definition unreachable : nat -> option string -> result response :=
  fun _ _ => Raise (exn_of ConnectTimeout "timed out").

(** A constructor of clients: that of an executor whose subclass has
    set [cache_data], with an httpx that takes no proxy and every proxy
    URL that starts with one of three schemes, and raises [ValueError]
    for any other text. *)
Definition by_scheme (proxy : option string) : option exn :=
  match proxy with
  | None => None
  | Some url =>
      if existsb (fun scheme => Str.startswith scheme url)
           ["http://"; "https://"; "socks5://"]
      then None
      else Some (exn_of ValueError "Unknown scheme for proxy URL")
  end.

(** The constructor of an executor whose subclass has set no
    [cache_data]. *)
Definition no_cache_data (proxy : option string) : option exn :=
  Some (exn_of AttributeError "cache_data").

(** The pool as the executor holds it while it draws on [pool_ready]:
    the provider of [other], and [good] in the buffer or nothing. *)
Definition ready (p : System.pool_state) : Prop :=
  Proxy.providers (fst p) = [p_other] /\
  (Queue.items (Proxy.proxy_queue (fst p)) = [] \/
   Queue.items (Proxy.proxy_queue (fst p)) = [good]).

(** The executor on a pool of [proxy.py]. *)
Definition client (http_get : nat -> string -> result response)
    (send : nat -> option string -> result response)
    (app_config : Proxy.AppConfig) (pool : Proxy.ProxyPool)
    : option (result (option response)
              * Client.BaseApiClient System.pool_state) :=
  Client._request_with_retry (System.pool_get_next_proxy http_get) by_scheme
    send (Client.__init__ app_config (pool, [])).

End Sample.

(* ================================================================== *)
(** * Notions for the statements about the rest of the code           *)
(* ================================================================== *)

Module Notions.

(** ** Addresses *)

(** The characters of an address [a.b.c.d:port]. *)
Definition plain (c : ascii) : bool :=
  Str.between 48 57 c || Ascii.eqb c "." || Ascii.eqb c ":".

(** The text [a.b.c.d]. *)
Definition quad (a b c d : nat) : string :=
  (Str.of_nat a ++ "." ++ Str.of_nat b ++ "." ++
   Str.of_nat c ++ "." ++ Str.of_nat d)%string.

(** The text [a.b.c.d:port]. *)
Definition host_port (a b c d port : nat) : string :=
  (quad a b c d ++ ":" ++ Str.of_nat port)%string.

(** The address [a.b.c.d] as a number. *)
Definition ipv4 (a b c d : Z) : Z := Ipaddress.from_bytes_big [a; b; c; d].

(** [n] lies in the network that starts at [base] and has a prefix of
    [prefix] bits. *)
Definition in_network (base prefix n : Z) : bool :=
  (base <=? n)%Z && (n <? base + 2 ^ (32 - prefix))%Z.

(** The networks [_random_ip] keeps away from: 0.0.0.0/8, 10.0.0.0/8,
    127.0.0.0/8, 169.254.0.0/16, 172.16.0.0/12, 192.168.0.0/16 and
    224.0.0.0/3. *)
Definition excluded_networks : list (Z * Z) :=
  [(ipv4 0 0 0 0, 8); (ipv4 10 0 0 0, 8); (ipv4 127 0 0 0, 8);
   (ipv4 169 254 0 0, 16); (ipv4 172 16 0 0, 12);
   (ipv4 192 168 0 0, 16); (ipv4 224 0 0 0, 3)]%Z.

Definition excluded (n : Z) : bool :=
  existsb (fun net => in_network (fst net) (snd net) n) excluded_networks.

(** The first two numbers of an address outside these networks. *)
Definition octets_allowed (a b : Z) : Prop :=
  (1 <= a <= 223 /\ a <> 10 /\ a <> 127 /\ ~ (a = 169 /\ b = 254) /\
   ~ (a = 172 /\ 16 <= b <= 31) /\ ~ (a = 192 /\ b = 168))%Z.

(** What [random.randint] promises: a number from [a] to [b]. *)
Definition randint_in_range (randint : nat -> Z -> Z -> Z) : Prop :=
  forall k a b, (a <= b)%Z -> (a <= randint k a b <= b)%Z.

(** A random source for [randint]: the numbers of a list in turn, each
    brought into the range asked for. *)
Definition draws (l : list Z) : nat -> Z -> Z -> Z :=
  fun k a b => Z.max a (Z.min b (nth k l a)).

(** What [random.choice] promises: an item of the sequence. *)
Definition choice_in_list (choice : nat -> list string -> string) : Prop :=
  forall k l, l <> [] -> In (choice k l) l.

(** The names of the disguise headers. *)
Definition fake_header_names : list string :=
  ["X-Forwarded-For"; "X-Real-IP"; "User-Agent"; "Accept-Language";
   "Cache-Control"; "Pragma"].

(** The option [headers] of a call as a dict: empty when not given. *)
Definition given (headers : option Dict.t) : Dict.t :=
  match headers with
  | Some h => h
  | None => []
  end.

(** [random.choice] that takes the first item. *)
Definition first_choice : nat -> list string -> string :=
  fun _ l => hd EmptyString l.

(** ** The pool *)

(** The pool as [__init__] sets it up before it looks at the
    providers. *)
Definition fresh (cfg : Proxy.AppConfig) : Proxy.ProxyPool :=
  Proxy.mkPool cfg [] (Queue.create 1) false (1 # 2) 5 0 None None.

(** A pool that has nothing to give: no provider and an empty buffer. *)
Definition barren (self : Proxy.ProxyPool) : Prop :=
  Proxy.providers self = [] /\ Queue.items (Proxy.proxy_queue self) = [].

(** The order of the platforms: by the value of [priority], 1 when it
    is not given. *)
Definition by_priority (x y : Proxy.ProxyPlatformConfig) : Prop :=
  (Proxy.priority_key x <= Proxy.priority_key y)%Z.

(** The platforms with the priority [k], in their order. *)
Definition with_priority (k : Z) (l : list Proxy.ProxyPlatformConfig)
    : list Proxy.ProxyPlatformConfig :=
  filter (fun p => Proxy.priority_key p =? k)%Z l.

(** An offer of the worker that adds to the count of invalid
    addresses: no candidate, or one the validator does not accept. *)
Definition rejected (IPv6Address_ok : string -> bool) (a : Spec.action)
    : bool :=
  match a with
  | Spec.WorkerOffer (Some s) _ => negb (Spec.accepted IPv6Address_ok s)
  | Spec.WorkerOffer None _ => true
  | Spec.ConsumerTake => false
  end.

(** The candidate of an answer, when the validator accepts it. *)
Definition good_answer (IPv6Address_ok : string -> bool)
    (r : result (option string)) : option string :=
  match r with
  | Return (Some s) => if Spec.accepted IPv6Address_ok s then Some s else None
  | _ => None
  end.

(** The first candidate among the answers that the validator accepts. *)
Fixpoint first_accepted (IPv6Address_ok : string -> bool)
    (answers : list (result (option string))) : option string :=
  match answers with
  | [] => None
  | r :: rest =>
      match good_answer IPv6Address_ok r with
      | Some s => Some s
      | None => first_accepted IPv6Address_ok rest
      end
  end.

Definition is_sleep (ev : Proxy.event) : bool :=
  match ev with Proxy.EvSleep _ => true | _ => false end.

(** The number of sleeps so far. *)
Definition sleeps (tr : Proxy.trace) : nat := length (filter is_sleep tr).

(** ** The executor *)

(** An event of the executor that involves no proxy. *)
Definition direct (ev : Client.event) : Prop :=
  match ev with
  | Client.EvGetNextProxy a => a = None
  | Client.EvNewClient p => p = None
  | Client.EvAclose p => p = None
  | Client.EvRequest p => p = None
  end.

(** An executor that has had nothing to do with a proxy: its pool is
    one of the [good] ones, its client, if any, has no proxy, and so
    for every event of its log. *)
Definition unproxied {Pool : Type} (good : Pool -> Prop)
    (self : Client.BaseApiClient Pool) : Prop :=
  good (Client.proxy_pool self) /\
  (forall c, Client._async_client self = Some c -> Client.proxy c = None) /\
  Forall direct (Client.log self).

End Notions.

(* ================================================================== *)
(** * Further sample inputs                                            *)
(* ================================================================== *)

Module Cases.

(** A module in which the two names of [_init_providers] are bound. *)
Definition globals_debug_off : list (string * Proxy.pyval) :=
  ("debug", Proxy.VBool false) :: Proxy.module_globals.

Definition globals_debug_on : list (string * Proxy.pyval) :=
  ("debug", Proxy.VBool true) :: ("debug_proxy", Proxy.VStr Sample.good)
  :: Proxy.module_globals.

(** Four platforms: three are named [pool-a], with the priorities 2,
    none and 1. *)
Definition platform_late : Proxy.ProxyPlatformConfig :=
  Proxy.mkPlatform "pool-a" "https://late.example/get" (Some 2%Z) "L".

Definition platform_plain : Proxy.ProxyPlatformConfig :=
  Proxy.mkPlatform "pool-a" "https://plain.example/get" None "P".

Definition platform_other : Proxy.ProxyPlatformConfig :=
  Proxy.mkPlatform "pool-b" "https://other.example/get" (Some 0%Z) "O".

Definition platform_first : Proxy.ProxyPlatformConfig :=
  Proxy.mkPlatform "pool-a" "https://first.example/get" (Some 1%Z) "F".

Definition cfg_platforms : Proxy.AppConfig :=
  Proxy.mkAppConfig
    (Proxy.mkProxyConf true "pool-a"
       [platform_late; platform_plain; platform_other; platform_first]) 3.

Definition cfg_negative : Proxy.AppConfig :=
  Proxy.mkAppConfig (Proxy.mkProxyConf false "" []) (-1).

(** An endpoint that answers every GET with status 500 and no body. *)
Definition net_error : nat -> string -> result response :=
  fun _ _ => Return (mkResponse 500 "").

(** A server that times out twice and then answers. *)
Definition flaky : nat -> option string -> result response :=
  fun k _ =>
    if (k <? 2)%nat then Raise (exn_of ConnectTimeout "timed out")
    else Return (mkResponse 200 "ok").

(** A server whose request ends in the [TimeoutError] of the
    built-ins. *)
Definition stalled : nat -> option string -> result response :=
  fun _ _ => Raise (exn_of TimeoutError "timed out").

(** A wait for the preload task that ends at once. *)
Definition no_wait : Proxy.ProxyPool -> result unit * Proxy.ProxyPool :=
  fun self => (Return tt, self).

(** The headers of a caller, and a source of user agents. *)
Definition headers : Dict.t := [("User-Agent", "mine"); ("Accept", "*/*")].

Definition agent : nat -> string := fun _ => "agent/1.0".

End Cases.

Unset Implicit Arguments.

(* ================================================================== *)
(** * Properties of the string functions                               *)
(* ================================================================== *)

Section StrFacts.

Variable c : ascii.

Lemma contains_app (s t : string) :
  Str.contains c (s ++ t) = Str.contains c s || Str.contains c t.
Proof.
  induction s as [|d s IH]; simpl; [reflexivity|].
  rewrite IH. now rewrite orb_assoc.
Qed.

Lemma split_not_nil (s : string) : Str.split c s <> [].
Proof.
  destruct s as [|d s]; simpl; [discriminate|].
  destruct (Ascii.eqb c d); [discriminate|].
  destruct (Str.split c s); discriminate.
Qed.

(** A string without the separator is one piece. *)
Lemma split_without (s : string) :
  Str.contains c s = false -> Str.split c s = [s].
Proof.
  induction s as [|d s IH]; simpl; intros H; [reflexivity|].
  apply orb_false_elim in H as [Hd Hs].
  rewrite Hd, (IH Hs). reflexivity.
Qed.

(** The first piece ends at the first separator. *)
Lemma split_app_sep (s rest : string) :
  Str.contains c s = false ->
  Str.split c (s ++ String c rest) = s :: Str.split c rest.
Proof.
  induction s as [|d s IH]; simpl; intros H.
  - now rewrite Ascii.eqb_refl.
  - apply orb_false_elim in H as [Hd Hs].
    rewrite Hd, (IH Hs). reflexivity.
Qed.

Lemma join_cons (p : string) (rest : list string) :
  rest <> [] -> Str.join c (p :: rest) = (p ++ String c (Str.join c rest))%string.
Proof. destruct rest; [congruence | reflexivity]. Qed.

Lemma join_cons_char (d : ascii) (p : string) (rest : list string) :
  Str.join c (String d p :: rest) = String d (Str.join c (p :: rest)).
Proof. destruct rest; reflexivity. Qed.

(** Joining the pieces gives the string back. *)
Lemma join_split (s : string) : Str.join c (Str.split c s) = s.
Proof.
  induction s as [|d s IH]; [reflexivity|].
  cbn [Str.split].
  destruct (Ascii.eqb c d) eqn:Hcd.
  - apply Ascii.eqb_eq in Hcd. subst d.
    rewrite join_cons by apply split_not_nil.
    now rewrite IH.
  - destruct (Str.split c s) as [|p ps] eqn:E.
    + now apply split_not_nil in E.
    + now rewrite join_cons_char, IH.
Qed.

End StrFacts.

(* ================================================================== *)
(** * The IPv4 parser accepts exactly the dotted quads                 *)
(* ================================================================== *)

(** Case analysis on what a parser does before it raises. *)
Ltac break_match_hyp :=
  match goal with
  | H : context [match ?x with _ => _ end] |- _ => destruct x eqn:?
  end.

Ltac raise_cases :=
  repeat (first
    [ discriminate
    | match goal with
      | H : Raise _ = Raise _ |- _ => injection H as <-; reflexivity
      end
    | break_match_hyp ]).

Section Ipv4Facts.

Import Aids.

Lemma ascii_digit_in (c : ascii) :
  Str.char_isascii c = true -> Str.char_isdigit c = true -> In c digits.
Proof.
  destruct c as [[] [] [] [] [] [] [] []]; vm_compute; intros H1 H2;
    try discriminate; repeat first [left; reflexivity | right].
Qed.

Lemma octet_shape (s : string) (n : Z) :
  Ipaddress._parse_octet s = Return n -> In s octet_candidates.
Proof.
  remember octet_candidates as cands eqn:Hcands.
  unfold Ipaddress._parse_octet.
  destruct (Str.truthy s) eqn:Ht; simpl; [|discriminate].
  destruct (Str.isascii s) eqn:Ha; simpl; [|discriminate].
  destruct (Str.isdigit s) eqn:Hd; simpl; [|discriminate].
  destruct (3 <? String.length s)%nat eqn:Hl; [discriminate|].
  intros _. apply Nat.ltb_ge in Hl.
  unfold Str.isdigit in Hd. rewrite Ht in Hd. simpl in Hd.
  unfold Str.isascii in Ha.
  destruct s as [|c1 [|c2 [|c3 [|c4 s]]]]; simpl in Ht, Ha, Hd, Hl;
    try discriminate; try lia;
    repeat match goal with
           | H : (_ && _) = true |- _ => apply andb_prop in H as [? ?]
           end;
    repeat match goal with
           | H : Str.char_isascii ?c = true, H' : Str.char_isdigit ?c = true |- _ =>
               pose proof (ascii_digit_in c H H'); clear H H'
           end;
    subst cands.
  - unfold octet_candidates. apply in_or_app. left.
    now apply (in_map (fun a => String a EmptyString)).
  - unfold octet_candidates. apply in_or_app. right. apply in_or_app. left.
    cbn [digit_strings].
    apply in_flat_map. exists c1. split; [assumption|].
    apply in_map. now apply (in_map (fun a => String a EmptyString)).
  - unfold octet_candidates. apply in_or_app. right. apply in_or_app. right.
    cbn [digit_strings].
    apply in_flat_map. exists c1. split; [assumption|].
    apply in_map. apply in_flat_map. exists c2. split; [assumption|].
    apply in_map. now apply (in_map (fun a => String a EmptyString)).
Qed.

Lemma octet_candidates_checked :
  forallb (fun s =>
             match Ipaddress._parse_octet s with
             | Return n =>
                 String.eqb s (Str.of_nat (Z.to_nat n))
                 && (Z.to_nat n <=? 255)%nat
             | Raise _ => true
             end) octet_candidates = true.
Proof. vm_compute. reflexivity. Qed.

Lemma octets_checked :
  forallb (fun k =>
             returns (Ipaddress._parse_octet (Str.of_nat k))
             && Str.truthy (Str.of_nat k)
             && negb (Str.contains "." (Str.of_nat k))
             && negb (Str.contains "/" (Str.of_nat k))) (seq 0 256) = true.
Proof. vm_compute. reflexivity. Qed.

Lemma octet_of_nat (k : nat) :
  (k <= 255)%nat ->
  returns (Ipaddress._parse_octet (Str.of_nat k)) = true
  /\ Str.truthy (Str.of_nat k) = true
  /\ Str.contains "." (Str.of_nat k) = false
  /\ Str.contains "/" (Str.of_nat k) = false.
Proof.
  intros Hk.
  pose proof octets_checked as H.
  rewrite forallb_forall in H.
  specialize (H k). 
  assert (Hin : In k (seq 0 256)) by (apply in_seq; lia).
  apply H in Hin.
  repeat (apply andb_prop in Hin as [Hin ?]).
  repeat split; try assumption; now apply negb_true_iff.
Qed.

(** An octet is accepted exactly when it is the decimal form of a
    number up to 255. *)
Lemma parse_octet_iff (s : string) :
  returns (Ipaddress._parse_octet s) = true <->
  exists k, (k <= 255)%nat /\ s = Str.of_nat k.
Proof.
  split.
  - destruct (Ipaddress._parse_octet s) as [n|e] eqn:E; [intros _|discriminate].
    pose proof E as Hin. apply octet_shape in Hin.
    pose proof octet_candidates_checked as H.
    rewrite forallb_forall in H. specialize (H s Hin).
    rewrite E in H. apply andb_prop in H as [H1 H2].
    exists (Z.to_nat n). split.
    + now apply Nat.leb_le.
    + now apply String.eqb_eq.
  - intros [k [Hk ->]]. now apply octet_of_nat.
Qed.

Lemma parse_octet_raises (s : string) (e : exn) :
  Ipaddress._parse_octet s = Raise e -> exc_class e = ValueError.
Proof. unfold Ipaddress._parse_octet. intros H. raise_cases. Qed.

Lemma parse_octets_raises (l : list string) (e : exn) :
  Ipaddress.parse_octets l = Raise e -> exc_class e = ValueError.
Proof.
  revert e. induction l as [|o l IH]; simpl; intros e H; [discriminate|].
  unfold bind in H.
  destruct (Ipaddress._parse_octet o) eqn:Ho.
  - destruct (Ipaddress.parse_octets l) eqn:Hl; [discriminate|].
    injection H as <-. now apply IH.
  - injection H as <-. now apply parse_octet_raises in Ho.
Qed.

Lemma IPv4Address_raises (a : option string) (e : exn) :
  Ipaddress.IPv4Address a = Raise e -> exc_class e = AddressValueError.
Proof.
  unfold Ipaddress.IPv4Address, Ipaddress._ip_int_from_string, try_except, bind.
  intros H.
  destruct (Str.contains "/" (Ipaddress.str_of a)); [now injection H as <-|].
  destruct (negb (Str.truthy (Ipaddress.str_of a))); [now injection H as <-|].
  destruct (negb (length (Str.split "." (Ipaddress.str_of a)) =? 4)%nat);
    [now injection H as <-|].
  destruct (Ipaddress.parse_octets (Str.split "." (Ipaddress.str_of a)))
    as [bytes|exc] eqn:Hp; [discriminate|].
  apply parse_octets_raises in Hp.
  unfold caught_by in H. rewrite Hp in H. simpl in H.
  now injection H as <-.
Qed.

Lemma IPv4Address_None : returns (Ipaddress.IPv4Address None) = false.
Proof. reflexivity. Qed.

Lemma parse_octets_returns (l : list string) :
  returns (Ipaddress.parse_octets l)
  = forallb (fun o => returns (Ipaddress._parse_octet o)) l.
Proof.
  induction l as [|o l IH]; simpl; [reflexivity|].
  destruct (Ipaddress._parse_octet o); simpl; [|reflexivity].
  rewrite <- IH. now destruct (Ipaddress.parse_octets l).
Qed.

(** When [IPv4Address] accepts a string. *)
Lemma IPv4Address_returns (h : string) :
  returns (Ipaddress.IPv4Address (Some h))
  = negb (Str.contains "/" h) && Str.truthy h
    && (length (Str.split "." h) =? 4)%nat
    && forallb (fun o => returns (Ipaddress._parse_octet o)) (Str.split "." h).
Proof.
  unfold Ipaddress.IPv4Address, Ipaddress._ip_int_from_string. simpl Ipaddress.str_of.
  destruct (Str.contains "/" h); [reflexivity|].
  destruct (Str.truthy h); [|reflexivity].
  destruct (length (Str.split "." h) =? 4)%nat; [|reflexivity].
  simpl. rewrite <- parse_octets_returns.
  unfold try_except, bind.
  destruct (Ipaddress.parse_octets (Str.split "." h)); [reflexivity|].
  now destruct (caught_by [ValueError] e).
Qed.

(** [IPv4Address] accepts exactly the dotted quads. *)
Lemma IPv4Address_dotted_quad (h : string) :
  returns (Ipaddress.IPv4Address (Some h)) = true <-> Spec.dotted_quad h.
Proof.
  rewrite IPv4Address_returns. split.
  - intros H.
    apply andb_prop in H as [H Hall].
    apply andb_prop in H as [_ Hlen].
    apply Nat.eqb_eq in Hlen.
    pose proof (join_split "." h) as Hj.
    destruct (Str.split "." h) as [|o1 [|o2 [|o3 [|o4 [|o5 l]]]]];
      try discriminate Hlen.
    simpl in Hall.
    repeat (apply andb_prop in Hall as [? Hall]).
    repeat match goal with
           | H : returns (Ipaddress._parse_octet _) = true |- _ =>
               apply parse_octet_iff in H as [? [? ->]]
           end.
    unfold Spec.dotted_quad.
    do 4 eexists. split; [|symmetry; exact Hj]. auto.
  - intros (a & b & c & d & (Ha & Hb & Hc & Hd) & ->).
    destruct (octet_of_nat _ Ha) as (Ra & Ta & Da & Sa).
    destruct (octet_of_nat _ Hb) as (Rb & Tb & Db & Sb).
    destruct (octet_of_nat _ Hc) as (Rc & Tc & Dc & Sc).
    destruct (octet_of_nat _ Hd) as (Rd & Td & Dd & Sd).
    change ("." ++ ?x)%string with (String "." x).
    cbn [String.append].
    rewrite !split_app_sep by assumption.
    rewrite split_without by assumption.
    repeat (rewrite contains_app; simpl Str.contains).
    rewrite Sa, Sb, Sc, Sd. simpl.
    rewrite Ra, Rb, Rc, Rd. simpl.
    rewrite !andb_true_r.
    destruct (Str.of_nat a); [discriminate Ta | reflexivity].
Qed.

End Ipv4Facts.

(* ================================================================== *)
(** * The parsers raise [ValueError] only                              *)
(* ================================================================== *)

Section UrlFacts.

Variable IPv6Address_ok : string -> bool.

Lemma ip_address_raises (h : string) (e : exn) :
  Ipaddress.ip_address IPv6Address_ok h = Raise e -> exc_class e = ValueError.
Proof.
  unfold Ipaddress.ip_address.
  destruct (Ipaddress.IPv4Address (Some h)) as [n|e0] eqn:E; [discriminate|].
  apply IPv4Address_raises in E.
  unfold caught_by. rewrite E. simpl.
  destruct (IPv6Address_ok h); [discriminate|].
  now intros H; injection H as <-.
Qed.

Lemma check_bracketed_host_raises (h : string) (e : exn) :
  Urllib._check_bracketed_host IPv6Address_ok h = Raise e ->
  exc_class e = ValueError.
Proof.
  unfold Urllib._check_bracketed_host, bind. intros H.
  destruct (Str.startswith "v" h).
  - raise_cases.
  - destruct (Ipaddress.ip_address IPv6Address_ok h) as [v|e0] eqn:E.
    + raise_cases.
    + injection H as <-. now apply ip_address_raises in E.
Qed.

Lemma check_bracketed_netloc_raises (netloc : string) (e : exn) :
  Urllib._check_bracketed_netloc IPv6Address_ok netloc = Raise e ->
  exc_class e = ValueError.
Proof.
  unfold Urllib._check_bracketed_netloc. intros H.
  repeat first
    [ discriminate
    | match goal with
      | H : Raise _ = Raise _ |- _ => injection H as <-; reflexivity
      | H : Urllib._check_bracketed_host _ _ = Raise _ |- _ =>
          now apply check_bracketed_host_raises in H
      end
    | break_match_hyp ].
Qed.

Lemma urlsplit_raises (url : string) (e : exn) :
  Urllib.urlsplit IPv6Address_ok url = Raise e -> exc_class e = ValueError.
Proof.
  unfold Urllib.urlsplit, Urllib._checknetloc, bind. intros H.
  repeat first
    [ discriminate
    | match goal with
      | H : Raise _ = Raise _ |- _ => injection H as <-; reflexivity
      | H : Urllib._check_bracketed_netloc _ _ = Raise _ |- _ =>
          now apply check_bracketed_netloc_raises in H
      | H : Raise _ = Raise _ |- _ => injection H as <-
      end
    | break_match_hyp ].
Qed.

Lemma urlparse_raises (url : string) (e : exn) :
  Urllib.urlparse IPv6Address_ok url = Raise e -> exc_class e = ValueError.
Proof.
  unfold Urllib.urlparse, bind. intros H.
  destruct (Urllib.urlsplit IPv6Address_ok url) as [r|e0] eqn:E.
  - raise_cases.
  - injection H as <-. now apply urlsplit_raises in E.
Qed.

End UrlFacts.

Lemma port_raises (r : Urllib.ParseResult) (e : exn) :
  Urllib.port r = Raise e -> exc_class e = ValueError.
Proof. unfold Urllib.port. intros H. raise_cases. Qed.


(* ================================================================== *)
(** * The validator                                                    *)
(* ================================================================== *)

Section ValidatorFacts.

Variable IPv6Address_ok : string -> bool.

(** The body of the validator raises nothing but [ValueError]. *)
Lemma validate_try_raises (a : string) (e : exn) :
  Proxy._validate_proxy_try IPv6Address_ok a = Raise e -> exc_class e = ValueError.
Proof.
  unfold Proxy._validate_proxy_try, bind. intros H.
  destruct (Urllib.urlparse IPv6Address_ok a) as [r|e0] eqn:Eu.
  2:{ injection H as <-. now apply urlparse_raises in Eu. }
  destruct (negb (existsb _ _)); [discriminate|].
  destruct (Ipaddress.IPv4Address (Urllib.hostname r)) as [n|e1] eqn:Ei.
  - destruct (Urllib.port r) as [p|e2] eqn:Ep.
    + raise_cases.
    + injection H as <-. now apply port_raises in Ep.
  - apply IPv4Address_raises in Ei.
    unfold caught_by in H. rewrite Ei in H. discriminate H.
Qed.

(** The validator returns a truth value on every string. *)
Lemma validate_total (a : string) : exists b, Proxy._validate_proxy IPv6Address_ok a = Return b.
Proof.
  unfold Proxy._validate_proxy, try_except.
  destruct (Proxy._validate_proxy_try IPv6Address_ok a) as [b|e] eqn:E; [now exists b|].
  apply validate_try_raises in E.
  unfold caught_by. rewrite E. simpl. now exists false.
Qed.

Lemma validate_true_try (a : string) :
  Proxy._validate_proxy IPv6Address_ok a = Return true <-> Proxy._validate_proxy_try IPv6Address_ok a = Return true.
Proof.
  unfold Proxy._validate_proxy, try_except.
  destruct (Proxy._validate_proxy_try IPv6Address_ok a) as [b|e] eqn:E; [reflexivity|].
  split; [|discriminate].
  now destruct (caught_by [Exception] e).
Qed.

Lemma scheme_allowed (s : string) :
  existsb (String.eqb s) ["http"; "https"] = true <->
  s = "http" \/ s = "https".
Proof.
  simpl. rewrite !orb_true_iff, !String.eqb_eq.
  intuition discriminate.
Qed.

Lemma validate_true_iff (a : string) :
  Proxy._validate_proxy IPv6Address_ok a = Return true <-> Spec.valid_address IPv6Address_ok a.
Proof.
  rewrite validate_true_try.
  unfold Proxy._validate_proxy_try, Spec.valid_address, bind.
  split.
  - intros H.
    destruct (Urllib.urlparse IPv6Address_ok a) as [r|e0] eqn:Eu;
      [|discriminate].
    exists r. split; [reflexivity|].
    destruct (existsb _ _) eqn:Es; [|discriminate]. cbn [negb] in H.
    apply scheme_allowed in Es. split; [exact Es|].
    destruct (Ipaddress.IPv4Address (Urllib.hostname r)) as [n|e1] eqn:Ei.
    2:{ destruct (caught_by [AddressValueError] e1); discriminate H. }
    destruct (Urllib.port r) as [[p|]|e2] eqn:Ep; try discriminate.
    destruct (p =? 0)%Z; [discriminate|].
    destruct ((1 <=? p)%Z && (p <=? 65535)%Z) eqn:Er; [|discriminate].
    apply andb_prop in Er as [Hlo Hhi].
    apply Z.leb_le in Hlo. apply Z.leb_le in Hhi.
    split.
    + destruct (Urllib.hostname r) as [h|] eqn:Eh;
        [|vm_compute in Ei; discriminate Ei].
      exists h. split; [reflexivity|].
      apply IPv4Address_dotted_quad. now rewrite Ei.
    + exists p. split; [reflexivity | lia].
  - intros (r & -> & Hs & (h & -> & Hq) & (p & -> & Hp)).
    apply scheme_allowed in Hs. rewrite Hs. simpl.
    apply IPv4Address_dotted_quad in Hq.
    destruct (Ipaddress.IPv4Address (Some h)); [|discriminate Hq].
    destruct (Z.eqb_spec p 0) as [->|_]; [lia|].
    destruct (Z.leb_spec 1 p); [|lia].
    destruct (Z.leb_spec p 65535); [|lia].
    reflexivity.
Qed.

End ValidatorFacts.


(** C5: for every address string, [_validate_proxy] answers true exactly
    when the string parses as a URI with scheme http or https, a host
    that is an IPv4 dotted quad and a port from 1 to 65535; it returns a
    truth value on every string, every exception of the parsers being
    turned into false; the five addresses of the specification get the
    answers it gives. *)
Theorem validate_proxy_spec (IPv6Address_ok : string -> bool) :
  (forall a,
     Proxy._validate_proxy IPv6Address_ok a = Return true <->
     Spec.valid_address IPv6Address_ok a) /\
  (forall a, exists b, Proxy._validate_proxy IPv6Address_ok a = Return b) /\
  Proxy._validate_proxy IPv6Address_ok "http://192.0.2.1:8080" = Return true /\
  Proxy._validate_proxy IPv6Address_ok "ftp://1.2.3.4:80" = Return false /\
  Proxy._validate_proxy IPv6Address_ok "http://999.1.1.1:80" = Return false /\
  Proxy._validate_proxy IPv6Address_ok "http://1.2.3.4:70000" = Return false /\
  Proxy._validate_proxy IPv6Address_ok "http://1.2.3.4" = Return false.
Proof.
  split; [exact (validate_true_iff IPv6Address_ok)|].
  split; [exact (validate_total IPv6Address_ok)|].
  repeat split; vm_compute; reflexivity.
Qed.

(* ================================================================== *)
(** * The pool                                                         *)
(* ================================================================== *)

Section ProxyFacts.

Import Proxy Spec Aids.

(** ** Construction *)

(** C3: with [enable] true, constructing the pool raises [NameError]
    (for the name [debug], which the module does not define) before a
    provider is installed, and no preload task is started. *)
Theorem init_enabled_raises_NameError (cfg : AppConfig) :
  enable (proxy_config cfg) = true ->
  exists self,
    Proxy.new cfg = (Raise (exn_of NameError "debug"), self) /\
    providers self = [] /\
    _preload_task self = None.
Proof.
  intros H. unfold Proxy.new, __init__, _init_providers, sbind, get_self.
  cbn [app_config]. rewrite H. cbn.
  eexists. split; [reflexivity|]. split; reflexivity.
Qed.

(** ** Providers *)

Lemma gets_app (tr tr' : trace) : gets (tr ++ tr') = (gets tr + gets tr')%nat.
Proof. unfold gets. now rewrite filter_app, length_app. Qed.

Lemma contacted_app (tr tr' : trace) :
  contacted (tr ++ tr') = contacted tr ++ contacted tr'.
Proof.
  induction tr as [|ev tr IH]; [reflexivity|].
  destruct ev; cbn; now rewrite ?IH.
Qed.

(** The remote provider sends one GET and answers with the body,
    stripped and prefixed, or with [None]. *)
Lemma remote_get_proxy_answer
    (http_get : nat -> string -> result response)
    (config : ProxyPlatformConfig) (tr : trace) :
  (forall e, http_get (gets tr) (get_proxy_link config) = Raise e ->
             issubclass (exc_class e) Exception = true) ->
  get_proxy http_get (RemoteProxyProvider config) tr
  = (match http_get (gets tr) (get_proxy_link config) with
     | Return resp => Return (Some ("http://" ++ Str.strip (text resp))%string)
     | Raise _ => Return None
     end,
     tr ++ [EvGetProxy (RemoteProxyProvider config);
            EvHttpGet (get_proxy_link config)]).
Proof.
  intros Herr.
  unfold get_proxy, remote_get_proxy, try_except, bind.
  rewrite gets_app. cbn [gets filter is_http_get length]. rewrite Nat.add_0_r.
  rewrite <- app_assoc. cbn [app].
  destruct (http_get (gets tr) (get_proxy_link config)) as [resp|e] eqn:E;
    [reflexivity|].
  unfold caught_by. cbn [existsb]. rewrite (Herr e eq_refl). reflexivity.
Qed.

(** C9: when the GET of the remote provider can fail with errors only
    (exceptions deriving from [Exception]: transport errors, timeouts),
    [get_proxy] returns [http://] followed by the stripped body of the
    response, or [None] when the GET raised; it raises nothing, and it
    sends exactly one GET. *)
Theorem remote_get_proxy_spec
    (http_get : nat -> string -> result response)
    (config : ProxyPlatformConfig) (tr : trace) :
  (forall e, http_get (gets tr) (get_proxy_link config) = Raise e ->
             issubclass (exc_class e) Exception = true) ->
  let answer :=
    match http_get (gets tr) (get_proxy_link config) with
    | Return resp => Some ("http://" ++ Str.strip (text resp))%string
    | Raise _ => None
    end in
  let tr' := snd (get_proxy http_get (RemoteProxyProvider config) tr) in
  get_proxy http_get (RemoteProxyProvider config) tr = (Return answer, tr') /\
  tr' = tr ++ [EvGetProxy (RemoteProxyProvider config);
               EvHttpGet (get_proxy_link config)] /\
  gets tr' = S (gets tr).
Proof.
  intros Herr answer tr'. subst answer tr'.
  rewrite (remote_get_proxy_answer http_get config tr Herr). cbn [snd].
  split; [|split].
  - now destruct (http_get (gets tr) (get_proxy_link config)).
  - reflexivity.
  - rewrite gets_app. cbn. lia.
Qed.

(** The errors of [httpx] and of the operating system are all of this
    kind. *)
Lemma errors_are_exceptions (c : exn_class) :
  issubclass c HTTPError = true \/ issubclass c OSError = true ->
  issubclass c Exception = true.
Proof. destruct c; vm_compute; intuition discriminate. Qed.

(** ** The buffer *)

Lemma put_nowait_keeps (q q' : Queue.t) (x : string) :
  Queue.maxsize q = 1%Z ->
  Queue.put_nowait q x = Return q' ->
  Queue.maxsize q' = 1%Z /\ (length (Queue.items q') <= 1)%nat.
Proof.
  intros Hm. unfold Queue.put_nowait.
  destruct (Queue.full q) eqn:F; [discriminate|].
  intros H. injection H as <-. cbn. split; [assumption|].
  unfold Queue.full, Queue.qsize in F. rewrite Hm in F. cbn in F.
  apply Z.leb_gt in F. rewrite length_app. cbn. lia.
Qed.

Lemma offer_keeps_buffer o (c : option string) (w : Q) (self : ProxyPool) :
  buffer_ok self -> buffer_ok (snd (offer o c w self)).
Proof.
  intros [Hm Hl]. unfold offer.
  destruct c as [s|]; [|now split].
  destruct (if Str.truthy s then _validate_proxy o s else Return false)
    as [[|]|e]; try (now split).
  destruct (Queue.put_nowait (proxy_queue self) s) as [q'|e] eqn:E.
  - cbn. now apply put_nowait_keeps in E.
  - destruct (caught_by [QueueFull] e); now split.
Qed.

Lemma take_keeps_buffer (self : ProxyPool) :
  buffer_ok self -> buffer_ok (snd (take_buffered self)).
Proof.
  intros [Hm Hl]. unfold take_buffered, Queue.get_nowait.
  destruct (Queue.items (proxy_queue self)) as [|x l] eqn:E; cbn.
  - split; [assumption|]. rewrite E. cbn. lia.
  - split; cbn; [assumption|]. cbn in Hl. lia.
Qed.

Lemma run_keeps_buffer o (actions : list action) :
  forall self, buffer_ok self -> buffer_ok (run o actions self).
Proof.
  induction actions as [|a actions IH]; intros self H; [exact H|].
  cbn. apply IH. destruct a; cbn.
  - now apply offer_keeps_buffer.
  - now apply take_keeps_buffer.
Qed.

Lemma keeps_queue_ret {A : Type} (a : A) : keeps_queue (ret a).
Proof. now intros self. Qed.

Lemma keeps_queue_lift {A : Type} (r : result A) : keeps_queue (lift r).
Proof. now intros self. Qed.

Lemma keeps_queue_get_self : keeps_queue get_self.
Proof. now intros self. Qed.

Lemma keeps_queue_update (f : ProxyPool -> ProxyPool) :
  (forall self, proxy_queue (f self) = proxy_queue self) ->
  keeps_queue (update f).
Proof. intros H self. apply H. Qed.

Lemma keeps_queue_sbind {A B : Type} (m : M A) (k : A -> M B) :
  keeps_queue m -> (forall a, keeps_queue (k a)) -> keeps_queue (sbind m k).
Proof.
  intros Hm Hk self. unfold sbind.
  specialize (Hm self).
  destruct (m self) as [[a|e] self']; cbn in *.
  - now rewrite Hk.
  - exact Hm.
Qed.

Lemma keeps_queue_start_preload : keeps_queue _start_preload.
Proof.
  apply keeps_queue_sbind; [apply keeps_queue_get_self|].
  intros self. destruct (providers self), (_preload_task self);
    first [apply keeps_queue_ret | now apply keeps_queue_update].
Qed.

Lemma keeps_queue_init_providers globals : keeps_queue (_init_providers globals).
Proof.
  unfold _init_providers, append_provider.
  repeat first
    [ apply keeps_queue_start_preload
    | apply keeps_queue_ret
    | apply keeps_queue_lift
    | apply keeps_queue_get_self
    | apply keeps_queue_update; reflexivity
    | apply keeps_queue_sbind; [|intros ?]
    | match goal with
      | |- keeps_queue (if ?b then _ else _) => destruct b
      end ].
Qed.

(** The constructor gives the pool an empty buffer of capacity 1,
    whatever the configuration and the names of the module. *)
Lemma init_buffer globals (cfg : AppConfig) :
  proxy_queue (snd (__init__ globals cfg)) = Queue.create 1.
Proof. unfold __init__. now rewrite keeps_queue_init_providers. Qed.

(** C7: from the pool the constructor gives, after any sequence of
    offers by the worker and takes by callers, the buffer has capacity 1
    and holds at most one address; when it holds one, [put_nowait]
    raises [QueueFull] and an offer leaves the buffer as it is. *)
Theorem buffer_holds_at_most_one
    (IPv6Address_ok : string -> bool) (globals : list (string * pyval))
    (cfg : AppConfig) (actions : list action) :
  let self := run IPv6Address_ok actions (snd (__init__ globals cfg)) in
  Queue.maxsize (proxy_queue self) = 1%Z /\
  (Queue.qsize (proxy_queue self) <= 1)%Z /\
  match Queue.items (proxy_queue self) with
  | [] => True
  | _ :: _ =>
      forall (s : string) (wait_time : Q),
        Queue.put_nowait (proxy_queue self) s = Raise (exn_of QueueFull "") /\
        proxy_queue (snd (offer IPv6Address_ok (Some s) wait_time self))
        = proxy_queue self
  end.
Proof.
  intros self.
  assert (Hok : buffer_ok self).
  { apply run_keeps_buffer. split; rewrite init_buffer; cbn; [reflexivity|lia]. }
  destruct Hok as [Hm Hl].
  split; [exact Hm|]. split; [unfold Queue.qsize; lia|].
  destruct (Queue.items (proxy_queue self)) as [|x l] eqn:E; [exact I|].
  intros s wait_time.
  assert (Hfull : Queue.put_nowait (proxy_queue self) s
                  = Raise (exn_of QueueFull "")).
  { unfold Queue.put_nowait, Queue.full, Queue.qsize.
    rewrite Hm, E. change (1 <=? 0)%Z with false. cbn iota.
    destruct (Z.leb_spec 1 (Z.of_nat (length (x :: l))));
      [reflexivity | cbn [length] in *; lia]. }
  split; [exact Hfull|].
  unfold offer. rewrite Hfull.
  destruct (if Str.truthy s then _validate_proxy IPv6Address_ok s
            else Return false) as [[|]|e]; reflexivity.
Qed.

(** ** [get_next_proxy] *)

Section FallbackFacts.

Variable http_get : nat -> string -> result response.
Hypothesis errors_only : fails_with_errors http_get.

(** A provider answers; it does not raise. *)
Lemma get_proxy_returns (p : ProxyProvider) (tr : trace) :
  exists c mid,
    get_proxy http_get p tr = (Return c, tr ++ mid) /\
    contacted mid = [p].
Proof.
  destruct p as [proxy|config].
  - exists (Some proxy), [EvGetProxy (DebugProxyProvider proxy)]. now split.
  - rewrite remote_get_proxy_answer
      by (intros e He; now apply errors_only in He).
    destruct (http_get (gets tr) (get_proxy_link config));
      eexists; eexists; split; reflexivity.
Qed.

(** The fallback of [get_next_proxy]: the first address among the
    answers, after asking the providers up to the one that gave it. *)
Lemma first_proxy_spec (ps : list ProxyProvider) :
  forall (self : ProxyPool) (tr : trace),
  exists mid,
    first_proxy http_get ps self tr
    = (Return (first_address (poll http_get ps tr)),
       match first_address (poll http_get ps tr) with
       | Some a => set_current_proxy (Some a) self
       | None => self
       end,
       tr ++ mid) /\
    contacted mid = firstn (asked (poll http_get ps tr)) ps.
Proof.
  induction ps as [|p ps IH]; intros self tr.
  - exists []. cbn. now rewrite app_nil_r.
  - destruct (get_proxy_returns p tr) as (c & mid & E & Hc).
    cbn [first_proxy poll]. rewrite E.
    destruct c as [a|]; cbn [truthy first_address asked].
    + destruct (Str.truthy a) eqn:Ta.
      * exists mid. split; [reflexivity|]. exact Hc.
      * destruct (IH self (tr ++ mid)) as (mid' & -> & Hc').
        exists (mid ++ mid'). rewrite app_assoc. split; [reflexivity|].
        rewrite contacted_app, Hc, Hc'. reflexivity.
    + destruct (IH self (tr ++ mid)) as (mid' & -> & Hc').
      exists (mid ++ mid'). rewrite app_assoc. split; [reflexivity|].
      rewrite contacted_app, Hc, Hc'. reflexivity.
Qed.

Lemma poll_returns (ps : list ProxyProvider) :
  forall tr, Forall (fun r => returns r = true) (poll http_get ps tr).
Proof.
  induction ps as [|p ps IH]; intros tr; cbn; [constructor|].
  destruct (get_proxy_returns p tr) as (c & mid & -> & _).
  constructor; [reflexivity | apply IH].
Qed.

Lemma first_address_None (answers : list (result (option string))) :
  Forall (fun r => returns r = true) answers ->
  first_address answers = None <-> Forall no_address answers.
Proof.
  induction 1 as [|r answers Hr _ IH]; cbn.
  - split; [constructor | reflexivity].
  - destruct r as [[a|]|e]; [| |discriminate Hr].
    + destruct a as [|ch a]; cbn.
      * rewrite IH. split; [intros; constructor; [now right | assumption]|].
        now inversion 1.
      * split; [discriminate|]. inversion 1 as [|? ? [Hn|Hn]]; discriminate Hn.
    + rewrite IH. split; [intros; constructor; [now left | assumption]|].
      now inversion 1.
Qed.

End FallbackFacts.

(** C6: when the network fails with errors only, [get_next_proxy]
    returns the buffered address, without asking a provider, when the
    buffer holds one; otherwise, between taking and releasing the lock,
    it asks the providers in order up to the first that yields an
    address and returns that address as it is (the validator plays no
    part); it returns [None] exactly when the buffer is empty and no
    provider yields an address. *)
Theorem get_next_proxy_spec
    (http_get : nat -> string -> result response)
    (self : ProxyPool) (tr : trace) :
  fails_with_errors http_get ->
  let answers := poll http_get (providers self) (tr ++ [EvAcquire]) in
  match Queue.items (proxy_queue self) with
  | a :: rest =>
      get_next_proxy http_get self tr
      = (Return (Some a),
         set_current_proxy (Some a)
           (set_proxy_queue
              (Queue.mk (Queue.maxsize (proxy_queue self)) rest) self),
         tr)
  | [] =>
      exists mid,
        get_next_proxy http_get self tr
        = (Return (first_address answers),
           match first_address answers with
           | Some a => set_current_proxy (Some a) self
           | None => self
           end,
           tr ++ [EvAcquire] ++ mid ++ [EvRelease]) /\
        contacted mid = firstn (asked answers) (providers self)
  end /\
  (fst (fst (get_next_proxy http_get self tr)) = Return None <->
   Queue.items (proxy_queue self) = [] /\ Forall no_address answers).
Proof.
  intros Herr answers.
  unfold get_next_proxy, take_buffered, Queue.get_nowait.
  destruct (Queue.items (proxy_queue self)) as [|a rest] eqn:E.
  - cbn.
    destruct (first_proxy_spec http_get Herr (providers self) self
                (tr ++ [EvAcquire]))
      as (mid & -> & Hc).
    fold answers. split.
    + exists mid. rewrite <- !app_assoc. now split.
    + cbn [fst].
      pose proof (first_address_None _
                    (poll_returns http_get Herr (providers self)
                       (tr ++ [EvAcquire])))
        as Hnone.
      fold answers in Hnone. split.
      * intros H. injection H as H. split; [reflexivity|]. now apply Hnone.
      * intros [_ H]. f_equal. now apply Hnone.
  - cbn. split; [reflexivity|].
    split; [discriminate | now intros [H _]].
Qed.

(** ** The provider scan *)

Section ScanFacts.

Variable IPv6Address_ok : string -> bool.
Variable http_get : nat -> string -> result response.

(** Once the next sleep is zero it stays zero to the end of the pass. *)
Lemma scan_keeps_zero (ps : list ProxyProvider) :
  forall (self : ProxyPool) (tr : trace),
    snd (fst (fst (scan IPv6Address_ok http_get ps 0 self tr))) = 0.
Proof.
  induction ps as [|p ps IH]; intros self tr; cbn; [reflexivity|].
  destruct (_stop_event self); [reflexivity|].
  destruct (get_proxy http_get p tr) as [[c|e] tr1]; [|reflexivity].
  destruct (offer IPv6Address_ok c 0 self) as [[f w] self'] eqn:E.
  assert (Hw : w = 0).
  { unfold offer in E.
    repeat match type of E with
           | context [match ?x with _ => _ end] => destruct x
           end; now injection E as _ <- _. }
  subst w. destruct f; [apply IH | reflexivity | reflexivity].
Qed.

End ScanFacts.

Section ScanStep.

Variable IPv6Address_ok : string -> bool.
Variable http_get : nat -> string -> result response.

(** C2 (amended): in a pass, after a provider has answered, a candidate
    the validator accepts is put into a buffer that is not full, the
    next sleep becomes zero (and stays zero) and the scan goes on with
    the remaining providers; it is a buffer found full that ends the
    pass; a candidate that is absent or not accepted adds one to the
    count of invalid addresses and the scan goes on. *)
Theorem scan_goes_on_after_put
    (p : ProxyProvider) (rest : list ProxyProvider) (wait_time : Q)
    (self : ProxyPool) (tr tr1 : trace) (c : option string) :
  _stop_event self = false ->
  get_proxy http_get p tr = (Return c, tr1) ->
  let invalid :=
    set_invalid_proxy_count (invalid_proxy_count self + 1) self in
  scan IPv6Address_ok http_get (p :: rest) wait_time self tr
  = match c with
    | Some s =>
        if accepted IPv6Address_ok s then
          if Queue.full (proxy_queue self) then (Broke, wait_time, self, tr1)
          else
            scan IPv6Address_ok http_get rest 0
              (set_proxy_queue
                 (Queue.mk (Queue.maxsize (proxy_queue self))
                    (Queue.items (proxy_queue self) ++ [s])) self) tr1
        else scan IPv6Address_ok http_get rest wait_time invalid tr1
    | None => scan IPv6Address_ok http_get rest wait_time invalid tr1
    end
  /\ forall self' tr',
       snd (fst (fst (scan IPv6Address_ok http_get rest 0 self' tr'))) = 0.
Proof.
  intros Hstop Hget invalid. split; [|apply scan_keeps_zero].
  cbn [scan]. rewrite Hstop, Hget. unfold offer, accepted.
  destruct c as [s|]; [|reflexivity].
  destruct (validate_total IPv6Address_ok s) as [b Hb]. rewrite Hb.
  destruct (Str.truthy s); [|reflexivity].
  destruct b; [|reflexivity].
  cbn [andb]. unfold Queue.put_nowait.
  destruct (Queue.full (proxy_queue self)); reflexivity.
Qed.

End ScanStep.

(** A pass over two remote providers that both answer with a valid
    address: the first address is buffered, and the second provider is
    contacted all the same (a second GET is sent); the pass ends on the
    full buffer. *)
Example scan_two_remote :
  scan Sample.no_ipv6 Sample.net_up [Sample.p_remote; Sample.p_remote] (1 # 2)
    (Sample.pool_with [Sample.p_remote; Sample.p_remote]) []
  = (Broke, 0,
     set_proxy_queue (Queue.mk 1 ["http://192.0.2.7:3128"])
       (Sample.pool_with [Sample.p_remote; Sample.p_remote]),
     [EvGetProxy Sample.p_remote; EvHttpGet "https://proxy.example/get";
      EvGetProxy Sample.p_remote; EvHttpGet "https://proxy.example/get"]).
Proof. vm_compute. reflexivity. Qed.

(** C2: the statement of the specification fails: after the address of
    the first provider has been put, the second provider is contacted. *)
Lemma put_does_not_short_circuit : ~ put_short_circuits.
Proof.
  intros H.
  destruct (H Sample.no_ipv6 Sample.net_up Sample.p_remote [Sample.p_remote]
              (1 # 2) (Sample.pool_with [Sample.p_remote; Sample.p_remote])
              []
              [EvGetProxy Sample.p_remote;
               EvHttpGet "https://proxy.example/get"]
              "http://192.0.2.7:3128"
              (Queue.mk 1 ["http://192.0.2.7:3128"]))
    as (outcome & self' & E); try (vm_compute; reflexivity).
  vm_compute in E. discriminate E.
Qed.

End ProxyFacts.

(* ================================================================== *)
(** * The retry loop                                                   *)
(* ================================================================== *)

Section ExecutorFacts.

Variable Pool : Type.
Variable get : Pool -> result (option string) * Pool.
Variable raises : option string -> option exn.
Variable send : nat -> option string -> result response.

Import Client Spec.

Lemma requests_app (l l' : list event) :
  requests (l ++ l') = (requests l + requests l')%nat.
Proof. unfold requests. now rewrite filter_app, length_app. Qed.

Lemma pool_calls_app (l l' : list event) :
  pool_calls (l ++ l') = (pool_calls l + pool_calls l')%nat.
Proof. unfold pool_calls. now rewrite filter_app, length_app. Qed.

Lemma last_request_app (l l' : list event) :
  last_request (l ++ l')
  = match last_request l' with
    | Some p => Some p
    | None => last_request l
    end.
Proof.
  induction l as [|x l IH]; simpl.
  - now destruct (last_request l').
  - rewrite IH. now destruct (last_request l').
Qed.

(** The client [_get_http_client] hands out is the one in place
    afterwards; no request is sent to get it. *)
Lemma get_http_client_keeps (self self0 : BaseApiClient Pool) (c : AsyncClient) :
  _get_http_client get raises self = (Return c, self0) ->
  _async_client self0 = Some c /\
  same_settings self self0 /\
  requests (log self0) = requests (log self).
Proof.
  destruct self as [ac cp pp mr codes excs lg].
  unfold _get_http_client, _create_http_client, call_get_next_proxy,
    httpx_AsyncClient.
  cbn [_async_client proxy_pool]. destruct ac as [c0|].
  - intros H. injection H as <- <-. now repeat split.
  - destruct (get pp) as [[a|e] p']; [|discriminate].
    cbv [set_async_client emit set_current_proxy set_proxy_pool
         _async_client current_proxy proxy_pool max_retries
         retry_status_codes retry_exceptions log].
    destruct (raises a) as [e|]; [discriminate|].
    intros H. injection H as <- <-.
    split; [reflexivity|]. split; [now repeat split|].
    cbn [log]. rewrite !requests_app. cbn. lia.
Qed.

(** The handler: two calls of [get_next_proxy]; the client in place is
    closed and the new one is bound to the second answer.  When the
    constructor refuses the second answer, its exception leaves the
    handler, and the closed client stays in place. *)
Lemma on_retry_exception_with (self : BaseApiClient Pool) (c : AsyncClient)
    (a1 a2 : option string) (p1 p2 : Pool) :
  _async_client self = Some c ->
  get (proxy_pool self) = (Return a1, p1) ->
  get p1 = (Return a2, p2) ->
  on_retry_exception get raises self
  = match raises a2 with
    | None =>
        (Return tt,
         mkApi (Some (mkClient a2)) a2 p2 (max_retries self)
           (retry_status_codes self) (retry_exceptions self)
           (log self ++ [EvGetNextProxy a1; EvAclose (proxy c);
                         EvGetNextProxy a2; EvNewClient a2]))
    | Some e' =>
        (Raise e',
         mkApi (Some c) a2 p2 (max_retries self)
           (retry_status_codes self) (retry_exceptions self)
           (log self ++ [EvGetNextProxy a1; EvAclose (proxy c);
                         EvGetNextProxy a2]))
    end.
Proof.
  destruct self as [ac cp pp mr codes excs lg]. cbn.
  intros -> E1 E2.
  unfold on_retry_exception, call_get_next_proxy. cbn. rewrite E1.
  unfold _refresh_client, _create_http_client, call_get_next_proxy,
    httpx_AsyncClient. cbn.
  rewrite E2.
  cbv [set_async_client emit set_current_proxy set_proxy_pool
       _async_client current_proxy proxy_pool max_retries
       retry_status_codes retry_exceptions log].
  destruct (raises a2); repeat rewrite <- app_assoc; reflexivity.
Qed.

(** A turn of the loop whose request raises an exception of the
    retryable set goes on as the handler ends. *)
Lemma failed_turn (fuel : nat) (retries : Z)
    (self self0 : BaseApiClient Pool) (c : AsyncClient) (e : exn) :
  (retries <= max_retries self)%Z ->
  _get_http_client get raises self = (Return c, self0) ->
  send (requests (log self)) (proxy c) = Raise e ->
  caught_by (retry_exceptions self) e = true ->
  retry_loop get raises send (S fuel) retries self
  = match on_retry_exception get raises (emit (EvRequest (proxy c)) self0) with
    | (Raise e', s) => Some (Raise e', s)
    | (Return _, s) =>
        if (max_retries s <? retries + 1)%Z then Some (Raise e, s)
        else retry_loop get raises send fuel (retries + 1) s
    end.
Proof.
  intros Hr Hget Hsend Hcaught.
  pose proof Hget as Hkeeps. apply get_http_client_keeps in Hkeeps.
  destruct Hkeeps as (_ & (_ & _ & Hexcs) & Hreq).
  cbn [retry_loop].
  destruct (Z.leb_spec retries (max_retries self)) as [_|]; [|lia].
  unfold attempt. rewrite Hget, Hreq, Hsend.
  cbn [retry_exceptions emit]. rewrite Hexcs, Hcaught.
  reflexivity.
Qed.

(** One turn of the loop, by the outcome of its request, when the
    constructor takes the address fetched for the new client. *)
Lemma retry_turn_with (fuel : nat) (retries : Z)
    (self self0 : BaseApiClient Pool) (c : AsyncClient)
    (a1 a2 : option string) (p1 p2 : Pool) :
  (retries <= max_retries self)%Z ->
  _get_http_client get raises self = (Return c, self0) ->
  get (proxy_pool self0) = (Return a1, p1) ->
  get p1 = (Return a2, p2) ->
  raises a2 = None ->
  let sent := emit (EvRequest (proxy c)) self0 in
  let refreshed :=
    mkApi (Some (mkClient a2)) a2 p2 (max_retries self)
      (retry_status_codes self) (retry_exceptions self)
      (log sent ++ [EvGetNextProxy a1; EvAclose (proxy c);
                    EvGetNextProxy a2; EvNewClient a2]) in
  retry_loop get raises send (S fuel) retries self
  = match send (requests (log self)) (proxy c) with
    | Return response =>
        if existsb (Z.eqb (status_code response)) (retry_status_codes self)
        then
          let e := mkExn HTTPStatusError "retryable status code"
                     (Some response) in
          if caught_by (retry_exceptions self) e then
            if (max_retries self <? retries + 1)%Z
            then Some (Raise e, refreshed)
            else retry_loop get raises send fuel (retries + 1) refreshed
          else Some (Raise e, sent)
        else Some (Return (Some response), sent)
    | Raise e =>
        if caught_by (retry_exceptions self) e then
          if (max_retries self <? retries + 1)%Z
          then Some (Raise e, refreshed)
          else retry_loop get raises send fuel (retries + 1) refreshed
        else Some (Raise e, sent)
    end.
Proof.
  intros Hr Hget E1 E2 Ha2.
  pose proof Hget as Hkeeps. apply get_http_client_keeps in Hkeeps.
  destruct Hkeeps as (Hc & (Hmax & Hcodes & Hexcs) & Hreq).
  pose proof (on_retry_exception_with (emit (EvRequest (proxy c)) self0)
                c a1 a2 p1 p2 Hc E1 E2) as Hhandler.
  rewrite Ha2 in Hhandler.
  cbn [max_retries retry_status_codes retry_exceptions emit] in Hhandler.
  rewrite Hmax, Hcodes, Hexcs in Hhandler.
  cbn zeta. cbn [retry_loop].
  destruct (Z.leb_spec retries (max_retries self)) as [_|]; [|lia].
  unfold attempt. rewrite Hget, Hreq.
  destruct (send (requests (log self)) (proxy c)) as [resp|e].
  - cbn [retry_status_codes emit]. rewrite Hcodes.
    destruct (existsb (Z.eqb (status_code resp)) (retry_status_codes self));
      [|reflexivity].
    cbn [retry_exceptions emit]. rewrite Hexcs.
    destruct (caught_by (retry_exceptions self) _); [|reflexivity].
    rewrite Hhandler. cbn [max_retries]. reflexivity.
  - cbn [retry_exceptions emit]. rewrite Hexcs.
    destruct (caught_by (retry_exceptions self) e); [|reflexivity].
    rewrite Hhandler. cbn [max_retries]. reflexivity.
Qed.

(** C10: when an attempt fails with an exception of the retryable set
    and the pool answers, the turn calls [get_next_proxy] twice and
    closes the client in place before anything else: the first answer
    is recorded nowhere but in the log of the call.  The second answer
    goes to the constructor of clients.  When the constructor takes
    it, the new client, the one the next attempt sends through, is
    bound to it, and the loop goes on or gives up with the exception of
    the attempt; when the constructor raises, its exception ends the
    call, with the closed client still in place. *)
Theorem retry_fetches_two_addresses (fuel : nat) (retries : Z)
    (self self0 : BaseApiClient Pool) (c : AsyncClient) (e : exn)
    (a1 a2 : option string) (p1 p2 : Pool) :
  (retries <= max_retries self)%Z ->
  _get_http_client get raises self = (Return c, self0) ->
  send (requests (log self)) (proxy c) = Raise e ->
  caught_by (retry_exceptions self) e = true ->
  get (proxy_pool self0) = (Return a1, p1) ->
  get p1 = (Return a2, p2) ->
  let fetched :=
    log self0 ++ [EvRequest (proxy c); EvGetNextProxy a1;
                  EvAclose (proxy c); EvGetNextProxy a2] in
  let refreshed :=
    mkApi (Some (mkClient a2)) a2 p2 (max_retries self)
      (retry_status_codes self) (retry_exceptions self)
      (fetched ++ [EvNewClient a2]) in
  let closed :=
    mkApi (Some c) a2 p2 (max_retries self)
      (retry_status_codes self) (retry_exceptions self) fetched in
  pool_calls fetched = (pool_calls (log self0) + 2)%nat /\
  match raises a2 with
  | None =>
      retry_loop get raises send (S fuel) retries self
      = (if (max_retries self <? retries + 1)%Z
         then Some (Raise e, refreshed)
         else retry_loop get raises send fuel (retries + 1) refreshed) /\
      log (snd (attempt get raises send refreshed))
      = log refreshed ++ [EvRequest a2]
  | Some e' =>
      retry_loop get raises send (S fuel) retries self
      = Some (Raise e', closed)
  end.
Proof.
  intros Hr Hget Hsend Hcaught E1 E2 fetched refreshed closed.
  split.
  { subst fetched. rewrite pool_calls_app. reflexivity. }
  pose proof Hget as Hkeeps. apply get_http_client_keeps in Hkeeps.
  destruct Hkeeps as (Hc & (Hmax & Hcodes & Hexcs) & _).
  pose proof (failed_turn fuel retries self self0 c e Hr Hget Hsend Hcaught)
    as Hturn.
  rewrite (on_retry_exception_with (emit (EvRequest (proxy c)) self0)
             c a1 a2 p1 p2 Hc E1 E2) in Hturn.
  cbn [max_retries retry_status_codes retry_exceptions emit log] in Hturn.
  rewrite Hmax, Hcodes, Hexcs in Hturn.
  subst refreshed closed fetched.
  destruct (raises a2) as [e'|].
  - rewrite Hturn. now rewrite <- app_assoc.
  - split.
    + rewrite Hturn. cbn [max_retries]. now rewrite <- !app_assoc.
    + unfold attempt, _get_http_client. cbn.
      now destruct (send _ a2) as [resp|e']; [destruct (existsb _ _)|].
Qed.

(** The pools that serve: such a pool answers every call, with an
    address (or none) that the constructor of clients takes, and it
    serves afterwards as well. *)
Variable serving : Pool -> Prop.

Hypothesis pool_returns :
  forall p, serving p ->
    exists a p', get p = (Return a, p') /\ raises a = None /\ serving p'.

Lemma get_http_client_returns (self : BaseApiClient Pool) :
  serving (proxy_pool self) ->
  exists c self0,
    _get_http_client get raises self = (Return c, self0) /\
    serving (proxy_pool self0).
Proof.
  destruct self as [ac cp pp mr codes excs lg]. cbn [proxy_pool].
  intros Hs.
  unfold _get_http_client, _create_http_client, call_get_next_proxy,
    httpx_AsyncClient.
  cbn [_async_client proxy_pool].
  destruct ac as [c|]; [now eexists; eexists|].
  destruct (pool_returns pp Hs) as (a & p' & -> & Ha & Hs').
  cbv [set_async_client emit set_current_proxy set_proxy_pool
       _async_client current_proxy proxy_pool max_retries
       retry_status_codes retry_exceptions log].
  rewrite Ha. now eexists; eexists.
Qed.

Hypothesis always_fails : forall k proxy, retryable_failure (send k proxy).

Lemma status_in_retry_set (z : Z) :
  In z retry_statuses ->
  existsb (Z.eqb z) [429; 500; 502; 503; 504]%Z = true.
Proof.
  intros H. apply existsb_exists. exists z. split; [exact H|].
  apply Z.eqb_refl.
Qed.

(** When every attempt ends in a retryable failure, the call ends in an
    error after at most [max_retries - retries + 1] more requests, and
    the error is that of the last request sent. *)
Lemma retry_loop_gives_up (n : nat) :
  forall (fuel : nat) (retries : Z) (self : BaseApiClient Pool),
    configured self ->
    serving (proxy_pool self) ->
    (0 <= retries <= max_retries self)%Z ->
    Z.to_nat (max_retries self - retries) = n ->
    (n < fuel)%nat ->
    exists e self',
      retry_loop get raises send fuel retries self = Some (Raise e, self') /\
      (requests (log self) < requests (log self')
       <= requests (log self) + n + 1)%nat /\
      exists proxy,
        last_request (log self') = Some proxy /\
        error_of (send (requests (log self') - 1) proxy) e.
Proof.
  induction n as [|n IH]; intros fuel retries self Hconf Hserv Hr Hn Hfuel.
  all: destruct fuel as [|fuel]; [lia|].
  all: destruct (get_http_client_returns self Hserv)
         as (c & self0 & Hget & Hserv0).
  all: destruct (pool_returns (proxy_pool self0) Hserv0)
         as (a1 & p1 & E1 & _ & Hserv1).
  all: destruct (pool_returns p1 Hserv1) as (a2 & p2 & E2 & Ha2 & Hserv2).
  all: rewrite (retry_turn_with fuel retries self self0 c a1 a2 p1 p2
                 (proj2 Hr) Hget E1 E2 Ha2); cbn zeta.
  all: apply get_http_client_keeps in Hget;
       destruct Hget as (_ & _ & Hreq).
  all: pose proof (always_fails (requests (log self)) (proxy c)) as Hfail.
  all: destruct Hconf as [Hcodes Hexcs].
  all: destruct (send (requests (log self)) (proxy c)) as [resp|e] eqn:Esend.
  all: cbn [retryable_failure] in Hfail.
  (* a status of the retry set ends the call *)
  1,3: rewrite Hcodes, (status_in_retry_set _ Hfail), Hexcs;
       cbn [caught_by exc_class existsb];
       change (issubclass HTTPStatusError RequestError) with false;
       change (issubclass HTTPStatusError ProxyError) with false;
       change (issubclass HTTPStatusError ConnectTimeout) with false;
       change (issubclass HTTPStatusError ConnectionResetError) with false;
       cbn [orb];
       eexists; eexists; split; [reflexivity|]; cbn [log emit];
       rewrite requests_app, last_request_app; cbn;
       split; [lia|]; exists (proxy c); split; [reflexivity|];
       replace (requests (log self0) + 1 - 1)%nat with (requests (log self))
         by lia;
       rewrite Esend; cbn; auto.
  (* an exception of the retryable set *)
  all: rewrite Hexcs, Hfail.
  - (* no retry left *)
    destruct (Z.ltb_spec (max_retries self) (retries + 1)) as [_|]; [|lia].
    eexists; eexists; split; [reflexivity|]; cbn [log emit].
    rewrite !requests_app, !last_request_app; cbn.
    split; [lia|]. exists (proxy c). split; [reflexivity|].
    replace (requests (log self0) + 1 + 0 - 1)%nat with (requests (log self))
      by lia.
    now rewrite Esend.
  - destruct (Z.ltb_spec (max_retries self) (retries + 1)) as [|_]; [lia|].
    match goal with
    | |- context [retry_loop get raises send fuel (retries + 1)%Z ?s] =>
        destruct (IH fuel (retries + 1)%Z s)
          as (e' & self' & -> & Hcount & Hlast)
    end.
    + split; cbn; first [assumption | reflexivity].
    + exact Hserv2.
    + cbn. lia.
    + cbn. lia.
    + lia.
    + exists e', self'. split; [reflexivity|]. split; [|exact Hlast].
      cbn [log emit] in Hcount.
      rewrite !requests_app in Hcount. cbn in Hcount. lia.
Qed.

(** C4: when every attempt ends in a retryable failure, on a pool that
    serves (it answers every call, with an address the constructor of
    clients takes), [_request_with_retry] raises after at least one and
    at most [max_retries + 1] requests, and the exception it raises is
    the error of the last request sent. *)
Theorem request_with_retry_gives_up (self : BaseApiClient Pool) :
  configured self ->
  serving (proxy_pool self) ->
  (0 <= max_retries self)%Z ->
  exists e self',
    _request_with_retry get raises send self = Some (Raise e, self') /\
    (1 <= Z.of_nat (requests (log self') - requests (log self))
       <= max_retries self + 1)%Z /\
    exists proxy,
      last_request (log self') = Some proxy /\
      error_of (send (requests (log self') - 1) proxy) e.
Proof.
  intros Hconf Hserv Hmax. unfold _request_with_retry.
  destruct (retry_loop_gives_up (Z.to_nat (max_retries self))
              (Z.to_nat (max_retries self + 1) + 1) 0%Z self Hconf Hserv)
    as (e & self' & Hrun & Hcount & Hlast);
    [lia | f_equal; lia | lia |].
  exists e, self'. split; [exact Hrun|]. split; [lia | exact Hlast].
Qed.

End ExecutorFacts.

(* ================================================================== *)
(** * The executor on the pool of [proxy.py]                           *)
(* ================================================================== *)

(** The pool answers every call when the network fails with errors
    only. *)
Lemma pool_get_next_proxy_returns
    (http_get : nat -> string -> result response) :
  Spec.fails_with_errors http_get ->
  forall p : System.pool_state,
  exists a p', System.pool_get_next_proxy http_get p = (Return a, p').
Proof.
  intros Herr [self tr].
  unfold System.pool_get_next_proxy, Proxy.get_next_proxy,
    Proxy.take_buffered, Queue.get_nowait.
  cbn [fst snd].
  destruct (Queue.items (Proxy.proxy_queue self)) as [|a rest].
  - cbn.
    destruct (first_proxy_spec http_get Herr (Proxy.providers self) self
                (tr ++ [Proxy.EvAcquire])) as (mid & -> & _).
    eexists. eexists. reflexivity.
  - eexists. eexists. reflexivity.
Qed.

(** The pool of the samples serves: its two addresses are such as the
    constructor of the samples takes. *)
Lemma ready_serves (p : System.pool_state) :
  Sample.ready p ->
  exists a p',
    System.pool_get_next_proxy Sample.net_up p = (Return a, p') /\
    Sample.by_scheme a = None /\
    Sample.ready p'.
Proof.
  destruct p as [[cfg ps [m items] stop cool full_cool bad task cur] tr].
  intros [Hp Hq]. cbn in Hp, Hq. subst ps.
  unfold System.pool_get_next_proxy, Proxy.get_next_proxy,
    Proxy.take_buffered, Queue.get_nowait.
  destruct Hq as [-> | ->]; cbn; eexists; eexists;
    (split; [reflexivity|]); (split; [reflexivity|]);
    (split; [reflexivity | left; reflexivity]).
Qed.

Lemma net_up_fails_with_errors : Spec.fails_with_errors Sample.net_up.
Proof. intros k url e H. discriminate H. Qed.

Lemma net_down_fails_with_errors : Spec.fails_with_errors Sample.net_down.
Proof. intros k url e H. injection H as <-. reflexivity. Qed.

(** A response with a status of the retry set makes the call raise at
    once, whatever [max_retries] is: [HTTPStatusError] derives from
    [HTTPError], not from [RequestError], and no class of
    [retry_exceptions] is above it. *)
Lemma HTTPStatusError_not_caught (msg : string) (r : option response) :
  caught_by [RequestError; ProxyError; ConnectTimeout; ConnectionResetError]
    (mkExn HTTPStatusError msg r) = false.
Proof. reflexivity. Qed.

Section StatusFacts.

Variable Pool : Type.
Variable get : Pool -> result (option string) * Pool.
Variable raises : option string -> option exn.
Variable send : nat -> option string -> result response.

Import Client.

(** One turn of the loop whose request is answered: the response is
    returned when its status is outside the retry set, and otherwise
    [HTTPStatusError] leaves the call; in neither case is there a second
    request. *)
Lemma answered_turn (fuel : nat) (retries : Z)
    (self self0 : BaseApiClient Pool) (c : AsyncClient) (resp : response) :
  configured self ->
  (retries <= max_retries self)%Z ->
  _get_http_client get raises self = (Return c, self0) ->
  send (requests (log self)) (proxy c) = Return resp ->
  retry_loop get raises send (S fuel) retries self
  = Some (if existsb (Z.eqb (status_code resp)) Spec.retry_statuses
          then Raise (mkExn HTTPStatusError "retryable status code"
                        (Some resp))
          else Return (Some resp),
          emit (EvRequest (proxy c)) self0).
Proof.
  intros [Hcodes Hexcs] Hr Hget Hsend.
  pose proof Hget as Hkeeps.
  apply get_http_client_keeps in Hkeeps.
  destruct Hkeeps as (_ & (_ & Hcodes0 & Hexcs0) & Hreq).
  cbn [retry_loop].
  destruct (Z.leb_spec retries (max_retries self)) as [_|]; [|lia].
  unfold attempt. rewrite Hget, Hreq, Hsend.
  cbn [retry_status_codes emit]. rewrite Hcodes0, Hcodes.
  change [429; 500; 502; 503; 504]%Z with Spec.retry_statuses.
  destruct (existsb (Z.eqb (status_code resp)) Spec.retry_statuses);
    [|reflexivity].
  cbn [retry_exceptions emit]. rewrite Hexcs0, Hexcs.
  now rewrite HTTPStatusError_not_caught.
Qed.

End StatusFacts.

(** C1: a server that answers every request with status 500 gets one
    request, not [max_retries + 1]: with [max_retries = 3] the call
    raises [HTTPStatusError] after the first response, without a retry;
    a response with status 200 is returned after one request. *)
Theorem status_500_is_not_retried :
  let failed :=
    Sample.client Sample.net_up (Sample.always 500) Sample.cfg_off
      Sample.pool_off in
  let served :=
    Sample.client Sample.net_up (Sample.always 200) Sample.cfg_off
      Sample.pool_off in
  option_map fst failed
  = Some (Raise (mkExn HTTPStatusError "retryable status code"
                   (Some (mkResponse 500 "")))) /\
  option_map (fun r => Client.requests (Client.log (snd r))) failed
  = Some 1%nat /\
  option_map fst served = Some (Return (Some (mkResponse 200 ""))) /\
  option_map (fun r => Client.requests (Client.log (snd r))) served
  = Some 1%nat.
Proof. vm_compute. repeat split. Qed.

(* ================================================================== *)
(** * The theorems at sample inputs                                    *)
(* ================================================================== *)

Lemma init_enabled_raises_NameError_witness :
  Proxy.enable (Proxy.proxy_config Sample.cfg_on) = true /\
  exists self,
    Proxy.new Sample.cfg_on = (Raise (exn_of NameError "debug"), self) /\
    Proxy.providers self = [] /\
    Proxy._preload_task self = None.
Proof.
  split; [reflexivity|].
  apply (init_enabled_raises_NameError Sample.cfg_on). reflexivity.
Defined.

Lemma remote_get_proxy_spec_witness :
  Proxy.get_proxy Sample.net_down Sample.p_remote []
  = (Return None,
     [Proxy.EvGetProxy Sample.p_remote;
      Proxy.EvHttpGet "https://proxy.example/get"]).
Proof.
  destruct (remote_get_proxy_spec Sample.net_down Sample.platform [])
    as (H & Htr & _).
  - intros e He. injection He as <-. reflexivity.
  - unfold Sample.p_remote. rewrite H, Htr. reflexivity.
Defined.

(** The remote provider when the GET succeeds: the body is stripped. *)
Example remote_get_proxy_up :
  Proxy.get_proxy Sample.net_up Sample.p_remote []
  = (Return (Some "http://192.0.2.7:3128"),
     [Proxy.EvGetProxy Sample.p_remote;
      Proxy.EvHttpGet "https://proxy.example/get"]).
Proof. vm_compute. reflexivity. Qed.

Lemma get_next_proxy_spec_witness :
  let pool :=
    Sample.pool_with
      [Proxy.DebugProxyProvider ""; Sample.p_bad; Sample.p_remote] in
  Spec.fails_with_errors Sample.net_up /\
  Proxy._validate_proxy Sample.no_ipv6 "not an address" = Return false /\
  exists mid,
    Proxy.get_next_proxy Sample.net_up pool []
    = (Return (Some "not an address"),
       Proxy.set_current_proxy (Some "not an address") pool,
       [Proxy.EvAcquire] ++ mid ++ [Proxy.EvRelease]) /\
    Proxy.contacted mid = [Proxy.DebugProxyProvider ""; Sample.p_bad].
Proof.
  intros pool.
  split; [exact net_up_fails_with_errors|].
  split; [vm_compute; reflexivity|].
  exact (proj1 (get_next_proxy_spec Sample.net_up pool []
                  net_up_fails_with_errors)).
Defined.

Lemma scan_goes_on_after_put_witness :
  let pool := Sample.pool_with [Sample.p_good; Sample.p_bad] in
  Proxy._stop_event pool = false /\
  Proxy.get_proxy Sample.net_up Sample.p_good []
  = (Return (Some Sample.good), [Proxy.EvGetProxy Sample.p_good]) /\
  Proxy.scan Sample.no_ipv6 Sample.net_up [Sample.p_good; Sample.p_bad]
    (1 # 2) pool []
  = Proxy.scan Sample.no_ipv6 Sample.net_up [Sample.p_bad] 0
      (Proxy.set_proxy_queue (Queue.mk 1 [Sample.good]) pool)
      [Proxy.EvGetProxy Sample.p_good].
Proof.
  intros pool.
  split; [reflexivity|]. split; [reflexivity|].
  exact (proj1 (scan_goes_on_after_put Sample.no_ipv6 Sample.net_up
                  Sample.p_good [Sample.p_bad] (1 # 2) pool []
                  [Proxy.EvGetProxy Sample.p_good] (Some Sample.good)
                  eq_refl eq_refl)).
Defined.

Lemma request_with_retry_gives_up_witness :
  exists e self',
    Sample.client Sample.net_up Sample.unreachable Sample.cfg_two_retries
      Sample.pool_ready
    = Some (Raise e, self') /\
    (1 <= Z.of_nat (Client.requests (Client.log self') - 0) <= 2 + 1)%Z /\
    exists proxy,
      Spec.last_request (Client.log self') = Some proxy /\
      Spec.error_of
        (Sample.unreachable (Client.requests (Client.log self') - 1) proxy) e.
Proof.
  apply (request_with_retry_gives_up System.pool_state
           (System.pool_get_next_proxy Sample.net_up) Sample.by_scheme
           Sample.unreachable Sample.ready ready_serves
           (fun _ _ => eq_refl)
           (Client.__init__ Sample.cfg_two_retries (Sample.pool_ready, []))).
  - split; reflexivity.
  - split; [reflexivity | right; reflexivity].
  - discriminate.
Defined.

(** A client in place, an address in the buffer and a provider with
    another: on the failure, the buffered address is fetched and
    dropped, and the new client is bound to the address of the
    provider.  With a provider whose text is no URL, the constructor
    raises on the second answer and the call ends. *)
Lemma retry_fetches_two_addresses_witness :
  let get := System.pool_get_next_proxy Sample.net_up in
  let raises := Sample.by_scheme in
  let send := Sample.unreachable in
  let c := Client.mkClient None in
  let self :=
    Client.set_async_client (Some c)
      (Client.__init__ Sample.cfg_off (Sample.pool_ready, [])) in
  let p1 := snd (get (Sample.pool_ready, [])) in
  let p2 := snd (get p1) in
  let a1 := Some Sample.good in
  let a2 := Some Sample.other in
  let fetched :=
    Client.log self ++
    [Client.EvRequest (Client.proxy c); Client.EvGetNextProxy a1;
     Client.EvAclose (Client.proxy c); Client.EvGetNextProxy a2] in
  let refreshed :=
    Client.mkApi (Some (Client.mkClient a2)) a2 p2 (Client.max_retries self)
      (Client.retry_status_codes self) (Client.retry_exceptions self)
      (fetched ++ [Client.EvNewClient a2]) in
  let unready :=
    Proxy.set_proxy_queue (Queue.mk 1 [Sample.good])
      (Sample.pool_with [Sample.p_bad]) in
  let self' :=
    Client.set_async_client (Some c)
      (Client.__init__ Sample.cfg_off (unready, [])) in
  let q1 := snd (get (unready, [])) in
  let q2 := snd (get q1) in
  let b2 := Some "not an address" in
  let fetched' :=
    Client.log self' ++
    [Client.EvRequest (Client.proxy c); Client.EvGetNextProxy a1;
     Client.EvAclose (Client.proxy c); Client.EvGetNextProxy b2] in
  let closed :=
    Client.mkApi (Some c) b2 q2 (Client.max_retries self')
      (Client.retry_status_codes self') (Client.retry_exceptions self')
      fetched' in
  ((get (Sample.pool_ready, []) = (Return a1, p1) /\
    get p1 = (Return a2, p2)) /\
   Client.pool_calls fetched
   = (Client.pool_calls (Client.log self) + 2)%nat /\
   Client.retry_loop get raises send 4 0 self
   = (if (Client.max_retries self <? 0 + 1)%Z
      then Some (Raise (exn_of ConnectTimeout "timed out"), refreshed)
      else Client.retry_loop get raises send 3 (0 + 1) refreshed) /\
   Client.log (snd (Client.attempt get raises send refreshed))
   = Client.log refreshed ++ [Client.EvRequest a2]) /\
  ((get (unready, []) = (Return a1, q1) /\ get q1 = (Return b2, q2)) /\
   Client.pool_calls fetched'
   = (Client.pool_calls (Client.log self') + 2)%nat /\
   Client.retry_loop get raises send 4 0 self'
   = Some (Raise (exn_of ValueError "Unknown scheme for proxy URL"), closed)).
Proof.
  intros get raises send c self p1 p2 a1 a2 fetched refreshed
    unready self' q1 q2 b2 fetched' closed.
  assert (E1 : get (Sample.pool_ready, []) = (Return a1, p1))
    by (vm_compute; reflexivity).
  assert (E2 : get p1 = (Return a2, p2)) by (vm_compute; reflexivity).
  assert (F1 : get (unready, []) = (Return a1, q1))
    by (vm_compute; reflexivity).
  assert (F2 : get q1 = (Return b2, q2)) by (vm_compute; reflexivity).
  split; (split; [now split|]).
  - exact (retry_fetches_two_addresses System.pool_state get raises send 3 0
             self self c (exn_of ConnectTimeout "timed out") a1 a2 p1 p2
             (proj1 (Z.leb_le 0 3) eq_refl) eq_refl eq_refl eq_refl E1 E2).
  - exact (retry_fetches_two_addresses System.pool_state get raises send 3 0
             self' self' c (exn_of ConnectTimeout "timed out") a1 b2 q1 q2
             (proj1 (Z.leb_le 0 3) eq_refl) eq_refl eq_refl eq_refl F1 F2).
Defined.

(* ================================================================== *)
(** * Decimal numbers and plain strings                                *)
(* ================================================================== *)

Section FormatFacts.

Import Notions.

Lemma forall_chars_impl (p q : ascii -> bool) (s : string) :
  (forall c, p c = true -> q c = true) ->
  Str.forall_chars p s = true -> Str.forall_chars q s = true.
Proof.
  intros Hpq. induction s as [|c s IH]; cbn; [reflexivity|].
  intros H. apply andb_prop in H as [Hc Hs].
  now rewrite (Hpq c Hc), (IH Hs).
Qed.

Lemma forall_chars_app (p : ascii -> bool) (s t : string) :
  Str.forall_chars p (s ++ t)
  = Str.forall_chars p s && Str.forall_chars p t.
Proof.
  induction s as [|c s IH]; cbn; [reflexivity|].
  now rewrite IH, andb_assoc.
Qed.

(** A character outside the class does not occur in a string of the
    class. *)
Lemma contains_outside (p : ascii -> bool) (c : ascii) (s : string) :
  p c = false -> Str.forall_chars p s = true -> Str.contains c s = false.
Proof.
  intros Hc. induction s as [|d s IH]; cbn; [reflexivity|].
  intros H. apply andb_prop in H as [Hd Hs].
  rewrite (IH Hs), orb_false_r.
  destruct (Ascii.eqb c d) eqn:E; [|reflexivity].
  apply Ascii.eqb_eq in E. subst d. congruence.
Qed.

Lemma uint_digits (d : Decimal.uint) :
  Str.forall_chars (Str.between 48 57) (NilEmpty.string_of_uint d) = true.
Proof. induction d; cbn; auto. Qed.

(** [str(n)] is made of decimal digits, at least one. *)
Lemma of_nat_digits (n : nat) :
  Str.forall_chars (Str.between 48 57) (Str.of_nat n) = true.
Proof.
  unfold Str.of_nat, NilZero.string_of_uint.
  destruct (Nat.to_uint n); try reflexivity;
    match goal with
    | |- context [NilEmpty.string_of_uint ?d] => exact (uint_digits d)
    end.
Qed.

Lemma of_nat_truthy (n : nat) : Str.truthy (Str.of_nat n) = true.
Proof.
  unfold Str.of_nat, NilZero.string_of_uint.
  destruct (Nat.to_uint n); reflexivity.
Qed.

Lemma int_acc_uint (d : Decimal.uint) :
  forall acc : nat,
    Str.int_acc (Z.of_nat acc) (NilEmpty.string_of_uint d)
    = Z.of_nat (Nat.of_uint_acc d acc).
Proof.
  induction d; intros acc;
    cbn [NilEmpty.string_of_uint Str.int_acc Nat.of_uint_acc];
    [reflexivity|..];
    rewrite <- IHd; f_equal; rewrite Nat.tail_mul_spec;
    match goal with
    | |- context [Str.code ?c] =>
        let v := eval vm_compute in (Z.of_nat (Str.code c - 48)) in
        change (Z.of_nat (Str.code c - 48)) with v
    end; lia.
Qed.

(** [int(str(n)) = n] *)
Lemma int_of_nat (n : nat) : Str.int (Str.of_nat n) = Z.of_nat n.
Proof.
  pose proof (Unsigned.of_to n) as H.
  unfold Str.of_nat, NilZero.string_of_uint, Str.int.
  unfold Nat.of_uint in H.
  destruct (Nat.to_uint n) as [|d|d|d|d|d|d|d|d|d|d] eqn:E;
    [cbn in H; now subst n|..];
    change 0%Z with (Z.of_nat 0); rewrite int_acc_uint; now rewrite H.
Qed.

Lemma digit_facts (c : ascii) :
  Str.between 48 57 c = true ->
  plain c = true /\ Str.char_isdigit c = true /\ Str.char_isascii c = true
  /\ Ascii.eqb c "." = false /\ Ascii.eqb c ":" = false.
Proof.
  destruct c as [[] [] [] [] [] [] [] []]; vm_compute;
    intros H; try discriminate H; repeat split.
Qed.

(** What a plain character is not, and how [lower] leaves it. *)
Lemma plain_facts (c : ascii) :
  plain c = true ->
  Str.char_isspace c = false /\ Urllib.is_delim c = false
  /\ Str.char_lower c = c
  /\ Str.contains c "[]@%#?;/" = false
  /\ Str.contains c Urllib._WHATWG_C0_CONTROL_OR_SPACE = false.
Proof.
  destruct c as [[] [] [] [] [] [] [] []]; vm_compute;
    intros H; try discriminate H; repeat split.
Qed.

End FormatFacts.

(* ================================================================== *)
(** * Addresses of the form [scheme://a.b.c.d:port]                    *)
(* ================================================================== *)

Section StrCuts.

Variable c : ascii.

Lemma remove_char_nop (s : string) :
  Str.contains c s = false -> Str.remove_char c s = s.
Proof.
  induction s as [|d s IH]; cbn; [reflexivity|].
  intros H. apply orb_false_elim in H as [Hd Hs].
  now rewrite Hd, (IH Hs).
Qed.

Lemma partition_without (s : string) :
  Str.contains c s = false ->
  Str.partition c s = (s, EmptyString, EmptyString).
Proof.
  induction s as [|d s IH]; cbn; [reflexivity|].
  intros H. apply orb_false_elim in H as [Hd Hs].
  now rewrite Hd, (IH Hs).
Qed.

Lemma partition_at (s rest : string) :
  Str.contains c s = false ->
  Str.partition c (s ++ String c rest) = (s, String c EmptyString, rest).
Proof.
  induction s as [|d s IH]; cbn.
  - now rewrite Ascii.eqb_refl.
  - intros H. apply orb_false_elim in H as [Hd Hs].
    now rewrite Hd, (IH Hs).
Qed.

Lemma rpartition_without (s : string) :
  Str.contains c s = false ->
  Str.rpartition c s = (EmptyString, EmptyString, s).
Proof.
  induction s as [|d s IH]; cbn; [reflexivity|].
  intros H. apply orb_false_elim in H as [Hd Hs].
  now rewrite Hd, (IH Hs).
Qed.

End StrCuts.

Lemma span_all (p : ascii -> bool) (s : string) :
  Str.forall_chars p s = true -> Str.span p s = (s, EmptyString).
Proof.
  induction s as [|d s IH]; cbn; [reflexivity|].
  intros H. apply andb_prop in H as [Hd Hs].
  now rewrite Hd, (IH Hs).
Qed.

Lemma lower_plain (s : string) :
  Str.forall_chars Notions.plain s = true -> Str.lower s = s.
Proof.
  induction s as [|d s IH]; cbn; [reflexivity|].
  intros H. apply andb_prop in H as [Hd Hs].
  apply plain_facts in Hd. destruct Hd as (_ & _ & -> & _).
  now rewrite (IH Hs).
Qed.

(** Evaluation of the closed tests on characters and of the numbers a
    parser of a string with a known head runs into. *)
Ltac eval_closed :=
  repeat match goal with
         | |- context [Pos.to_nat ?p] =>
             let v := eval vm_compute in (Pos.to_nat p) in
             change (Pos.to_nat p) with v
         | |- context [Str.contains ?a ?b] =>
             let v := eval vm_compute in (Str.contains a b) in
             match v with
             | true => change (Str.contains a b) with true
             | false => change (Str.contains a b) with false
             end
         | |- context [Str.char_isalpha ?a] =>
             let v := eval vm_compute in (Str.char_isalpha a) in
             match v with
             | true => change (Str.char_isalpha a) with true
             | false => change (Str.char_isalpha a) with false
             end
         | |- context [Str.char_lower (Ascii ?a ?b ?c ?d ?e ?f ?g ?h)] =>
             let v := eval vm_compute in
                        (Str.char_lower (Ascii a b c d e f g h)) in
             change (Str.char_lower (Ascii a b c d e f g h)) with v
         end.

Ltac parse_head :=
  repeat (progress (cbn -[Str.span Str.contains Str.partition]; eval_closed)).

Section PlainUrls.

Variable IPv6Address_ok : string -> bool.

Lemma plain_without (ch : ascii) (s : string) :
  Notions.plain ch = false ->
  Str.forall_chars Notions.plain s = true -> Str.contains ch s = false.
Proof. apply contains_outside. Qed.

Lemma clean_plain (prefix rest : string) :
  Str.forall_chars Notions.plain rest = true ->
  Str.forall_chars
    (fun ch => negb (Str.contains ch Urllib._WHATWG_C0_CONTROL_OR_SPACE))
    prefix = true ->
  Str.truthy prefix = true ->
  fold_left (fun u b => Str.remove_char b u) Urllib._UNSAFE_URL_BYTES_TO_REMOVE
    (Str.lstrip_chars Urllib._WHATWG_C0_CONTROL_OR_SPACE (prefix ++ rest))
  = (prefix ++ rest)%string.
Proof.
  intros Hrest Hprefix Htruthy.
  assert (Hall : Str.forall_chars
            (fun ch => negb (Str.contains ch Urllib._WHATWG_C0_CONTROL_OR_SPACE))
            (prefix ++ rest) = true).
  { rewrite forall_chars_app, Hprefix. cbn [andb].
    revert Hrest. apply forall_chars_impl.
    intros ch Hch. apply plain_facts in Hch.
    destruct Hch as (_ & _ & _ & _ & ->). reflexivity. }
  assert (Hstrip : Str.lstrip_chars Urllib._WHATWG_C0_CONTROL_OR_SPACE
                     (prefix ++ rest) = (prefix ++ rest)%string).
  { destruct prefix as [|ch prefix]; [discriminate Htruthy|].
    cbn [String.append Str.lstrip_chars].
    cbn [Str.forall_chars] in Hprefix.
    apply andb_prop in Hprefix as [Hch _].
    apply negb_true_iff in Hch. now rewrite Hch. }
  rewrite Hstrip.
  unfold Urllib._UNSAFE_URL_BYTES_TO_REMOVE. cbn [fold_left].
  assert (Hno : forall ch,
            Str.contains ch Urllib._WHATWG_C0_CONTROL_OR_SPACE = true ->
            Str.contains ch (prefix ++ rest) = false).
  { intros ch Hch.
    apply (contains_outside
             (fun ch => negb (Str.contains ch Urllib._WHATWG_C0_CONTROL_OR_SPACE)));
      [now rewrite Hch | exact Hall]. }
  rewrite (remove_char_nop (ascii_of_nat 9)) by (apply Hno; reflexivity).
  rewrite (remove_char_nop (ascii_of_nat 13)) by (apply Hno; reflexivity).
  rewrite (remove_char_nop (ascii_of_nat 10)) by (apply Hno; reflexivity).
  reflexivity.
Qed.

Lemma splitnetloc_plain (rest : string) :
  Str.forall_chars Notions.plain rest = true ->
  Urllib._splitnetloc (String "/" (String "/" rest)) = (rest, EmptyString).
Proof.
  intros H. unfold Urllib._splitnetloc. cbn [Str.drop].
  apply span_all. revert H. apply forall_chars_impl.
  intros ch Hch. apply plain_facts in Hch.
  destruct Hch as (_ & -> & _). reflexivity.
Qed.

(** The parts of [scheme://rest] when [rest] has digits, dots and colons
    only. *)
Lemma urlparse_plain (scheme rest : string) :
  scheme = "http" \/ scheme = "https" ->
  Str.forall_chars Notions.plain rest = true ->
  Urllib.urlparse IPv6Address_ok (scheme ++ "://" ++ rest)
  = Return (Urllib.mkParseResult scheme rest "" "" "" "").
Proof.
  intros Hs H.
  assert (Ho : Str.contains "[" rest = false) by (now apply plain_without).
  assert (Hc : Str.contains "]" rest = false) by (now apply plain_without).
  unfold Urllib.urlparse, Urllib.urlsplit.
  destruct Hs as [-> | ->].
  - change ("http" ++ "://" ++ rest)%string with ("http://" ++ rest)%string.
    rewrite (clean_plain "http://" rest H eq_refl eq_refl).
    cbn [String.append]. parse_head.
    rewrite (splitnetloc_plain rest H), Ho, Hc. reflexivity.
  - change ("https" ++ "://" ++ rest)%string with ("https://" ++ rest)%string.
    rewrite (clean_plain "https://" rest H eq_refl eq_refl).
    cbn [String.append]. parse_head.
    rewrite (splitnetloc_plain rest H), Ho, Hc. reflexivity.
Qed.

End PlainUrls.

Lemma append_empty (s : string) : (s ++ "")%string = s.
Proof. induction s as [|c s IH]; cbn; [reflexivity | now rewrite IH]. Qed.

Section HostPort.

Import Notions.

(** Host and port of a netloc [h:p] without brackets and user
    information. *)
Lemma hostinfo_plain (scheme h p path params query fragment : string) :
  Str.forall_chars plain h = true ->
  Str.contains ":" h = false ->
  Str.forall_chars plain p = true ->
  Urllib._hostinfo
    (Urllib.mkParseResult scheme (h ++ ":" ++ p) path params query fragment)
  = (h, if Str.truthy p then Some p else None).
Proof.
  intros Hh Hcolon Hp.
  assert (Hall : Str.forall_chars plain (h ++ ":" ++ p) = true).
  { rewrite forall_chars_app, Hh. cbn. exact Hp. }
  unfold Urllib._hostinfo. cbn [Urllib.netloc].
  rewrite rpartition_without by (now apply (contains_outside plain)).
  rewrite (partition_without "[") by (now apply (contains_outside plain)).
  cbn [Str.truthy].
  change (h ++ ":" ++ p)%string with (h ++ String ":" p)%string.
  now rewrite partition_at.
Qed.

Lemma quad_plain (a b c d : nat) :
  Str.forall_chars plain (quad a b c d) = true
  /\ Str.contains ":" (quad a b c d) = false
  /\ Str.truthy (quad a b c d) = true.
Proof.
  assert (Hdigits : forall n, Str.forall_chars plain (Str.of_nat n) = true).
  { intros n. generalize (of_nat_digits n). apply forall_chars_impl.
    intros ch Hch. now apply digit_facts in Hch. }
  assert (Hnocolon : forall n, Str.contains ":" (Str.of_nat n) = false).
  { intros n. apply (contains_outside (Str.between 48 57));
      [reflexivity | apply of_nat_digits]. }
  unfold quad. repeat split.
  - rewrite !forall_chars_app, !Hdigits. reflexivity.
  - rewrite !contains_app, !Hnocolon. reflexivity.
  - generalize (of_nat_truthy a). now destruct (Str.of_nat a).
Qed.

Lemma quad_dotted (a b c d : nat) :
  (a <= 255)%nat -> (b <= 255)%nat -> (c <= 255)%nat -> (d <= 255)%nat ->
  Spec.dotted_quad (quad a b c d).
Proof. intros. exists a, b, c, d. now repeat split. Qed.

(** The address [scheme://a.b.c.d:port] has the parts it shows. *)
Lemma address_parts (IPv6Address_ok : string -> bool) (scheme : string)
    (a b c d port : nat) :
  scheme = "http" \/ scheme = "https" ->
  exists r,
    Urllib.urlparse IPv6Address_ok (scheme ++ "://" ++ host_port a b c d port)
    = Return r
    /\ Urllib.scheme r = scheme
    /\ Urllib.hostname r = Some (quad a b c d)
    /\ Urllib.port r
       = if (Z.of_nat port <=? 65535)%Z then Return (Some (Z.of_nat port))
         else Raise (exn_of ValueError "Port out of range 0-65535").
Proof.
  intros Hs.
  destruct (quad_plain a b c d) as (Hq & Hcolon & Htruthy).
  assert (Hp : Str.forall_chars plain (Str.of_nat port) = true).
  { generalize (of_nat_digits port). apply forall_chars_impl.
    intros ch Hch. now apply digit_facts in Hch. }
  eexists. split.
  - apply urlparse_plain; [exact Hs|].
    unfold host_port. rewrite forall_chars_app, Hq. cbn. exact Hp.
  - split; [reflexivity|].
    unfold Urllib.hostname, Urllib.port, host_port.
    rewrite hostinfo_plain by assumption.
    cbn [fst snd]. rewrite Htruthy, of_nat_truthy. cbn [negb].
    split.
    + rewrite (partition_without "%")
        by (now apply (contains_outside plain)).
      now rewrite (lower_plain _ Hq), !append_empty.
    + assert (Hd : Str.isdigit (Str.of_nat port) = true).
      { unfold Str.isdigit. rewrite of_nat_truthy. cbn [andb].
        generalize (of_nat_digits port). apply forall_chars_impl.
        intros ch Hch. now apply digit_facts in Hch. }
      assert (Ha : Str.isascii (Str.of_nat port) = true).
      { unfold Str.isascii.
        generalize (of_nat_digits port). apply forall_chars_impl.
        intros ch Hch. now apply digit_facts in Hch. }
      rewrite Hd, Ha, int_of_nat. cbn [andb].
      destruct (Z.leb_spec 0 (Z.of_nat port)); [|lia].
      cbn [andb]. now destruct (Z.of_nat port <=? 65535)%Z.
Qed.

End HostPort.

Section QuadFacts.

Import Notions.

Lemma of_nat_no_dot (n : nat) : Str.contains "." (Str.of_nat n) = false.
Proof.
  apply (contains_outside (Str.between 48 57));
    [reflexivity | apply of_nat_digits].
Qed.

Lemma of_nat_inj (n m : nat) : Str.of_nat n = Str.of_nat m -> n = m.
Proof.
  intros H. apply (f_equal Str.int) in H.
  rewrite !int_of_nat in H. lia.
Qed.

Lemma split_quad (a b c d : nat) :
  Str.split "." (quad a b c d)
  = [Str.of_nat a; Str.of_nat b; Str.of_nat c; Str.of_nat d].
Proof.
  unfold quad. cbn [String.append].
  rewrite !split_app_sep by apply of_nat_no_dot.
  now rewrite split_without by apply of_nat_no_dot.
Qed.

(** The text [a.b.c.d] is a dotted quad exactly when the four numbers
    are at most 255. *)
Lemma dotted_quad_quad (a b c d : nat) :
  Spec.dotted_quad (quad a b c d) <->
  (a <= 255 /\ b <= 255 /\ c <= 255 /\ d <= 255)%nat.
Proof.
  split.
  - intros (a' & b' & c' & d' & Hle & E).
    fold (quad a' b' c' d') in E.
    apply (f_equal (Str.split ".")) in E. rewrite !split_quad in E.
    injection E as Ea Eb Ec Ed.
    apply of_nat_inj in Ea, Eb, Ec, Ed. now subst.
  - intros (Ha & Hb & Hc & Hd). now apply quad_dotted.
Qed.

Lemma octets_valued :
  forallb (fun k =>
             match Ipaddress._parse_octet (Str.of_nat k) with
             | Return n => (n =? Z.of_nat k)%Z
             | Raise _ => false
             end) (seq 0 256) = true.
Proof. vm_compute. reflexivity. Qed.

Lemma parse_octet_of_nat (k : nat) :
  (k <= 255)%nat ->
  Ipaddress._parse_octet (Str.of_nat k) = Return (Z.of_nat k).
Proof.
  intros Hk. pose proof octets_valued as H.
  rewrite forallb_forall in H. specialize (H k).
  assert (Hin : In k (seq 0 256)) by (apply in_seq; lia).
  apply H in Hin.
  destruct (Ipaddress._parse_octet (Str.of_nat k)) as [n|e];
    [|discriminate Hin].
  apply Z.eqb_eq in Hin. now subst n.
Qed.

(** The number [IPv4Address] gives for [a.b.c.d]. *)
Lemma IPv4Address_quad (a b c d : nat) :
  (a <= 255)%nat -> (b <= 255)%nat -> (c <= 255)%nat -> (d <= 255)%nat ->
  Ipaddress.IPv4Address (Some (quad a b c d))
  = Return (ipv4 (Z.of_nat a) (Z.of_nat b) (Z.of_nat c) (Z.of_nat d)).
Proof.
  intros Ha Hb Hc Hd.
  destruct (quad_plain a b c d) as (Hq & _ & Htruthy).
  unfold Ipaddress.IPv4Address, Ipaddress._ip_int_from_string.
  cbn [Ipaddress.str_of].
  rewrite (contains_outside plain "/" _ eq_refl Hq), Htruthy, split_quad.
  cbn [negb length Nat.eqb Ipaddress.parse_octets].
  rewrite !parse_octet_of_nat by assumption.
  reflexivity.
Qed.

End QuadFacts.

(* ================================================================== *)
(** * The validator on the addresses of the intended form              *)
(* ================================================================== *)

Lemma address_accepted_iff (IPv6Address_ok : string -> bool)
    (scheme : string) (a b c d port : nat) :
  scheme = "http" \/ scheme = "https" ->
  Proxy._validate_proxy IPv6Address_ok
    (scheme ++ "://" ++ Notions.host_port a b c d port) = Return true
  <->
  (a <= 255 /\ b <= 255 /\ c <= 255 /\ d <= 255)%nat /\
  (1 <= Z.of_nat port <= 65535)%Z.
Proof.
  intros Hs.
  destruct (address_parts IPv6Address_ok scheme a b c d port Hs)
    as (r & Hr & Hscheme & Hhost & Hport).
  rewrite validate_true_iff. unfold Spec.valid_address. split.
  - intros (r' & Hr' & _ & (h & Hh & Hq) & (p & Hp & Hrange)).
    rewrite Hr in Hr'. injection Hr' as <-.
    rewrite Hhost in Hh. injection Hh as <-.
    apply dotted_quad_quad in Hq. split; [exact Hq|].
    rewrite Hport in Hp.
    destruct (Z.leb_spec (Z.of_nat port) 65535); [|discriminate Hp].
    injection Hp as <-. lia.
  - intros [Hq Hrange]. exists r. split; [exact Hr|].
    split; [now rewrite Hscheme|]. split.
    + exists (Notions.quad a b c d). split; [exact Hhost|].
      now apply dotted_quad_quad.
    + exists (Z.of_nat port). split; [|exact Hrange].
      rewrite Hport.
      destruct (Z.leb_spec (Z.of_nat port) 65535); [reflexivity|lia].
Qed.

(** X1: for an address written [scheme://a.b.c.d:port] with the scheme
    http or https, the validator answers true exactly when each of the
    four numbers is at most 255 and the port lies between 1 and
    65535. *)
Theorem validate_proxy_on_addresses (IPv6Address_ok : string -> bool)
    (scheme : string) (a b c d port : nat) :
  scheme = "http" \/ scheme = "https" ->
  Proxy._validate_proxy IPv6Address_ok
    (scheme ++ "://" ++ Notions.host_port a b c d port) = Return true
  <->
  (a <= 255 /\ b <= 255 /\ c <= 255 /\ d <= 255)%nat /\
  (1 <= Z.of_nat port <= 65535)%Z.
Proof. apply address_accepted_iff. Qed.

(* ================================================================== *)
(** * From the body of the endpoint to the buffer                      *)
(* ================================================================== *)

Section StripFacts.

Lemma lstrip_spaces (ws t : string) :
  Str.forall_chars Str.char_isspace ws = true ->
  Str.lstrip (ws ++ t) = Str.lstrip t.
Proof.
  induction ws as [|ch ws IH]; cbn; [reflexivity|].
  intros H. apply andb_prop in H as [Hch Hws].
  now rewrite Hch, (IH Hws).
Qed.

Lemma rstrip_spaces_only (ws : string) :
  Str.forall_chars Str.char_isspace ws = true -> Str.rstrip ws = EmptyString.
Proof.
  induction ws as [|ch ws IH]; cbn; [reflexivity|].
  intros H. apply andb_prop in H as [Hch Hws].
  now rewrite (IH Hws), Hch.
Qed.

Lemma rstrip_spaces (s ws : string) :
  Str.forall_chars Str.char_isspace ws = true ->
  Str.rstrip (s ++ ws) = Str.rstrip s.
Proof.
  intros Hws. induction s as [|ch s IH]; cbn.
  - now apply rstrip_spaces_only.
  - now rewrite IH.
Qed.

(** A string without white space is left as it is. *)
Lemma strip_nop (s : string) :
  Str.forall_chars (fun ch => negb (Str.char_isspace ch)) s = true ->
  Str.lstrip s = s /\ Str.rstrip s = s.
Proof.
  induction s as [|ch s IH]; cbn; [now split|].
  intros H. apply andb_prop in H as [Hch Hs].
  apply negb_true_iff in Hch. rewrite Hch.
  split; [reflexivity|].
  destruct (IH Hs) as [_ ->]. now destruct s.
Qed.

(** White space around a string without white space is taken off. *)
Lemma strip_padded (ws1 s ws2 : string) :
  Str.forall_chars Str.char_isspace ws1 = true ->
  Str.forall_chars Str.char_isspace ws2 = true ->
  Str.forall_chars (fun ch => negb (Str.char_isspace ch)) s = true ->
  Str.strip (ws1 ++ s ++ ws2) = s.
Proof.
  intros H1 H2 Hs. unfold Str.strip.
  rewrite lstrip_spaces by assumption.
  destruct s as [|ch s].
  - cbn [String.append]. 
    assert (E : Str.lstrip ws2 = EmptyString).
    { rewrite <- (append_empty ws2), lstrip_spaces by assumption.
      reflexivity. }
    now rewrite E.
  - cbn [String.append Str.lstrip].
    pose proof Hs as Hch. cbn [Str.forall_chars] in Hch.
    apply andb_prop in Hch as [Hch _]. apply negb_true_iff in Hch.
    rewrite Hch.
    change (String ch (s ++ ws2)) with (String ch s ++ ws2)%string.
    rewrite rstrip_spaces by assumption.
    now apply strip_nop.
Qed.

End StripFacts.

Section EndpointFacts.

Import Proxy Notions.

Variable IPv6Address_ok : string -> bool.
Variable http_get : nat -> string -> result response.

(** X2: when the endpoint of a remote provider answers with a body
    [a.b.c.d:port] (numbers up to 255, port from 1 to 65535), with or
    without white space around it, [get_proxy] gives
    [http://a.b.c.d:port], the validator accepts this address, and the
    worker's offer of it to an empty buffer stores it and sets the next
    sleep to zero. *)
Theorem remote_answer_is_buffered
    (config : ProxyPlatformConfig) (tr : trace) (resp : response)
    (ws1 ws2 : string) (a b c d port : nat) (wait_time : Q)
    (self : ProxyPool) :
  http_get (gets tr) (get_proxy_link config) = Return resp ->
  text resp = (ws1 ++ host_port a b c d port ++ ws2)%string ->
  Str.forall_chars Str.char_isspace ws1 = true ->
  Str.forall_chars Str.char_isspace ws2 = true ->
  (a <= 255 /\ b <= 255 /\ c <= 255 /\ d <= 255)%nat ->
  (1 <= Z.of_nat port <= 65535)%Z ->
  proxy_queue self = Queue.create 1 ->
  let address := ("http://" ++ host_port a b c d port)%string in
  fst (get_proxy http_get (RemoteProxyProvider config) tr)
  = Return (Some address) /\
  _validate_proxy IPv6Address_ok address = Return true /\
  offer IPv6Address_ok (Some address) wait_time self
  = (Continue, 0, set_proxy_queue (Queue.mk 1 [address]) self).
Proof.
  intros Hget Htext H1 H2 Hq Hport Hqueue address.
  assert (Hvalid : _validate_proxy IPv6Address_ok address = Return true).
  { apply (address_accepted_iff IPv6Address_ok "http");
      [now left | now split]. }
  split; [|split].
  - rewrite remote_get_proxy_answer by (intros e He; congruence).
    rewrite Hget, Htext. cbn [fst].
    rewrite strip_padded; try assumption; [reflexivity|].
    assert (Hplain : Str.forall_chars plain (host_port a b c d port) = true).
    { destruct (quad_plain a b c d) as (Hquad & _).
      unfold host_port. rewrite forall_chars_app, Hquad. cbn.
      generalize (of_nat_digits port). apply forall_chars_impl.
      intros ch Hch. now apply digit_facts in Hch. }
    revert Hplain. apply forall_chars_impl.
    intros ch Hch. apply plain_facts in Hch. now destruct Hch as (-> & _).
  - exact Hvalid.
  - assert (Htruthy : Str.truthy address = true) by reflexivity.
    unfold offer. rewrite Htruthy, Hvalid, Hqueue. reflexivity.
Qed.

End EndpointFacts.

(* ================================================================== *)
(** * The disguise headers                                             *)
(* ================================================================== *)

(** Comparisons of integers as propositions. *)
Ltac arith_of_bool H :=
  repeat first
    [ rewrite orb_false_iff in H | rewrite andb_false_iff in H
    | rewrite orb_true_iff in H | rewrite andb_true_iff in H
    | rewrite Z.eqb_eq in H | rewrite Z.eqb_neq in H
    | rewrite Z.leb_le in H | rewrite Z.leb_gt in H
    | rewrite Z.ltb_lt in H | rewrite Z.ltb_ge in H ].

Section NetworkFacts.

Import Notions.

Lemma of_int_nonneg (z : Z) :
  (0 <= z)%Z -> Str.of_int z = Str.of_nat (Z.to_nat z).
Proof.
  intros H. unfold Str.of_int.
  destruct (Z.ltb_spec z 0); [lia | reflexivity].
Qed.

Lemma excluded_octets (a b c d : Z) :
  (0 <= a <= 255)%Z -> (0 <= b <= 255)%Z ->
  (0 <= c <= 255)%Z -> (0 <= d <= 255)%Z ->
  excluded (ipv4 a b c d) = false <-> octets_allowed a b.
Proof.
  intros Ha Hb Hc Hd.
  unfold excluded, excluded_networks, in_network, ipv4, octets_allowed,
    Ipaddress.from_bytes_big.
  cbn [existsb fst snd fold_left].
  change (2 ^ (32 - 8))%Z with 16777216%Z.
  change (2 ^ (32 - 16))%Z with 65536%Z.
  change (2 ^ (32 - 12))%Z with 1048576%Z.
  change (2 ^ (32 - 3))%Z with 536870912%Z.
  split.
  - intros H. arith_of_bool H. lia.
  - intros H.
    repeat (apply orb_false_intro); try reflexivity;
      apply andb_false_iff;
      rewrite Z.leb_gt, Z.ltb_ge; lia.
Qed.

(** Every address is [a.b.c.d] for four numbers up to 255. *)
Lemma ipv4_octets (n : Z) :
  (0 <= n < 2 ^ 32)%Z ->
  exists a b c d : Z,
    (0 <= a <= 255 /\ 0 <= b <= 255 /\ 0 <= c <= 255 /\ 0 <= d <= 255)%Z /\
    n = ipv4 a b c d.
Proof.
  intros Hn. change (2 ^ 32)%Z with 4294967296%Z in Hn.
  exists (n / 16777216)%Z, ((n / 65536) mod 256)%Z,
         ((n / 256) mod 256)%Z, (n mod 256)%Z.
  unfold ipv4, Ipaddress.from_bytes_big. cbn [fold_left].
  Z.to_euclidean_division_equations. lia.
Qed.

End NetworkFacts.

Section RandomIpFacts.

Import Client Notions.

Variable randint : nat -> Z -> Z -> Z.
Hypothesis randint_ok : randint_in_range randint.

(** What [_random_ip] returns is [a.b.c.d] for numbers it has drawn,
    with [a] and [b] outside the ranges it rejects. *)
Lemma random_ip_octets (fuel : nat) :
  forall (k k' : nat) (s : string),
    _random_ip randint fuel k = Some (s, k') ->
    exists a b c d : Z,
      (0 <= a <= 255 /\ 0 <= b <= 255 /\ 0 <= c <= 255 /\ 0 <= d <= 255)%Z /\
      octets_allowed a b /\
      s = quad (Z.to_nat a) (Z.to_nat b) (Z.to_nat c) (Z.to_nat d) /\
      (k + 4 <= k')%nat.
Proof.
  induction fuel as [|fuel IH]; intros k k' s H; [discriminate H|].
  cbn [_random_ip] in H.
  pose proof (randint_ok k 1%Z 254%Z ltac:(lia)) as H1.
  pose proof (randint_ok (S k) 0%Z 255%Z ltac:(lia)) as H2.
  pose proof (randint_ok (S (S k)) 0%Z 255%Z ltac:(lia)) as H3.
  pose proof (randint_ok (S (S (S k))) 0%Z 255%Z ltac:(lia)) as H4.
  set (a := randint k 1%Z 254%Z) in *.
  set (b := randint (S k) 0%Z 255%Z) in *.
  set (c := randint (S (S k)) 0%Z 255%Z) in *.
  set (d := randint (S (S (S k))) 0%Z 255%Z) in *.
  destruct (existsb (Z.eqb a) [10; 127]%Z
            || (224 <=? a)%Z && (a <=? 255)%Z) eqn:T1.
  { apply IH in H. destruct H as (a' & b' & c' & d' & ? & ? & ? & ?).
    exists a', b', c', d'. do 3 (split; [assumption|]). lia. }
  destruct (if (a =? 172)%Z then (16 <=? b)%Z && (b <=? 31)%Z
            else if (a =? 192)%Z then (b =? 168)%Z else false) eqn:T2.
  { apply IH in H. destruct H as (a' & b' & c' & d' & ? & ? & ? & ?).
    exists a', b', c', d'. do 3 (split; [assumption|]). lia. }
  destruct ((a =? 169)%Z && (b =? 254)%Z) eqn:T3.
  { apply IH in H. destruct H as (a' & b' & c' & d' & ? & ? & ? & ?).
    exists a', b', c', d'. do 3 (split; [assumption|]). lia. }
  injection H as <- <-.
  exists a, b, c, d.
  split; [lia|]. split; [|split; [|lia]].
  - cbn [existsb] in T1. arith_of_bool T1. arith_of_bool T3.
    unfold octets_allowed.
    destruct (Z.eqb_spec a 172) as [E172|N172].
    + arith_of_bool T2. lia.
    + destruct (Z.eqb_spec a 192) as [E192|N192].
      * arith_of_bool T2. lia.
      * lia.
  - rewrite !of_int_nonneg by lia. reflexivity.
Qed.

End RandomIpFacts.

Lemma draws_in_range (l : list Z) : Notions.randint_in_range (Notions.draws l).
Proof. intros k a b H. unfold Notions.draws. lia. Qed.

(** X3: whatever the random numbers are (each in the range asked for),
    an address [_random_ip] returns is one [ipaddress.IPv4Address]
    accepts, and it lies in none of the networks 0.0.0.0/8, 10.0.0.0/8,
    127.0.0.0/8, 169.254.0.0/16, 172.16.0.0/12, 192.168.0.0/16 and
    224.0.0.0/3; at least four numbers were drawn for it. *)
Theorem random_ip_avoids_excluded_networks
    (randint : nat -> Z -> Z -> Z) (fuel k k' : nat) (s : string) :
  Notions.randint_in_range randint ->
  Client._random_ip randint fuel k = Some (s, k') ->
  (exists n,
     Ipaddress.IPv4Address (Some s) = Return n /\
     (0 <= n < 2 ^ 32)%Z /\
     Notions.excluded n = false) /\
  (k + 4 <= k')%nat.
Proof.
  intros Hrange H.
  apply (random_ip_octets randint Hrange) in H.
  destruct H as (a & b & c & d & Hb & Hallowed & -> & Hk).
  split; [|exact Hk].
  exists (Notions.ipv4 a b c d).
  rewrite IPv4Address_quad by lia.
  rewrite !Z2Nat.id by lia.
  split; [reflexivity|]. split.
  - unfold Notions.ipv4, Ipaddress.from_bytes_big. cbn [fold_left].
    change (2 ^ 32)%Z with 4294967296%Z. lia.
  - apply excluded_octets; try lia. exact Hallowed.
Qed.

(** X4: every address outside these networks is one [_random_ip] can
    return: for some random numbers in range, the first turn of its
    loop returns the address, after four draws. *)
Theorem random_ip_reaches_every_other_address (n : Z) :
  (0 <= n < 2 ^ 32)%Z ->
  Notions.excluded n = false ->
  exists (randint : nat -> Z -> Z -> Z) (s : string),
    Notions.randint_in_range randint /\
    (forall fuel, Client._random_ip randint (S fuel) 0 = Some (s, 4%nat)) /\
    Ipaddress.IPv4Address (Some s) = Return n.
Proof.
  intros Hn Hout.
  destruct (ipv4_octets n Hn) as (a & b & c & d & Hb & ->).
  apply excluded_octets in Hout; try lia.
  exists (Notions.draws [a; b; c; d]),
         (Notions.quad (Z.to_nat a) (Z.to_nat b) (Z.to_nat c) (Z.to_nat d)).
  split; [apply draws_in_range|]. split.
  - intros fuel. cbn [Client._random_ip].
    assert (E1 : Notions.draws [a; b; c; d] 0 1%Z 254%Z = a)
      by (unfold Notions.draws, Notions.octets_allowed in *; cbn [nth]; lia).
    assert (E2 : Notions.draws [a; b; c; d] 1 0%Z 255%Z = b)
      by (unfold Notions.draws; cbn [nth]; lia).
    assert (E3 : Notions.draws [a; b; c; d] 2 0%Z 255%Z = c)
      by (unfold Notions.draws; cbn [nth]; lia).
    assert (E4 : Notions.draws [a; b; c; d] 3 0%Z 255%Z = d)
      by (unfold Notions.draws; cbn [nth]; lia).
    rewrite E1, E2, E3, E4.
    unfold Notions.octets_allowed in Hout.
    destruct (existsb (Z.eqb a) [10; 127]%Z
              || (224 <=? a)%Z && (a <=? 255)%Z) eqn:T1.
    { exfalso. cbn [existsb] in T1. arith_of_bool T1. lia. }
    destruct (if (a =? 172)%Z then (16 <=? b)%Z && (b <=? 31)%Z
              else if (a =? 192)%Z then (b =? 168)%Z else false) eqn:T2.
    { exfalso.
      destruct (Z.eqb_spec a 172); [arith_of_bool T2; lia|].
      destruct (Z.eqb_spec a 192); [arith_of_bool T2; lia|].
      discriminate T2. }
    destruct ((a =? 169)%Z && (b =? 254)%Z) eqn:T3.
    { exfalso. arith_of_bool T3. lia. }
    rewrite !of_int_nonneg by lia. reflexivity.
  - rewrite IPv4Address_quad by lia.
    now rewrite !Z2Nat.id by lia.
Qed.

Section DictFacts.

(** Reading after writing. *)
Lemma get_set (d : Dict.t) (k v x : string) :
  Dict.get (Dict.set k v d) x
  = if String.eqb x k then Some v else Dict.get d x.
Proof.
  induction d as [|[k' v'] d IH]; cbn [Dict.set Dict.get].
  - reflexivity.
  - destruct (String.eqb_spec k k') as [<-|Hk]; cbn [Dict.get].
    + now destruct (String.eqb x k).
    + rewrite IH.
      destruct (String.eqb_spec x k') as [->|Hx]; [|reflexivity].
      destruct (String.eqb_spec k' k) as [E|_]; [now subst|reflexivity].
Qed.

End DictFacts.

Section HeaderFacts.

Import Client Notions.

Variable randint : nat -> Z -> Z -> Z.
Variable choice : nat -> list string -> string.
Variable ua_random : nat -> string.

(** The six disguise headers, set on the headers [h]. *)
Lemma update_with_fake (h : Dict.t) (v1 v2 v3 v4 : string) :
  let merged :=
    Dict.update h
      (Dict.display
         [("X-Forwarded-For", v1); ("X-Real-IP", v2); ("User-Agent", v3);
          ("Accept-Language", v4); ("Cache-Control", "no-cache");
          ("Pragma", "no-cache")]) in
  Dict.get merged "X-Forwarded-For" = Some v1 /\
  Dict.get merged "X-Real-IP" = Some v2 /\
  Dict.get merged "User-Agent" = Some v3 /\
  Dict.get merged "Accept-Language" = Some v4 /\
  Dict.get merged "Cache-Control" = Some "no-cache" /\
  Dict.get merged "Pragma" = Some "no-cache" /\
  forall x, ~ In x fake_header_names -> Dict.get merged x = Dict.get h x.
Proof.
  unfold Dict.display, Dict.update. cbn.
  repeat split.
  1-6: rewrite !get_set; reflexivity.
  intros x Hx. rewrite !get_set.
  unfold fake_header_names in Hx. cbn [In] in Hx.
  repeat match goal with
         | |- context [String.eqb x ?key] =>
             destruct (String.eqb_spec x key) as [->|_];
             [exfalso; apply Hx; tauto|]
         end.
  reflexivity.
Qed.

(** X5: the headers of a request.  With the disguise switched off they
    are the headers the caller gave and no random number is drawn.  With
    it switched on, once the two addresses are drawn, the six disguise
    headers carry the generated values whatever the caller gave under
    these names (the two addresses come from separate draws), and every
    other header of the caller is passed on as given. *)
Theorem request_headers_merge
    (headers : option Dict.t) (fuel k k1 k2 : nat) (ip1 ip2 : string) :
  choice_in_list choice ->
  _random_ip randint fuel k = Some (ip1, k1) ->
  _random_ip randint fuel k1 = Some (ip2, k2) ->
  request_headers randint choice ua_random false headers fuel k
  = Some (given headers, k) /\
  exists merged,
    request_headers randint choice ua_random true headers fuel k
    = Some (merged, S (S k2)) /\
    Dict.get merged "X-Forwarded-For" = Some ip1 /\
    Dict.get merged "X-Real-IP" = Some ip2 /\
    Dict.get merged "User-Agent" = Some (ua_random k2) /\
    (Dict.get merged "Accept-Language" = Some "zh-CN,zh;q=0.9" \/
     Dict.get merged "Accept-Language" = Some "en-US,en;q=0.5") /\
    Dict.get merged "Cache-Control" = Some "no-cache" /\
    Dict.get merged "Pragma" = Some "no-cache" /\
    forall x, ~ In x fake_header_names ->
              Dict.get merged x = Dict.get (given headers) x.
Proof.
  intros Hchoice H1 H2. split.
  - unfold request_headers, _generate_fake_headers. cbn [negb].
    now destruct headers.
  - unfold request_headers, _generate_fake_headers. cbn [negb].
    rewrite H1, H2. eexists. split; [reflexivity|].
    unfold Dict.copy.
    change (match headers with
            | Some h => h
            | None => Dict.display []
            end) with (given headers).
    destruct (update_with_fake (given headers) ip1 ip2 (ua_random k2)
                (choice (S k2) ["zh-CN,zh;q=0.9"; "en-US,en;q=0.5"]))
      as (G1 & G2 & G3 & G4 & G5 & G6 & G7).
    repeat (split; [assumption|]).
    split; [|split; [assumption|split; assumption]].
    rewrite G4.
    pose proof (Hchoice (S k2) ["zh-CN,zh;q=0.9"; "en-US,en;q=0.5"]
                  ltac:(discriminate)) as Hin.
    cbn [In] in Hin. destruct Hin as [<-|[<-|[]]]; [now left | now right].
Qed.

End HeaderFacts.

Lemma first_choice_in_list : Notions.choice_in_list Notions.first_choice.
Proof. intros k [|x l] H; [congruence | now left]. Qed.

(* ================================================================== *)
(** * The pool the constructor gives                                   *)
(* ================================================================== *)

Section ConstructedPool.

Import Proxy Notions.

Lemma new_cases (cfg : AppConfig) :
  Proxy.new cfg
  = if enable (proxy_config cfg)
    then (Raise (exn_of NameError "debug"), fresh cfg)
    else (Return tt, fresh cfg).
Proof.
  unfold Proxy.new, __init__, _init_providers, sbind, get_self.
  cbn [app_config].
  destruct (enable (proxy_config cfg)); reflexivity.
Qed.

(** X6: in the module as it stands, the constructor of the pool returns
    exactly when proxies are switched off; whether it returns or raises
    [NameError], the object is as [__init__] first set it up: no
    provider, an empty buffer of capacity 1, no stop signal, the two
    cooldowns 0.5 and 5, a count of 0 and no preload task. *)
Theorem pool_construction (cfg : AppConfig) :
  Proxy.new cfg
  = (if enable (proxy_config cfg) then Raise (exn_of NameError "debug")
     else Return tt,
     mkPool cfg [] (Queue.create 1) false (1 # 2) 5 0 None None).
Proof. rewrite new_cases. now destruct (enable (proxy_config cfg)). Qed.

Variable http_get : nat -> string -> result response.

(** A pool without providers and with an empty buffer answers [None]
    and stays as it is. *)
Lemma barren_get_next_proxy (self : ProxyPool) (tr : trace) :
  barren self ->
  get_next_proxy http_get self tr
  = (Return None, self, tr ++ [EvAcquire; EvRelease]).
Proof.
  intros [Hp Hq].
  unfold get_next_proxy, take_buffered, Queue.get_nowait.
  rewrite Hq. cbn. rewrite Hp. cbn. now rewrite <- app_assoc.
Qed.

Lemma constructed_barren (cfg : AppConfig) (pool : ProxyPool) :
  Proxy.new cfg = (Return tt, pool) -> barren pool.
Proof.
  rewrite new_cases. destruct (enable (proxy_config cfg)); [discriminate|].
  intros H. injection H as <-. now split.
Qed.

End ConstructedPool.

(* ================================================================== *)
(** * What a call of the executor can do                               *)
(* ================================================================== *)

Section ExecutorEffects.

Variable Pool : Type.
Variable get : Pool -> result (option string) * Pool.
Variable raises : option string -> option exn.
Variable send : nat -> option string -> result response.

Import Client Notions.

Ltac open_client :=
  cbv [set_async_client emit set_current_proxy set_proxy_pool
       _async_client current_proxy proxy_pool max_retries
       retry_status_codes retry_exceptions log same_settings].

Lemma same_settings_refl (self : BaseApiClient Pool) : same_settings self self.
Proof. now repeat split. Qed.

Lemma same_settings_trans (s1 s2 s3 : BaseApiClient Pool) :
  same_settings s1 s2 -> same_settings s2 s3 -> same_settings s1 s3.
Proof.
  unfold same_settings. intros (A1 & A2 & A3) (B1 & B2 & B3).
  repeat split; congruence.
Qed.

(** Creating a client sends no request and leaves the settings. *)
Lemma create_effect (self s1 : BaseApiClient Pool) (r : result AsyncClient) :
  _create_http_client get raises self = (r, s1) ->
  same_settings self s1 /\
  requests (log s1) = requests (log self) /\
  _async_client s1 = _async_client self.
Proof.
  destruct self as [ac cp pp mr codes excs lg].
  unfold _create_http_client, call_get_next_proxy, httpx_AsyncClient.
  cbn [proxy_pool].
  destruct (get pp) as [[a|e] p']; open_client;
    [destruct (raises a)|]; intros H; injection H as <- <-;
    open_client; rewrite ?requests_app; cbn; repeat split; lia.
Qed.

Lemma get_client_effect (self s1 : BaseApiClient Pool)
    (r : result AsyncClient) :
  _get_http_client get raises self = (r, s1) ->
  same_settings self s1 /\ requests (log s1) = requests (log self).
Proof.
  unfold _get_http_client.
  destruct (_async_client self) as [c|] eqn:Ec.
  - intros H. injection H as <- <-. split; [apply same_settings_refl|reflexivity].
  - destruct (_create_http_client get raises self) as [[c|e] s0] eqn:E;
      apply create_effect in E; destruct E as (Hs & Hr & _);
      intros H; injection H as <- <-; [|now split].
    destruct s0. split; [exact Hs | exact Hr].
Qed.

(** An attempt sends at most one request. *)
Lemma attempt_effect (self s1 : BaseApiClient Pool) (r : result response) :
  attempt get raises send self = (r, s1) ->
  same_settings self s1 /\
  (requests (log self) <= requests (log s1) <= requests (log self) + 1)%nat.
Proof.
  unfold attempt.
  destruct (_get_http_client get raises self) as [[c|e] s0] eqn:E;
    apply get_client_effect in E; destruct E as (Hs & Hr).
  - destruct self as [ac' cp' pp' mr' codes' excs' lg'].
    destruct s0 as [ac cp pp mr codes excs lg].
    revert Hs Hr. open_client. intros (A1 & A2 & A3) Hr.
    destruct (send (requests lg) (proxy c)) as [resp|e];
      [destruct (existsb (Z.eqb (status_code resp)) codes)|];
      intros H; injection H as <- <-;
      rewrite requests_app; cbn; (split; [now repeat split | lia]).
  - intros H. injection H as <- <-. split; [exact Hs | lia].
Qed.

(** The handler of the retryable exceptions sends no request. *)
Lemma on_retry_effect (self s1 : BaseApiClient Pool) (r : result unit) :
  on_retry_exception get raises self = (r, s1) ->
  same_settings self s1 /\ requests (log s1) = requests (log self).
Proof.
  destruct self as [ac cp pp mr codes excs lg].
  unfold on_retry_exception, call_get_next_proxy. cbn [proxy_pool].
  destruct (get pp) as [[a|e] p'].
  2:{ intros H. injection H as <- <-. now repeat split. }
  unfold _refresh_client.
  match goal with
  | |- context [_create_http_client get raises ?s] =>
      destruct (_create_http_client get raises s) as [[c|e] s0] eqn:E;
      apply create_effect in E; destruct E as (Hs & Hr & _)
  end.
  all: intros H; injection H as <- <-.
  all: destruct s0; destruct ac;
       revert Hs Hr; open_client; rewrite ?requests_app; cbn;
       intros (? & ? & ?) ?; repeat split; try congruence; lia.
Qed.

(** The loop ends within the turns [max_retries] allows, whatever the
    pool and the server do. *)
Lemma retry_loop_ends (n : nat) :
  forall (fuel : nat) (retries : Z) (self : BaseApiClient Pool),
    (max_retries self - retries + 1 <= Z.of_nat n)%Z ->
    (n < fuel)%nat ->
    exists r self',
      retry_loop get raises send fuel retries self = Some (r, self') /\
      same_settings self self' /\
      (requests (log self) <= requests (log self')
       <= requests (log self) + n)%nat.
Proof.
  induction n as [|n IH]; intros fuel retries self Hn Hfuel;
    (destruct fuel as [|fuel]; [lia|]); cbn [retry_loop].
  - destruct (Z.leb_spec retries (max_retries self)); [lia|].
    exists (Return None), self.
    split; [reflexivity|]. split; [apply same_settings_refl | lia].
  - destruct (Z.leb_spec retries (max_retries self)).
    2:{ exists (Return None), self.
        split; [reflexivity|]. split; [apply same_settings_refl | lia]. }
    destruct (attempt get raises send self) as [[resp|e] s1] eqn:Ea;
      apply attempt_effect in Ea; destruct Ea as (Hs1 & Hr1).
    { eexists; eexists. split; [reflexivity|]. split; [exact Hs1 | lia]. }
    destruct (caught_by (retry_exceptions s1) e).
    2:{ eexists; eexists. split; [reflexivity|]. split; [exact Hs1 | lia]. }
    destruct (on_retry_exception get raises s1) as [[[]|e'] s2] eqn:Eh;
      apply on_retry_effect in Eh; destruct Eh as (Hs2 & Hr2).
    2:{ eexists; eexists. split; [reflexivity|].
        split; [exact (same_settings_trans _ _ _ Hs1 Hs2) | lia]. }
    pose proof (same_settings_trans _ _ _ Hs1 Hs2) as Hs.
    destruct (max_retries s2 <? retries + 1)%Z.
    { eexists; eexists. split; [reflexivity|]. split; [exact Hs | lia]. }
    destruct (IH fuel (retries + 1)%Z s2) as (r & s3 & Hrun & Hs3 & Hr3).
    + destruct Hs as (Hmax & _). rewrite Hmax. lia.
    + lia.
    + exists r, s3. split; [exact Hrun|].
      split; [exact (same_settings_trans _ _ _ Hs Hs3) | lia].
Qed.

(** X7: [_request_with_retry] ends whatever the pool and the server do
    (they may answer, raise or fail in any order), and by then it has
    sent at most [max_retries + 1] requests, none when [max_retries] is
    negative; the retry settings are as they were. *)
Theorem request_with_retry_ends (self : BaseApiClient Pool) :
  exists r self',
    _request_with_retry get raises send self = Some (r, self') /\
    same_settings self self' /\
    (Z.of_nat (requests (log self))
     <= Z.of_nat (requests (log self'))
     <= Z.of_nat (requests (log self)) + Z.max 0 (max_retries self + 1))%Z.
Proof.
  unfold _request_with_retry.
  destruct (retry_loop_ends (Z.to_nat (max_retries self + 1))
              (Z.to_nat (max_retries self + 1) + 1) 0%Z self)
    as (r & self' & Hrun & Hs & Hr); [lia | lia |].
  exists r, self'. split; [exact Hrun|]. split; [exact Hs | lia].
Qed.

(** X8: with a negative [max_retries] the loop is not entered: the call
    returns [None] at once; no request is sent, the pool is not asked
    and no client is created. *)
Theorem negative_max_retries_sends_nothing (self : BaseApiClient Pool) :
  (max_retries self < 0)%Z ->
  _request_with_retry get raises send self = Some (Return None, self).
Proof.
  intros H. unfold _request_with_retry.
  replace (Z.to_nat (max_retries self + 1) + 1)%nat with 1%nat by lia.
  cbn [retry_loop].
  destruct (Z.leb_spec 0 (max_retries self)); [lia | reflexivity].
Qed.

End ExecutorEffects.

(* ================================================================== *)
(** * The executor on a pool that has nothing to give                  *)
(* ================================================================== *)

Section Unproxied.

Variable Pool : Type.
Variable get : Pool -> result (option string) * Pool.
Variable raises : option string -> option exn.
Variable send : nat -> option string -> result response.

Import Client Notions.

Variable good : Pool -> Prop.
Hypothesis get_none :
  forall p, good p -> exists p', get p = (Return None, p') /\ good p'.

Ltac open_client :=
  cbv [set_async_client emit set_current_proxy set_proxy_pool
       _async_client current_proxy proxy_pool max_retries
       retry_status_codes retry_exceptions log].

Lemma direct_app (l l' : list event) :
  Forall direct l -> Forall direct l' -> Forall direct (l ++ l').
Proof. intros H H'. apply Forall_app. now split. Qed.

(** A client made on such a pool has no proxy, when one is made. *)
Lemma create_unproxied (self s1 : BaseApiClient Pool)
    (r : result AsyncClient) :
  unproxied good self ->
  _create_http_client get raises self = (r, s1) ->
  unproxied good s1 /\
  _async_client s1 = _async_client self /\
  (forall c, r = Return c -> proxy c = None).
Proof.
  destruct self as [ac cp pp mr codes excs lg].
  intros (Hg & Hc & Hl). cbn in Hg, Hc, Hl.
  destruct (get_none pp Hg) as (p' & Eg & Hg').
  unfold _create_http_client, call_get_next_proxy, httpx_AsyncClient.
  cbn [proxy_pool]. rewrite Eg. open_client.
  destruct (raises None) as [e|]; intros H; injection H as <- <-.
  - split; [|split; [reflexivity | discriminate]].
    split; [exact Hg'|]. split; [exact Hc|].
    cbn. apply direct_app; [exact Hl | repeat constructor].
  - split; [|split; [reflexivity | now intros c E; injection E as <-]].
    split; [exact Hg'|]. split; [exact Hc|].
    cbn. rewrite <- app_assoc. apply direct_app; [exact Hl|].
    repeat constructor.
Qed.

Lemma get_client_unproxied (self s1 : BaseApiClient Pool)
    (r : result AsyncClient) :
  unproxied good self ->
  _get_http_client get raises self = (r, s1) ->
  unproxied good s1 /\ (forall c, r = Return c -> proxy c = None).
Proof.
  intros H. unfold _get_http_client.
  destruct (_async_client self) as [c|] eqn:Ec.
  - intros E. injection E as <- <-. split; [exact H|].
    intros c' E. injection E as <-.
    destruct H as (_ & Hc & _). now apply Hc.
  - destruct (_create_http_client get raises self) as [[c|e] s0] eqn:E;
      apply (create_unproxied self s0 _ H) in E;
      destruct E as ((Hg & Hc & Hl) & _ & Hp);
      intros E; injection E as <- <-.
    + destruct s0 as [ac cp pp mr codes excs lg].
      split; [|exact Hp].
      split; [exact Hg|]. split; [|exact Hl].
      cbn. intros c' E. injection E as <-. now apply Hp.
    + split; [now repeat split | discriminate].
Qed.

Lemma attempt_unproxied (self s1 : BaseApiClient Pool) (r : result response) :
  unproxied good self ->
  attempt get raises send self = (r, s1) ->
  unproxied good s1.
Proof.
  intros H. unfold attempt.
  destruct (_get_http_client get raises self) as [[c|e] s0] eqn:E;
    apply (get_client_unproxied self s0 _ H) in E;
    destruct E as ((Hg & Hc & Hl) & Hp).
  2:{ intros E. injection E as <- <-. now repeat split. }
  rewrite (Hp c eq_refl).
  destruct s0 as [ac cp pp mr codes excs lg].
  cbn in Hg, Hc, Hl.
  assert (Hok : unproxied good
                  (emit (EvRequest None)
                     (mkApi ac cp pp mr codes excs lg))).
  { split; [exact Hg|]. split; [exact Hc|].
    cbn. apply direct_app; [exact Hl | repeat constructor]. }
  destruct (send _ None) as [resp|e];
    [cbn [retry_status_codes emit];
     destruct (existsb (Z.eqb (status_code resp)) codes)|];
    intros E; injection E as <- <-; exact Hok.
Qed.

Lemma on_retry_unproxied (self s1 : BaseApiClient Pool) (r : result unit) :
  unproxied good self ->
  on_retry_exception get raises self = (r, s1) ->
  unproxied good s1.
Proof.
  destruct self as [ac cp pp mr codes excs lg].
  intros (Hg & Hc & Hl). cbn in Hg, Hc, Hl.
  destruct (get_none pp Hg) as (p' & Eg & Hg').
  unfold on_retry_exception, call_get_next_proxy. cbn [proxy_pool].
  rewrite Eg. unfold _refresh_client.
  match goal with
  | |- context [_create_http_client get raises ?s] =>
      assert (Hs : unproxied good s);
      [|destruct (_create_http_client get raises s) as [[c|e] s0] eqn:E;
        apply (create_unproxied s s0 _ Hs) in E;
        destruct E as ((G & C & L) & _ & Hp)]
  end.
  { destruct ac as [c|]; open_client.
    - split; [exact Hg'|]. split; [exact Hc|].
      cbn. rewrite <- app_assoc. apply direct_app; [exact Hl|].
      constructor; [reflexivity|]. constructor; [|constructor].
      cbn. now apply Hc.
    - split; [exact Hg'|]. split; [exact Hc|].
      cbn. apply direct_app; [exact Hl | repeat constructor]. }
  - intros E. injection E as <- <-.
    destruct s0 as [ac0 cp0 pp0 mr0 codes0 excs0 lg0].
    split; [exact G|]. split; [|exact L].
    cbn. intros c' E. injection E as <-. now apply Hp.
  - intros E. injection E as <- <-. now repeat split.
Qed.

Lemma retry_loop_unproxied (fuel : nat) :
  forall (retries : Z) (self s' : BaseApiClient Pool)
         (r : result (option response)),
    unproxied good self ->
    retry_loop get raises send fuel retries self = Some (r, s') ->
    unproxied good s'.
Proof.
  induction fuel as [|fuel IH]; intros retries self s' r H; [discriminate|].
  cbn [retry_loop].
  destruct (retries <=? max_retries self)%Z.
  2:{ intros E. now injection E as <- <-. }
  destruct (attempt get raises send self) as [[resp|e] s1] eqn:Ea;
    apply (attempt_unproxied self s1 _ H) in Ea.
  { intros E. now injection E as <- <-. }
  destruct (caught_by (retry_exceptions s1) e).
  2:{ intros E. now injection E as <- <-. }
  destruct (on_retry_exception get raises s1) as [[[]|e'] s2] eqn:Eh;
    apply (on_retry_unproxied s1 s2 _ Ea) in Eh.
  2:{ intros E. now injection E as <- <-. }
  destruct (max_retries s2 <? retries + 1)%Z.
  { intros E. now injection E as <- <-. }
  now apply IH.
Qed.

End Unproxied.

(** X9: a pool the constructor has returned never gives an address:
    [get_next_proxy] answers [None] and leaves the pool as it is; and
    an executor built on it sends every request of
    [_request_with_retry] without a proxy, whatever the network, the
    constructor of clients and the server do. *)
Theorem constructed_pool_gives_no_proxy
    (cfg : Proxy.AppConfig) (pool : Proxy.ProxyPool)
    (http_get : nat -> string -> result response)
    (raises : option string -> option exn)
    (send : nat -> option string -> result response) :
  Proxy.new cfg = (Return tt, pool) ->
  (forall tr,
     Proxy.get_next_proxy http_get pool tr
     = (Return None, pool, tr ++ [Proxy.EvAcquire; Proxy.EvRelease])) /\
  exists r self',
    Client._request_with_retry (System.pool_get_next_proxy http_get) raises
      send (Client.__init__ cfg (pool, []))
    = Some (r, self') /\
    Forall Notions.direct (Client.log self') /\
    fst (Client.proxy_pool self') = pool.
Proof.
  intros Hnew. apply constructed_barren in Hnew.
  split; [intros tr; now apply barren_get_next_proxy|].
  remember (Client.__init__ cfg (pool, [])) as self eqn:Eself.
  destruct (retry_loop_ends System.pool_state
              (System.pool_get_next_proxy http_get) raises send
              (Z.to_nat (@Client.max_retries System.pool_state self + 1))
              (Z.to_nat (@Client.max_retries System.pool_state self + 1) + 1)
              0%Z self)
    as (r & self' & Hrun & _ & _); [lia | lia |].
  exists r, self'. split; [exact Hrun|].
  assert (H : Notions.unproxied (fun p : System.pool_state => fst p = pool)
                self').
  { refine (retry_loop_unproxied System.pool_state
              (System.pool_get_next_proxy http_get) raises send
              (fun p => fst p = pool) _ _ _ self self' r _ Hrun).
    - intros [p tr] Hp. cbn in Hp. subst p.
      unfold System.pool_get_next_proxy. cbn [fst snd].
      rewrite barren_get_next_proxy by assumption.
      eexists. split; reflexivity.
    - subst self. split; [reflexivity|]. split; [discriminate | constructor]. }
  destruct H as (Hg & _ & Hl). now split.
Qed.

(* ================================================================== *)
(** * The buffer and the count of invalid addresses                    *)
(* ================================================================== *)

Section BufferContents.

Import Proxy Spec Notions.

Variable IPv6Address_ok : string -> bool.

(** What an offer does, by the verdict on the candidate. *)
Lemma offer_cases (c : option string) (w : Q) (self : ProxyPool) :
  offer IPv6Address_ok c w self
  = match good_answer IPv6Address_ok (Return c) with
    | Some s =>
        if Queue.full (proxy_queue self) then (Break, w, self)
        else
          (Continue, 0,
           set_proxy_queue
             (Queue.mk (Queue.maxsize (proxy_queue self))
                (Queue.items (proxy_queue self) ++ [s])) self)
    | None =>
        (Continue, w,
         set_invalid_proxy_count (invalid_proxy_count self + 1) self)
    end.
Proof.
  unfold offer, good_answer, accepted.
  destruct c as [s|]; [|reflexivity].
  destruct (validate_total IPv6Address_ok s) as [b Hb]. rewrite Hb.
  destruct (Str.truthy s); [|reflexivity].
  destruct b; [|reflexivity].
  cbn [andb]. unfold Queue.put_nowait.
  destruct (Queue.full (proxy_queue self)); reflexivity.
Qed.

Lemma good_answer_valid (r : result (option string)) (s : string) :
  good_answer IPv6Address_ok r = Some s -> valid_address IPv6Address_ok s.
Proof.
  unfold good_answer, accepted.
  destruct r as [[c|]|e]; try discriminate.
  destruct (Str.truthy c); [|discriminate]. cbn [andb].
  destruct (_validate_proxy IPv6Address_ok c) as [[|]|e] eqn:E;
    try discriminate.
  intros H. injection H as <-. now apply validate_true_iff.
Qed.

Lemma run_keeps_valid (actions : list action) :
  forall self,
    Forall (valid_address IPv6Address_ok) (Queue.items (proxy_queue self)) ->
    Forall (valid_address IPv6Address_ok)
      (Queue.items (proxy_queue (run IPv6Address_ok actions self))).
Proof.
  induction actions as [|a actions IH]; intros self H; [exact H|].
  cbn [run fold_left]. apply IH. destruct a as [c w|]; cbn [step].
  - rewrite offer_cases.
    destruct (good_answer IPv6Address_ok (Return c)) as [s|] eqn:E;
      [|exact H].
    destruct (Queue.full (proxy_queue self)); [exact H|].
    cbn. apply Forall_app. split; [exact H|].
    constructor; [|constructor]. now apply good_answer_valid in E.
  - unfold take_buffered, Queue.get_nowait.
    destruct (Queue.items (proxy_queue self)) as [|x l] eqn:E; cbn.
    + now rewrite E.
    + now inversion H.
Qed.

(** X10: from the pool the constructor sets up, after any sequence of
    offers by the worker and takes by callers, every address in the
    buffer is one the validator accepted: a URI with scheme http or
    https, a dotted quad as host and a port from 1 to 65535; so an
    address [get_next_proxy] takes from the buffer is of this form. *)
Theorem buffer_holds_valid_addresses
    (globals : list (string * pyval)) (cfg : AppConfig)
    (actions : list action) :
  let self := run IPv6Address_ok actions (snd (__init__ globals cfg)) in
  Forall (valid_address IPv6Address_ok) (Queue.items (proxy_queue self)) /\
  forall (a : string) (self' : ProxyPool),
    take_buffered self = (Return (Some a), self') ->
    valid_address IPv6Address_ok a.
Proof.
  intros self.
  assert (H : Forall (valid_address IPv6Address_ok)
                (Queue.items (proxy_queue self))).
  { apply run_keeps_valid. rewrite init_buffer. constructor. }
  split; [exact H|].
  intros a self'. unfold take_buffered, Queue.get_nowait.
  destruct (Queue.items (proxy_queue self)) as [|x l]; cbn; [discriminate|].
  intros E. injection E as <- _. now inversion H.
Qed.

(** X11: the count of invalid addresses goes up by one for each offer
    whose candidate is absent or not accepted by the validator, and by
    nothing else: a candidate that is accepted is not counted, whether
    it is stored or dropped on a full buffer, and no take changes the
    count. *)
Theorem invalid_count_counts_rejected (actions : list action) :
  forall self : ProxyPool,
    invalid_proxy_count (run IPv6Address_ok actions self)
    = (invalid_proxy_count self
       + Z.of_nat (length (filter (rejected IPv6Address_ok) actions)))%Z.
Proof.
  induction actions as [|a actions IH]; intros self; cbn [run fold_left].
  - cbn. lia.
  - fold (run IPv6Address_ok actions (step IPv6Address_ok self a)).
    rewrite IH. cbn [filter].
    destruct a as [c w|]; cbn [step rejected].
    + rewrite offer_cases. unfold good_answer.
      destruct c as [s|]; cbn [snd invalid_proxy_count length
                                set_invalid_proxy_count]; [|lia].
      destruct (accepted IPv6Address_ok s); cbn [negb length snd].
      * destruct (Queue.full (proxy_queue self)); cbn; lia.
      * cbn. lia.
    + unfold take_buffered, Queue.get_nowait.
      destruct (Queue.items (proxy_queue self)); cbn; lia.
Qed.

End BufferContents.

(* ================================================================== *)
(** * The turns of the preload worker                                  *)
(* ================================================================== *)

Section RoundFacts.

Import Proxy Spec Notions.

Variable IPv6Address_ok : string -> bool.
Variable http_get : nat -> string -> result response.
Hypothesis errors_only : fails_with_errors http_get.

Lemma sleeps_app (tr tr' : trace) :
  sleeps (tr ++ tr') = (sleeps tr + sleeps tr')%nat.
Proof. unfold sleeps. now rewrite filter_app, length_app. Qed.

(** A provider answers, and it does not sleep. *)
Lemma get_proxy_quiet (p : ProxyProvider) (tr : trace) :
  exists c mid,
    get_proxy http_get p tr = (Return c, tr ++ mid) /\
    contacted mid = [p] /\ sleeps mid = 0%nat.
Proof.
  destruct p as [proxy|config].
  - exists (Some proxy), [EvGetProxy (DebugProxyProvider proxy)].
    now repeat split.
  - rewrite remote_get_proxy_answer
      by (intros e He; now apply errors_only in He).
    destruct (http_get (gets tr) (get_proxy_link config));
      eexists; eexists; repeat split; reflexivity.
Qed.

(** A pass over the providers ends at the last of them or on a full
    buffer: it raises nothing and it does not sleep. *)
Lemma scan_outcome (ps : list ProxyProvider) :
  forall (w : Q) (self : ProxyPool) (tr : trace),
    _stop_event self = false ->
    exists outcome w' self' mid,
      scan IPv6Address_ok http_get ps w self tr
      = (outcome, w', self', tr ++ mid) /\
      (outcome = Completed \/ outcome = Broke) /\
      _stop_event self' = false /\
      sleeps mid = 0%nat /\
      (w' = w \/ w' = 0).
Proof.
  induction ps as [|p ps IH]; intros w self tr Hstop.
  - exists Completed, w, self, []. rewrite app_nil_r.
    repeat split; auto.
  - cbn [scan]. rewrite Hstop.
    destruct (get_proxy_quiet p tr) as (c & mid & -> & _ & Hq).
    rewrite offer_cases.
    destruct (good_answer IPv6Address_ok (Return c)) as [s|].
    + destruct (Queue.full (proxy_queue self)).
      * exists Broke, w, self, mid. repeat split; auto.
      * match goal with
        | |- context [scan _ _ ps 0 ?s ?t] =>
            destruct (IH 0 s t Hstop) as (o & w' & s' & mid' & -> & Ho & Hs & Hq' & Hw)
        end.
        exists o, w', s', (mid ++ mid'). rewrite app_assoc.
        repeat split; auto.
        -- rewrite sleeps_app. lia.
        -- right. now destruct Hw.
    + match goal with
      | |- context [scan _ _ ps w ?s ?t] =>
          destruct (IH w s t Hstop) as (o & w' & s' & mid' & -> & Ho & Hs & Hq' & Hw)
      end.
      exists o, w', s', (mid ++ mid'). rewrite app_assoc.
      repeat split; auto.
      rewrite sleeps_app. lia.
Qed.

(** A turn of the loop, as long as the stop signal is not set, ends in
    one sleep and leads to the next turn. *)
Lemma round_outcome (self : ProxyPool) (tr : trace) :
  _stop_event self = false ->
  exists self' mid w,
    preload_round IPv6Address_ok http_get self tr
    = (Again, self', tr ++ mid ++ [EvSleep w]) /\
    _stop_event self' = false /\
    sleeps mid = 0%nat.
Proof.
  intros Hstop. unfold preload_round.
  destruct (Queue.full (proxy_queue self)).
  - rewrite Hstop. cbn [negb].
    exists self, [], (_full_queue_cooldown self). now repeat split.
  - destruct (scan_outcome (providers self) (_cooldown_time self) self
                (tr ++ [EvAcquire]) Hstop)
      as (o & w' & s' & mid & -> & Ho & Hs & Hq & _).
    exists s', ([EvAcquire] ++ mid ++ [EvRelease]), w'.
    rewrite Hs. cbn [negb].
    split; [|split; [reflexivity|]].
    + destruct Ho as [-> | ->]; now rewrite <- !app_assoc.
    + rewrite !sleeps_app, Hq. reflexivity.
Qed.

Lemma worker_goes_on (fuel : nat) :
  forall (self : ProxyPool) (tr : trace),
    _stop_event self = false ->
    exists self' tr',
      _preload_worker IPv6Address_ok http_get fuel self tr
      = (None, self', tr') /\
      sleeps tr' = (sleeps tr + fuel)%nat.
Proof.
  induction fuel as [|fuel IH]; intros self tr Hstop.
  - exists self, tr. split; [reflexivity | lia].
  - cbn [_preload_worker]. rewrite Hstop.
    destruct (round_outcome self tr Hstop) as (s' & mid & w & -> & Hs & Hq).
    destruct (IH s' (tr ++ mid ++ [EvSleep w]) Hs) as (s'' & tr'' & -> & Hn).
    exists s'', tr''. split; [reflexivity|].
    rewrite Hn, !sleeps_app, Hq. cbn. lia.
Qed.

End RoundFacts.

(** X12: the life of the preload worker, run on its own over a network
    that fails with errors only.  Once the stop signal is set it returns
    at the next test of its loop; no provider is contacted and nothing
    is slept.  As long as the signal is not set it does not return and
    does not raise: after any number of turns it is still running, and
    each turn has ended in exactly one sleep. *)
Theorem worker_runs_until_stopped
    (IPv6Address_ok : string -> bool)
    (http_get : nat -> string -> result response)
    (self : Proxy.ProxyPool) (tr : Proxy.trace) (fuel : nat) :
  Spec.fails_with_errors http_get ->
  Proxy._preload_worker IPv6Address_ok http_get (S fuel)
    (Proxy.set_stop_event true self) tr
  = (Some (Return tt), Proxy.set_stop_event true self, tr) /\
  exists self' tr',
    Proxy._preload_worker IPv6Address_ok http_get fuel
      (Proxy.set_stop_event false self) tr
    = (None, self', tr') /\
    Notions.sleeps tr' = (Notions.sleeps tr + fuel)%nat.
Proof.
  intros Herr. split; [reflexivity|].
  now apply worker_goes_on.
Qed.

Section RoundCases.

Import Proxy Spec Notions.

Variable IPv6Address_ok : string -> bool.
Variable http_get : nat -> string -> result response.
Hypothesis errors_only : fails_with_errors http_get.

Lemma set_invalid_twice (n m : Z) (self : ProxyPool) :
  set_invalid_proxy_count n (set_invalid_proxy_count m self)
  = set_invalid_proxy_count n self.
Proof. reflexivity. Qed.

(** A pass in which no candidate is accepted visits every provider and
    counts each of them. *)
Lemma scan_all_rejected (ps : list ProxyProvider) :
  forall (w : Q) (self : ProxyPool) (tr : trace),
    _stop_event self = false ->
    first_accepted IPv6Address_ok (poll http_get ps tr) = None ->
    exists mid,
      scan IPv6Address_ok http_get ps w self tr
      = (Completed, w,
         set_invalid_proxy_count
           (invalid_proxy_count self + Z.of_nat (length ps)) self,
         tr ++ mid) /\
      contacted mid = ps.
Proof.
  induction ps as [|p ps IH]; intros w self tr Hstop Hnone.
  - exists []. rewrite app_nil_r. cbn [scan length Z.of_nat].
    rewrite Z.add_0_r. split; [|reflexivity].
    now destruct self.
  - cbn [scan]. rewrite Hstop.
    destruct (get_proxy_quiet http_get errors_only p tr)
      as (c & mid & E & Hc & _).
    cbn [poll] in Hnone. rewrite E in *. cbn [first_accepted] in Hnone.
    rewrite offer_cases.
    destruct (good_answer IPv6Address_ok (Return c)); [discriminate|].
    match goal with
    | |- context [scan _ _ ps w ?s ?t] =>
        destruct (IH w s t Hstop Hnone) as (mid' & -> & Hc')
    end.
    exists (mid ++ mid'). rewrite app_assoc.
    split.
    + rewrite set_invalid_twice. cbn [invalid_proxy_count
                                       set_invalid_proxy_count length].
      do 2 f_equal. f_equal. lia.
    + now rewrite contacted_app, Hc, Hc'.
Qed.

(** A pass over a full buffer stores nothing and leaves the next sleep
    as it is. *)
Lemma scan_when_full (ps : list ProxyProvider) :
  forall (w : Q) (self : ProxyPool) (tr : trace),
    _stop_event self = false ->
    Queue.full (proxy_queue self) = true ->
    exists outcome self' mid,
      scan IPv6Address_ok http_get ps w self tr
      = (outcome, w, self', tr ++ mid) /\
      (outcome = Completed \/ outcome = Broke) /\
      _stop_event self' = false /\
      proxy_queue self' = proxy_queue self.
Proof.
  induction ps as [|p ps IH]; intros w self tr Hstop Hfull.
  - exists Completed, self, []. rewrite app_nil_r. now repeat split; auto.
  - cbn [scan]. rewrite Hstop.
    destruct (get_proxy_quiet http_get errors_only p tr)
      as (c & mid & -> & _ & _).
    rewrite offer_cases, Hfull.
    destruct (good_answer IPv6Address_ok (Return c)).
    + exists Broke, self, mid. now repeat split; auto.
    + match goal with
      | |- context [scan _ _ ps w ?s ?t] =>
          destruct (IH w s t Hstop Hfull)
            as (o & s' & mid' & -> & Ho & Hs & Hq)
      end.
      exists o, s', (mid ++ mid'). rewrite app_assoc.
      now repeat split; auto.
Qed.

(** A pass over an empty buffer of capacity 1 stores the first
    candidate that is accepted and sets the next sleep to zero. *)
Lemma scan_fills (ps : list ProxyProvider) (a : string) :
  forall (w : Q) (self : ProxyPool) (tr : trace),
    _stop_event self = false ->
    proxy_queue self = Queue.create 1 ->
    first_accepted IPv6Address_ok (poll http_get ps tr) = Some a ->
    exists outcome self' mid,
      scan IPv6Address_ok http_get ps w self tr
      = (outcome, 0, self', tr ++ mid) /\
      (outcome = Completed \/ outcome = Broke) /\
      _stop_event self' = false /\
      proxy_queue self' = Queue.mk 1 [a].
Proof.
  induction ps as [|p ps IH]; intros w self tr Hstop Hq Hfirst;
    [discriminate Hfirst|].
  cbn [scan]. rewrite Hstop.
  destruct (get_proxy_quiet http_get errors_only p tr)
    as (c & mid & E & _ & _).
  cbn [poll] in Hfirst. rewrite E in *. cbn [first_accepted] in Hfirst.
  rewrite offer_cases.
  destruct (good_answer IPv6Address_ok (Return c)) as [s|].
  - injection Hfirst as ->. rewrite Hq.
    change (Queue.full (Queue.create 1)) with false. cbn iota.
    match goal with
    | |- context [scan _ _ ps 0 ?s ?t] =>
        destruct (scan_when_full ps 0 s t Hstop eq_refl)
          as (o & s' & mid' & -> & Ho & Hs & Hq')
    end.
    exists o, s', (mid ++ mid'). rewrite app_assoc.
    now repeat split; auto.
  - match goal with
    | |- context [scan _ _ ps w ?s ?t] =>
        destruct (IH w s t Hstop Hq Hfirst)
          as (o & s' & mid' & -> & Ho & Hs & Hq')
    end.
    exists o, s', (mid ++ mid'). rewrite app_assoc.
    now repeat split; auto.
Qed.

(** X13: how often the providers are asked.  A turn of the worker (no
    other coroutine running meanwhile) that finds the buffer full asks
    no provider and sleeps [_full_queue_cooldown], whatever the
    providers would answer; a turn that finds room in the buffer and
    gets no candidate the validator accepts asks every provider once,
    in order, counts each of them as invalid and sleeps
    [_cooldown_time]. *)
Theorem round_without_accepted_candidate (self : ProxyPool) (tr : trace) :
  _stop_event self = false ->
  (Queue.full (proxy_queue self) = true ->
   preload_round IPv6Address_ok http_get self tr
   = (Again, self, tr ++ [EvSleep (_full_queue_cooldown self)])) /\
  (Queue.full (proxy_queue self) = false ->
   first_accepted IPv6Address_ok
     (poll http_get (providers self) (tr ++ [EvAcquire])) = None ->
   exists mid,
     preload_round IPv6Address_ok http_get self tr
     = (Again,
        set_invalid_proxy_count
          (invalid_proxy_count self
           + Z.of_nat (length (providers self))) self,
        tr ++ [EvAcquire] ++ mid
           ++ [EvRelease; EvSleep (_cooldown_time self)]) /\
     contacted mid = providers self).
Proof.
  intros Hstop. unfold preload_round. split.
  - intros ->. now rewrite Hstop.
  - intros -> Hnone.
    destruct (scan_all_rejected (providers self) (_cooldown_time self) self
                (tr ++ [EvAcquire]) Hstop Hnone) as (mid & -> & Hc).
    exists mid. cbn [_stop_event set_invalid_proxy_count]. rewrite Hstop.
    cbn [negb]. split; [|exact Hc].
    now rewrite <- !app_assoc.
Qed.

Lemma round_fills (self : ProxyPool) (tr : trace) (a : string) :
  _stop_event self = false ->
  proxy_queue self = Queue.create 1 ->
  first_accepted IPv6Address_ok
    (poll http_get (providers self) (tr ++ [EvAcquire])) = Some a ->
  exists self' mid,
    preload_round IPv6Address_ok http_get self tr
    = (Again, self',
       tr ++ [EvAcquire] ++ mid ++ [EvRelease; EvSleep 0]) /\
    proxy_queue self' = Queue.mk 1 [a].
Proof.
  intros Hstop Hq Hfirst. unfold preload_round. rewrite Hq.
  change (Queue.full (Queue.create 1)) with false. cbn iota.
  destruct (scan_fills (providers self) a (_cooldown_time self) self
              (tr ++ [EvAcquire]) Hstop Hq Hfirst)
    as (o & s' & mid & -> & Ho & Hs & Hq').
  exists s', mid. rewrite Hs. cbn [negb]. split; [|exact Hq'].
  destruct Ho as [-> | ->]; now rewrite <- !app_assoc.
Qed.

(** X14: a turn of the worker (no other coroutine running meanwhile)
    that finds the buffer empty stores the first candidate, in the
    order of the providers, that the validator accepts, and goes to the
    next turn after a sleep of zero. *)
Theorem round_buffers_first_accepted
    (self : ProxyPool) (tr : trace) (a : string) :
  _stop_event self = false ->
  proxy_queue self = Queue.create 1 ->
  first_accepted IPv6Address_ok
    (poll http_get (providers self) (tr ++ [EvAcquire])) = Some a ->
  exists self' mid,
    preload_round IPv6Address_ok http_get self tr
    = (Again, self',
       tr ++ [EvAcquire] ++ mid ++ [EvRelease; EvSleep 0]) /\
    proxy_queue self' = Queue.mk 1 [a].
Proof. apply round_fills. Qed.

(** X24: the address the worker has preloaded is the one the next
    caller gets: after a turn that found the buffer empty and a
    candidate the validator accepts, [get_next_proxy] returns this
    candidate without taking the lock or asking a provider, and leaves
    the buffer empty. *)
Theorem preloaded_address_is_served
    (self : ProxyPool) (tr : trace) (a : string) :
  _stop_event self = false ->
  proxy_queue self = Queue.create 1 ->
  first_accepted IPv6Address_ok
    (poll http_get (providers self) (tr ++ [EvAcquire])) = Some a ->
  exists self' tr',
    preload_round IPv6Address_ok http_get self tr = (Again, self', tr') /\
    get_next_proxy http_get self' tr'
    = (Return (Some a),
       set_current_proxy (Some a)
         (set_proxy_queue (Queue.create 1) self'),
       tr').
Proof.
  intros Hstop Hq Hfirst.
  destruct (round_fills self tr a Hstop Hq Hfirst) as (self' & mid & E & Hq').
  eexists. eexists. split; [exact E|].
  unfold get_next_proxy, take_buffered, Queue.get_nowait.
  rewrite Hq'. reflexivity.
Qed.

End RoundCases.

(* ================================================================== *)
(** * Closing the pool                                                 *)
(* ================================================================== *)

(** X15: on a pool whose preload task was never created or has
    finished, [close] sets the stop signal and does nothing else: it
    waits for nothing and raises nothing, and a second call leaves the
    pool as the first left it.  Every pool the constructor has set up
    is such a pool. *)
Theorem close_without_running_task
    (await_preload_task : Proxy.ProxyPool -> result unit * Proxy.ProxyPool)
    (self : Proxy.ProxyPool) :
  match Proxy._preload_task self with
  | Some task => Proxy.done task = true
  | None => True
  end ->
  Proxy.close await_preload_task self
  = (Return tt, Proxy.set_stop_event true self) /\
  Proxy.close await_preload_task (Proxy.set_stop_event true self)
  = (Return tt, Proxy.set_stop_event true self) /\
  forall cfg, Proxy._preload_task (snd (Proxy.new cfg)) = None.
Proof.
  intros H. destruct self as [ac ps q st cd fcd n task cp].
  cbn in H.
  split; [|split].
  - destruct task as [[d]|]; [cbn in H; subst d|]; reflexivity.
  - destruct task as [[d]|]; [cbn in H; subst d|]; reflexivity.
  - intros cfg. rewrite new_cases.
    now destruct (Proxy.enable (Proxy.proxy_config cfg)).
Qed.

(* ================================================================== *)
(** * The fallback of [get_next_proxy] and the answer of an endpoint   *)
(* ================================================================== *)

(** X16: when the buffer is empty and the first provider is a remote
    one whose endpoint answers at all, [get_next_proxy] returns
    [http://] followed by the stripped body, whatever the status code
    and the body are (an empty body gives the address [http://]); the
    address is not validated, the remaining providers are not asked,
    and exactly one GET is sent. *)
Theorem fallback_takes_any_answer
    (http_get : nat -> string -> result response)
    (self : Proxy.ProxyPool) (tr : Proxy.trace)
    (config : Proxy.ProxyPlatformConfig) (rest : list Proxy.ProxyProvider)
    (resp : response) :
  Queue.items (Proxy.proxy_queue self) = [] ->
  Proxy.providers self = Proxy.RemoteProxyProvider config :: rest ->
  http_get (Proxy.gets tr) (Proxy.get_proxy_link config) = Return resp ->
  let address := ("http://" ++ Str.strip (text resp))%string in
  Proxy.get_next_proxy http_get self tr
  = (Return (Some address),
     Proxy.set_current_proxy (Some address) self,
     tr ++ [Proxy.EvAcquire;
            Proxy.EvGetProxy (Proxy.RemoteProxyProvider config);
            Proxy.EvHttpGet (Proxy.get_proxy_link config);
            Proxy.EvRelease]).
Proof.
  intros Hq Hp Hget address.
  unfold Proxy.get_next_proxy, Proxy.take_buffered, Queue.get_nowait.
  rewrite Hq. cbn. rewrite Hp. cbn [Proxy.first_proxy].
  rewrite remote_get_proxy_answer.
  2:{ intros e. rewrite gets_app. cbn. rewrite Nat.add_0_r, Hget.
      discriminate. }
  rewrite gets_app. cbn [Proxy.gets filter Proxy.is_http_get length].
  rewrite Nat.add_0_r, Hget.
  cbn [Proxy.truthy Str.truthy String.append].
  now rewrite <- !app_assoc.
Qed.

(* ================================================================== *)
(** * The providers [_init_providers] installs                         *)
(* ================================================================== *)

Section SortFacts.

Import Proxy Notions.

Lemma insert_perm (x : ProxyPlatformConfig) (l : list ProxyPlatformConfig) :
  Permutation (insert_by_key x l) (x :: l).
Proof.
  induction l as [|y l IH]; cbn [insert_by_key]; [reflexivity|].
  destruct (priority_key x <=? priority_key y)%Z; [reflexivity|].
  rewrite IH. apply perm_swap.
Qed.

Lemma insert_sorted (x : ProxyPlatformConfig) (l : list ProxyPlatformConfig) :
  StronglySorted by_priority l -> StronglySorted by_priority (insert_by_key x l).
Proof.
  induction 1 as [|y l Hl IH Hy]; cbn [insert_by_key].
  - repeat constructor.
  - destruct (Z.leb_spec (priority_key x) (priority_key y)) as [Hle|Hgt].
    + constructor; [now constructor|].
      constructor; [exact Hle|].
      rewrite Forall_forall in *. intros z Hz. specialize (Hy z Hz).
      unfold by_priority in *. lia.
    + constructor; [exact IH|].
      rewrite Forall_forall in *. intros z Hz.
      apply (Permutation_in _ (insert_perm x l)) in Hz.
      destruct Hz as [<-|Hz]; [unfold by_priority; lia | now apply Hy].
Qed.

(** Among the platforms of one priority, the new one comes first. *)
Lemma insert_filter (k : Z) (x : ProxyPlatformConfig)
    (l : list ProxyPlatformConfig) :
  filter (fun p => priority_key p =? k)%Z (insert_by_key x l)
  = filter (fun p => priority_key p =? k)%Z (x :: l).
Proof.
  induction l as [|y l IH]; cbn [insert_by_key]; [reflexivity|].
  destruct (Z.leb_spec (priority_key x) (priority_key y)) as [Hle|Hgt];
    [reflexivity|].
  cbn [filter] in *. rewrite IH.
  destruct (Z.eqb_spec (priority_key x) k), (Z.eqb_spec (priority_key y) k);
    try reflexivity.
  lia.
Qed.

(** [sort_by_key] sorts, and it is stable. *)
Lemma sort_by_key_spec (l : list ProxyPlatformConfig) :
  Permutation (sort_by_key l) l /\
  StronglySorted by_priority (sort_by_key l) /\
  forall k, filter (fun p => priority_key p =? k)%Z (sort_by_key l)
            = filter (fun p => priority_key p =? k)%Z l.
Proof.
  unfold sort_by_key.
  induction l as [|x l (Hp & Hs & Hf)]; cbn [fold_right].
  - repeat split; constructor.
  - split; [|split].
    + rewrite insert_perm. now constructor.
    + now apply insert_sorted.
    + intros k. rewrite insert_filter. cbn [filter]. now rewrite Hf.
Qed.

End SortFacts.

Section InitFacts.

Import Proxy Notions.

Variable globals : list (string * pyval).

(** X17: where the module binds [debug] to a false value (the source
    binds neither [debug] nor [debug_proxy]), a configuration with
    proxies switched on and a [use] other than [debug_proxy] installs
    one remote provider for each platform whose name is [use], and no
    other: in ascending order of [priority] (1 when not given), with
    platforms of equal priority in the order of the configuration; the
    preload task is created exactly when there is such a platform. *)
Theorem providers_follow_priority (cfg : AppConfig) (v : pyval) :
  load_global globals "debug" = Return v ->
  val_truthy v = false ->
  enable (proxy_config cfg) = true ->
  use (proxy_config cfg) <> "debug_proxy" ->
  let chosen :=
    filter (fun p => String.eqb (name p) (use (proxy_config cfg)))
      (proxy_platforms (proxy_config cfg)) in
  exists ordered self,
    __init__ globals cfg = (Return tt, self) /\
    providers self = map RemoteProxyProvider ordered /\
    Permutation ordered chosen /\
    StronglySorted by_priority ordered /\
    (forall k, with_priority k ordered = with_priority k chosen) /\
    _preload_task self
    = match chosen with [] => None | _ :: _ => Some create_task end.
Proof.
  intros Hdebug Hfalse Henable Huse chosen.
  destruct (sort_by_key_spec chosen) as (Hp & Hs & Hf).
  exists (sort_by_key chosen).
  unfold __init__, _init_providers, sbind, get_self, lift, ret.
  cbn [app_config]. rewrite Henable, Hdebug. cbn [negb].
  rewrite Hfalse, Hfalse.
  destruct (String.eqb_spec (use (proxy_config cfg)) "debug_proxy")
    as [E|_]; [contradiction|].
  fold chosen.
  unfold update, _start_preload, sbind, get_self, ret, update.
  cbn [providers set_providers app _preload_task].
  destruct (map RemoteProxyProvider (sort_by_key chosen)) as [|p ps] eqn:Em.
  - eexists. split; [reflexivity|]. cbn [providers _preload_task].
    repeat split; try assumption.
    apply map_eq_nil in Em. rewrite Em in Hp.
    apply Permutation_nil in Hp. now rewrite Hp.
  - eexists. split; [reflexivity|].
    cbn [providers _preload_task set_preload_task].
    repeat split; try assumption.
    destruct chosen as [|c chosen']; [|reflexivity].
    discriminate Em.
Qed.

(** X18: where the module binds [debug] to a true value and
    [debug_proxy] to a non-empty string, a configuration with proxies
    switched on installs the debug provider of this address and nothing
    else, whatever [use] and the platforms are, and creates the preload
    task. *)
Theorem debug_proxy_overrides_platforms
    (cfg : AppConfig) (v : pyval) (s : string) :
  load_global globals "debug" = Return v ->
  val_truthy v = true ->
  load_global globals "debug_proxy" = Return (VStr s) ->
  s <> EmptyString ->
  enable (proxy_config cfg) = true ->
  exists self,
    __init__ globals cfg = (Return tt, self) /\
    providers self = [DebugProxyProvider s] /\
    _preload_task self = Some create_task /\
    proxy_queue self = Queue.create 1.
Proof.
  intros Hdebug Htrue Hproxy Hs Henable.
  unfold __init__, _init_providers, sbind, get_self, lift, ret.
  cbn [app_config]. rewrite Henable, Hdebug. cbn [negb].
  rewrite Htrue, Hproxy.
  assert (Ht : val_truthy (VStr s) = true) by (now destruct s).
  rewrite Ht. cbn.
  eexists. split; [reflexivity|]. now repeat split.
Qed.

End InitFacts.

(* ================================================================== *)
(** * The executor as a context manager                                *)
(* ================================================================== *)

Section ContextFacts.

Variable Pool : Type.
Variable get : Pool -> result (option string) * Pool.
Variable raises : option string -> option exn.
Variable pool_close : Pool -> result unit * Pool.

Import Client.

(** X19: entering the executor fetches one address from the pool and,
    when the constructor of clients takes it, makes a client bound to
    it, in place of the client the executor may have had, which is not
    closed; leaving it closes the pool and then this client.  The
    closed client stays in place: [_get_http_client] hands it out
    afterwards, without asking the pool for an address and without
    making a new client.  When the constructor raises, its exception
    leaves [__aenter__], and the executor has the client it had. *)
Theorem enter_then_exit (self : BaseApiClient Pool)
    (a : option string) (p1 p2 : Pool) :
  get (proxy_pool self) = (Return a, p1) ->
  pool_close p1 = (Return tt, p2) ->
  match raises a with
  | None =>
      exists s1 s2,
        __aenter__ get raises self = (Return tt, s1) /\
        __aexit__ pool_close s1 = (Return tt, s2) /\
        log s1 = log self ++ [EvGetNextProxy a; EvNewClient a] /\
        log s2 = log s1 ++ [EvAclose a] /\
        proxy_pool s2 = p2 /\
        _get_http_client get raises s2 = (Return (mkClient a), s2)
  | Some e =>
      exists s1,
        __aenter__ get raises self = (Raise e, s1) /\
        log s1 = log self ++ [EvGetNextProxy a] /\
        _async_client s1 = _async_client self
  end.
Proof.
  destruct self as [ac cp pp mr codes excs lg]. cbn [proxy_pool].
  intros Hget Hclose.
  unfold __aenter__, _create_http_client, call_get_next_proxy,
    httpx_AsyncClient.
  cbn [proxy_pool]. rewrite Hget.
  cbv [set_async_client emit set_current_proxy set_proxy_pool
       _async_client current_proxy proxy_pool max_retries
       retry_status_codes retry_exceptions log proxy].
  destruct (raises a) as [e|].
  - eexists. split; [reflexivity|]. split; reflexivity.
  - eexists. eexists. split; [reflexivity|].
    unfold __aexit__.
    cbv [set_async_client emit set_current_proxy set_proxy_pool
         _async_client current_proxy proxy_pool max_retries
         retry_status_codes retry_exceptions log proxy].
    rewrite Hclose.
    split; [reflexivity|].
    split; [now rewrite <- app_assoc|].
    split; [reflexivity|].
    split; reflexivity.
Qed.

End ContextFacts.

(* ================================================================== *)
(** * Which failures are retried, and recovery                         *)
(* ================================================================== *)

(** The classes [except self.retry_exceptions] catches. *)
Lemma retried_classes (e : exn) :
  caught_by [RequestError; ProxyError; ConnectTimeout; ConnectionResetError] e
  = issubclass (exc_class e) RequestError
    || exn_class_eqb (exc_class e) ConnectionResetError.
Proof. destruct e as [c msg r]. destruct c; reflexivity. Qed.

Section RecoveryFacts.

Variable Pool : Type.
Variable get : Pool -> result (option string) * Pool.
Variable raises : option string -> option exn.
Variable send : nat -> option string -> result response.

Import Client Spec.

(** X20: which exceptions are retried.  The handler of
    [_request_with_retry] catches an exception exactly when its class
    is [ConnectionResetError] or derives from [httpx.RequestError] (the
    entries [ProxyError] and [ConnectTimeout] of the tuple add
    nothing); an attempt that raises any other exception, such as
    [HTTPStatusError], [TimeoutError] or a cancellation, ends the call
    with this exception after the request that raised it: the pool is
    not asked for another address and the client is not replaced. *)
Theorem other_exceptions_are_not_retried (fuel : nat) (retries : Z)
    (self self0 : BaseApiClient Pool) (c : AsyncClient) (e : exn) :
  configured self ->
  (retries <= max_retries self)%Z ->
  _get_http_client get raises self = (Return c, self0) ->
  send (requests (log self)) (proxy c) = Raise e ->
  (caught_by (retry_exceptions self) e = true <->
   issubclass (exc_class e) RequestError = true \/
   exc_class e = ConnectionResetError) /\
  (caught_by (retry_exceptions self) e = false ->
   retry_loop get raises send (S fuel) retries self
   = Some (Raise e, emit (EvRequest (proxy c)) self0)).
Proof.
  intros [Hcodes Hexcs] Hr Hget Hsend. split.
  - rewrite Hexcs, retried_classes, orb_true_iff.
    unfold exn_class_eqb.
    destruct (exn_class_eq_dec (exc_class e) ConnectionResetError);
      intuition congruence.
  - intros Hnot.
    pose proof Hget as Hkeeps. apply get_http_client_keeps in Hkeeps.
    destruct Hkeeps as (_ & (_ & _ & Hexcs0) & Hreq).
    cbn [retry_loop].
    destruct (Z.leb_spec retries (max_retries self)) as [_|]; [|lia].
    unfold attempt. rewrite Hget, Hreq, Hsend.
    cbn [retry_exceptions emit]. now rewrite Hexcs0, Hnot.
Qed.

(** X25: an executor without a client, a pool that answers and a
    constructor of clients that raises on the answer, with an exception
    outside the retryable set ([ValueError] or [InvalidURL] for a text
    httpx refuses as proxy URL, [AttributeError] when no subclass has
    set [cache_data]): [_request_with_retry] ends with this exception
    at its first attempt.  The pool has been asked once, no request
    has been sent and nothing is retried, whatever [max_retries] is;
    the answer is in [current_proxy] and the executor is still without
    a client. *)
Theorem construction_error_ends_the_call (self : BaseApiClient Pool)
    (a : option string) (p1 : Pool) (e : exn) :
  _async_client self = None ->
  (0 <= max_retries self)%Z ->
  get (proxy_pool self) = (Return a, p1) ->
  raises a = Some e ->
  caught_by (retry_exceptions self) e = false ->
  _request_with_retry get raises send self
  = Some (Raise e,
          mkApi None a p1 (max_retries self) (retry_status_codes self)
            (retry_exceptions self) (log self ++ [EvGetNextProxy a])).
Proof.
  destruct self as [ac cp pp mr codes excs lg].
  cbn [_async_client max_retries proxy_pool retry_status_codes
       retry_exceptions log].
  intros -> Hmax Hget Hraises Hcaught.
  unfold _request_with_retry. cbn [max_retries].
  destruct (Z.to_nat (mr + 1) + 1)%nat as [|fuel] eqn:Efuel; [lia|].
  cbn [retry_loop max_retries].
  destruct (Z.leb_spec 0 mr) as [_|]; [|lia].
  unfold attempt, _get_http_client, _create_http_client,
    call_get_next_proxy, httpx_AsyncClient.
  cbn [_async_client proxy_pool]. rewrite Hget.
  cbv [set_async_client emit set_current_proxy set_proxy_pool
       _async_client current_proxy proxy_pool max_retries
       retry_status_codes retry_exceptions log].
  rewrite Hraises. cbn [retry_exceptions]. now rewrite Hcaught.
Qed.

(** The pools that serve: such a pool answers every call, with an
    address (or none) that the constructor of clients takes, and it
    serves afterwards as well. *)
Variable serving : Pool -> Prop.

Hypothesis pool_returns :
  forall p, serving p ->
    exists a p', get p = (Return a, p') /\ raises a = None /\ serving p'.

(** The pool is asked once for a client that is not there yet. *)
Lemma get_http_client_calls (self self0 : BaseApiClient Pool)
    (c : AsyncClient) :
  _get_http_client get raises self = (Return c, self0) ->
  pool_calls (log self0)
  = (pool_calls (log self)
     + match _async_client self with Some _ => 0 | None => 1 end)%nat.
Proof.
  destruct self as [ac cp pp mr codes excs lg].
  unfold _get_http_client, _create_http_client, call_get_next_proxy,
    httpx_AsyncClient.
  cbn [_async_client proxy_pool log]. destruct ac as [c0|].
  - intros H. injection H as _ <-. cbn [log]. lia.
  - destruct (get pp) as [[a|e] p']; [|discriminate].
    cbv [set_async_client emit set_current_proxy set_proxy_pool
         _async_client current_proxy proxy_pool max_retries
         retry_status_codes retry_exceptions log].
    destruct (raises a); [discriminate|].
    intros H. injection H as _ <-.
    cbn [log]. rewrite !pool_calls_app. cbn. lia.
Qed.

(** After [j] attempts that fail with retryable exceptions, an answer
    with a status outside the retry set is returned. *)
Lemma retry_loop_recovers (j : nat) :
  forall (fuel : nat) (retries : Z) (self : BaseApiClient Pool)
         (resp : response),
    configured self ->
    serving (proxy_pool self) ->
    (retries + Z.of_nat j <= max_retries self)%Z ->
    (j < fuel)%nat ->
    (forall i p, (i < j)%nat ->
       exists e, send (requests (log self) + i) p = Raise e /\
                 caught_by [RequestError; ProxyError; ConnectTimeout;
                            ConnectionResetError] e = true) ->
    (forall p, send (requests (log self) + j) p = Return resp) ->
    existsb (Z.eqb (status_code resp)) retry_statuses = false ->
    exists self',
      retry_loop get raises send fuel retries self
      = Some (Return (Some resp), self') /\
      requests (log self') = (requests (log self) + j + 1)%nat /\
      pool_calls (log self')
      = (pool_calls (log self) + 2 * j
         + match _async_client self with Some _ => 0 | None => 1 end)%nat.
Proof.
  induction j as [|j IH];
    intros fuel retries self resp Hconf Hserv Hr Hfuel Hfail Hok Hstatus.
  all: destruct fuel as [|fuel]; [lia|].
  all: destruct (get_http_client_returns Pool get raises serving
                   pool_returns self Hserv)
         as (c & self0 & Hget & Hserv0).
  all: destruct (pool_returns (proxy_pool self0) Hserv0)
         as (a1 & p1 & E1 & _ & Hserv1).
  all: destruct (pool_returns p1 Hserv1) as (a2 & p2 & E2 & Ha2 & Hserv2).
  all: rewrite (retry_turn_with Pool get raises send fuel retries self self0
                 c a1 a2 p1 p2 ltac:(lia) Hget E1 E2 Ha2); cbn zeta.
  all: pose proof (get_http_client_calls self self0 c Hget) as Hcalls.
  all: apply get_http_client_keeps in Hget;
       destruct Hget as (_ & _ & Hreq).
  all: destruct Hconf as [Hcodes Hexcs].
  - specialize (Hok (proxy c)). rewrite Nat.add_0_r in Hok. rewrite Hok.
    rewrite Hcodes. change [429; 500; 502; 503; 504]%Z with retry_statuses.
    rewrite Hstatus.
    eexists. split; [reflexivity|]. cbn [log emit].
    rewrite requests_app, pool_calls_app. cbn. lia.
  - destruct (Hfail 0%nat (proxy c) ltac:(lia)) as (e & Esend & Hcaught).
    rewrite Nat.add_0_r in Esend. rewrite Esend, Hexcs, Hcaught.
    destruct (Z.ltb_spec (max_retries self) (retries + 1)) as [|_]; [lia|].
    match goal with
    | |- context [retry_loop get raises send fuel (retries + 1)%Z ?s] =>
        destruct (IH fuel (retries + 1)%Z s resp)
          as (self' & -> & Hcount & Hpool)
    end.
    + split; cbn; first [assumption | reflexivity].
    + exact Hserv2.
    + cbn [max_retries]. lia.
    + lia.
    + intros i p Hi. cbn [log emit]. rewrite !requests_app. cbn.
      destruct (Hfail (S i) p ltac:(lia)) as (e' & Ee' & Hc').
      exists e'. split; [|exact Hc'].
      rewrite <- Ee'. f_equal. lia.
    + intros p. cbn [log emit]. rewrite !requests_app. cbn.
      rewrite <- (Hok p). f_equal. lia.
    + exact Hstatus.
    + exists self'. split; [reflexivity|].
      cbn [log emit _async_client] in Hcount, Hpool.
      rewrite !requests_app in Hcount. rewrite !pool_calls_app in Hpool.
      cbn in Hcount, Hpool. lia.
Qed.

(** X21: recovery, on a pool that serves (it answers every call, with
    an address the constructor of clients takes).  When the first [j]
    requests of a call raise retryable exceptions, with [j] at most
    [max_retries], and the next one is answered with a status outside
    the retry set, the call returns this response after [j + 1]
    requests; the pool has been asked for two addresses for each
    failure, and for one more when the executor had no client at the
    start. *)
Theorem request_with_retry_recovers (self : BaseApiClient Pool)
    (j : nat) (resp : response) :
  configured self ->
  serving (proxy_pool self) ->
  (Z.of_nat j <= max_retries self)%Z ->
  (forall i p, (i < j)%nat ->
     exists e, send (requests (log self) + i) p = Raise e /\
               caught_by [RequestError; ProxyError; ConnectTimeout;
                          ConnectionResetError] e = true) ->
  (forall p, send (requests (log self) + j) p = Return resp) ->
  existsb (Z.eqb (status_code resp)) retry_statuses = false ->
  exists self',
    _request_with_retry get raises send self
    = Some (Return (Some resp), self') /\
    requests (log self') = (requests (log self) + j + 1)%nat /\
    pool_calls (log self')
    = (pool_calls (log self) + 2 * j
       + match _async_client self with Some _ => 0 | None => 1 end)%nat.
Proof.
  intros Hconf Hserv Hj Hfail Hok Hstatus. unfold _request_with_retry.
  apply retry_loop_recovers; try assumption; lia.
Qed.

End RecoveryFacts.

(* ================================================================== *)
(** * An endpoint that answers with a full URL                         *)
(* ================================================================== *)

Section DoublePrefix.

Variable IPv6Address_ok : string -> bool.

Lemma remove_char_app (c : ascii) (s t : string) :
  Str.remove_char c (s ++ t)
  = (Str.remove_char c s ++ Str.remove_char c t)%string.
Proof.
  induction s as [|d s IH]; cbn; [reflexivity|].
  destruct (Ascii.eqb c d); cbn; now rewrite IH.
Qed.

(** The unsafe characters are taken out of the rest of a URL whose
    head has none. *)
Lemma clean_headed (head rest : string) :
  Str.truthy head = true ->
  Str.forall_chars
    (fun ch => negb (Str.contains ch Urllib._WHATWG_C0_CONTROL_OR_SPACE))
    head = true ->
  exists rest',
    fold_left (fun u b => Str.remove_char b u)
      Urllib._UNSAFE_URL_BYTES_TO_REMOVE
      (Str.lstrip_chars Urllib._WHATWG_C0_CONTROL_OR_SPACE (head ++ rest))
    = (head ++ rest')%string.
Proof.
  intros Htruthy Hhead.
  assert (Hstrip : Str.lstrip_chars Urllib._WHATWG_C0_CONTROL_OR_SPACE
                     (head ++ rest) = (head ++ rest)%string).
  { destruct head as [|ch head]; [discriminate Htruthy|].
    cbn [String.append Str.lstrip_chars].
    cbn [Str.forall_chars] in Hhead.
    apply andb_prop in Hhead as [Hch _].
    apply negb_true_iff in Hch. now rewrite Hch. }
  rewrite Hstrip.
  assert (Hno : forall ch,
            Str.contains ch Urllib._WHATWG_C0_CONTROL_OR_SPACE = true ->
            Str.remove_char ch head = head).
  { intros ch Hch. apply remove_char_nop.
    apply (contains_outside
             (fun ch => negb (Str.contains ch Urllib._WHATWG_C0_CONTROL_OR_SPACE)));
      [now rewrite Hch | exact Hhead]. }
  unfold Urllib._UNSAFE_URL_BYTES_TO_REMOVE. cbn [fold_left].
  rewrite !remove_char_app.
  rewrite (Hno (ascii_of_nat 9) eq_refl).
  rewrite (Hno (ascii_of_nat 13) eq_refl).
  rewrite (Hno (ascii_of_nat 10) eq_refl).
  eexists. reflexivity.
Qed.

Lemma span_until (p : ascii -> bool) (s : string) (c : ascii) (t : string) :
  Str.forall_chars p s = true -> p c = false ->
  Str.span p (s ++ String c t) = (s, String c t).
Proof.
  intros Hs Hc. induction s as [|d s IH]; cbn.
  - now rewrite Hc.
  - cbn in Hs. apply andb_prop in Hs as [Hd Hs].
    now rewrite Hd, (IH Hs).
Qed.

Lemma splitnetloc_at (host rest : string) :
  Str.forall_chars (fun c => negb (Urllib.is_delim c)) host = true ->
  Urllib._splitnetloc (String "/" (String "/" (host ++ String "/" rest)))
  = (host, String "/" rest).
Proof.
  intros H. unfold Urllib._splitnetloc. cbn [Str.drop].
  now apply span_until.
Qed.

Ltac split_rest :=
  repeat match goal with
         | |- context [if ?b then _ else _] => destruct b
         | |- context [Str.partition ?c ?u] =>
             destruct (Str.partition c u) as [[? ?] ?]
         | |- context [Urllib._splitparams ?u] =>
             destruct (Urllib._splitparams u)
         end.

(** A URL [http://http://...] or [http://https://...]: the host is the
    inner scheme. *)
Lemma urlparse_double_prefix (inner rest : string) :
  inner = "http" \/ inner = "https" ->
  exists path params query fragment,
    Urllib.urlparse IPv6Address_ok ("http://" ++ inner ++ "://" ++ rest)
    = Return (Urllib.mkParseResult "http" (inner ++ ":")
                path params query fragment).
Proof.
  intros [-> | ->].
  - destruct (clean_headed "http://http://" rest eq_refl eq_refl)
      as (rest' & E).
    unfold Urllib.urlparse, Urllib.urlsplit.
    change ("http://" ++ "http" ++ "://" ++ rest)%string
      with ("http://http://" ++ rest)%string.
    rewrite E. clear E. cbn [String.append]. parse_head.
    change (String "h" (String "t" (String "t" (String "p" (String ":"
              (String "/" (String "/" rest')))))))
      with ("http:" ++ String "/" (String "/" rest'))%string.
    rewrite splitnetloc_at by reflexivity.
    parse_head.
    repeat (progress (split_rest; cbn -[Str.contains Str.partition]));
      do 4 eexists; reflexivity.
  - destruct (clean_headed "http://https://" rest eq_refl eq_refl)
      as (rest' & E).
    unfold Urllib.urlparse, Urllib.urlsplit.
    change ("http://" ++ "https" ++ "://" ++ rest)%string
      with ("http://https://" ++ rest)%string.
    rewrite E. clear E. cbn [String.append]. parse_head.
    change (String "h" (String "t" (String "t" (String "p" (String "s"
              (String ":" (String "/" (String "/" rest'))))))))
      with ("https:" ++ String "/" (String "/" rest'))%string.
    rewrite splitnetloc_at by reflexivity.
    parse_head.
    repeat (progress (split_rest; cbn -[Str.contains Str.partition]));
      do 4 eexists; reflexivity.
Qed.

Lemma double_prefix_rejected (inner rest : string) :
  inner = "http" \/ inner = "https" ->
  Proxy._validate_proxy IPv6Address_ok ("http://" ++ inner ++ "://" ++ rest)
  = Return false.
Proof.
  intros Hinner.
  destruct (urlparse_double_prefix inner rest Hinner)
    as (path & params & query & fragment & E).
  unfold Proxy._validate_proxy, Proxy._validate_proxy_try.
  rewrite E. cbn [bind Urllib.scheme].
  destruct Hinner as [-> | ->]; reflexivity.
Qed.

End DoublePrefix.

(** X22: when the endpoint of a remote provider answers with an address
    that already carries a scheme ([http://...] or [https://...]),
    [get_proxy] puts [http://] before it all the same, the validator
    refuses the result whatever follows the scheme, and the worker
    counts it as invalid and stores nothing: such an endpoint never
    fills the buffer. *)
Theorem endpoint_with_scheme_is_rejected
    (IPv6Address_ok : string -> bool)
    (http_get : nat -> string -> result response)
    (config : Proxy.ProxyPlatformConfig) (tr : Proxy.trace)
    (resp : response) (inner rest : string) (wait_time : Q)
    (self : Proxy.ProxyPool) :
  http_get (Proxy.gets tr) (Proxy.get_proxy_link config) = Return resp ->
  Str.strip (text resp) = (inner ++ "://" ++ rest)%string ->
  inner = "http" \/ inner = "https" ->
  let address := ("http://" ++ inner ++ "://" ++ rest)%string in
  fst (Proxy.get_proxy http_get (Proxy.RemoteProxyProvider config) tr)
  = Return (Some address) /\
  Proxy._validate_proxy IPv6Address_ok address = Return false /\
  Proxy.offer IPv6Address_ok (Some address) wait_time self
  = (Proxy.Continue, wait_time,
     Proxy.set_invalid_proxy_count (Proxy.invalid_proxy_count self + 1) self).
Proof.
  intros Hget Hbody Hinner address.
  assert (Hbad : Proxy._validate_proxy IPv6Address_ok address = Return false)
    by (now apply double_prefix_rejected).
  split; [|split; [exact Hbad|]].
  - rewrite remote_get_proxy_answer by (intros e He; congruence).
    now rewrite Hget, Hbody.
  - assert (Htruthy : Str.truthy address = true) by reflexivity.
    unfold Proxy.offer. now rewrite Htruthy, Hbad.
Qed.

(* ================================================================== *)
(** * Importing the package                                            *)
(* ================================================================== *)

(** X23: the package cannot be imported.  However the imports of the
    modules outside the sources end, running [__init__.py] does not
    bind its names: when all that comes before succeeds,
    [from .client import HttpClient] raises [ImportError], since
    [client.py] binds no such name; and the import from [proxy.py]
    alone raises [ImportError] for [EmptyProxyProvider]. *)
Theorem package_import_fails
    (async_decorators client_runs config proxy_runs : Package.outcome) :
  Package.__init__ async_decorators client_runs config proxy_runs
  <> Package.Bound /\
  Package.__init__ Package.Bound Package.Bound config proxy_runs
  = Package.ImportError "HttpClient" /\
  Package.from_import Package.proxy_names
    ["DebugProxyProvider"; "EmptyProxyProvider"; "ProxyProvider";
     "RotatingProxyProvider"; "YiProxyProvider"]
  = Package.ImportError "EmptyProxyProvider".
Proof.
  split; [|split; reflexivity].
  destruct async_decorators, client_runs; discriminate.
Qed.

(* ================================================================== *)
(** * Further theorems at sample inputs                                *)
(* ================================================================== *)

Lemma validate_proxy_on_addresses_witness :
  Proxy._validate_proxy Sample.no_ipv6 "http://192.0.2.7:3128" = Return true.
Proof.
  apply (validate_proxy_on_addresses Sample.no_ipv6 "http" 192 0 2 7 3128
           (or_introl eq_refl)).
  split; [repeat split; apply Nat.leb_le; reflexivity|].
  split; apply Z.leb_le; reflexivity.
Defined.

Lemma remote_answer_is_buffered_witness :
  let address := "http://192.0.2.7:3128" in
  fst (Proxy.get_proxy Sample.net_up Sample.p_remote [])
  = Return (Some address) /\
  Proxy._validate_proxy Sample.no_ipv6 address = Return true /\
  Proxy.offer Sample.no_ipv6 (Some address) (1 # 2) Sample.pool_off
  = (Proxy.Continue, 0,
     Proxy.set_proxy_queue (Queue.mk 1 [address]) Sample.pool_off).
Proof.
  exact (remote_answer_is_buffered Sample.no_ipv6 Sample.net_up
           Sample.platform [] (mkResponse 200 " 192.0.2.7:3128 ")
           " " " " 192 0 2 7 3128 (1 # 2) Sample.pool_off
           eq_refl eq_refl eq_refl eq_refl
           (conj (proj1 (Nat.leb_le 192 255) eq_refl)
              (conj (proj1 (Nat.leb_le 0 255) eq_refl)
                 (conj (proj1 (Nat.leb_le 2 255) eq_refl)
                    (proj1 (Nat.leb_le 7 255) eq_refl))))
           (conj (proj1 (Z.leb_le 1 3128) eq_refl)
              (proj1 (Z.leb_le 3128 65535) eq_refl))
           eq_refl).
Defined.

(** Three turns: 10 is refused at once, 172.20 after the second draw,
    and 8.8.4.4 is returned. *)
Lemma random_ip_avoids_excluded_networks_witness :
  (exists n,
     Ipaddress.IPv4Address (Some "8.8.4.4") = Return n /\
     (0 <= n < 2 ^ 32)%Z /\
     Notions.excluded n = false) /\
  (0 + 4 <= 7)%nat.
Proof.
  exact (random_ip_avoids_excluded_networks
           (Notions.draws [10; 172; 20; 8; 8; 4; 4]%Z) 3 0 7 "8.8.4.4"
           (draws_in_range _) eq_refl).
Defined.

(** The address 100.64.0.1, of the range shared by carriers, is one the
    generator can return. *)
Lemma random_ip_reaches_every_other_address_witness :
  exists (randint : nat -> Z -> Z -> Z) (s : string),
    Notions.randint_in_range randint /\
    (forall fuel, Client._random_ip randint (S fuel) 0 = Some (s, 4%nat)) /\
    Ipaddress.IPv4Address (Some s) = Return (Notions.ipv4 100 64 0 1).
Proof.
  exact (random_ip_reaches_every_other_address (Notions.ipv4 100 64 0 1)
           (conj (proj1 (Z.leb_le 0 (Notions.ipv4 100 64 0 1)) eq_refl)
              (proj1 (Z.ltb_lt (Notions.ipv4 100 64 0 1) (2 ^ 32)) eq_refl))
           eq_refl).
Defined.

Lemma request_headers_merge_witness :
  let randint := Notions.draws [8; 8; 4; 4; 1; 1; 1; 1]%Z in
  Client.request_headers randint Notions.first_choice Cases.agent false
    (Some Cases.headers) 1 0
  = Some (Cases.headers, 0%nat) /\
  exists merged,
    Client.request_headers randint Notions.first_choice Cases.agent true
      (Some Cases.headers) 1 0
    = Some (merged, 10%nat) /\
    Dict.get merged "X-Forwarded-For" = Some "8.8.4.4" /\
    Dict.get merged "X-Real-IP" = Some "1.1.1.1" /\
    Dict.get merged "User-Agent" = Some "agent/1.0" /\
    (Dict.get merged "Accept-Language" = Some "zh-CN,zh;q=0.9" \/
     Dict.get merged "Accept-Language" = Some "en-US,en;q=0.5") /\
    Dict.get merged "Cache-Control" = Some "no-cache" /\
    Dict.get merged "Pragma" = Some "no-cache" /\
    forall x, ~ In x Notions.fake_header_names ->
              Dict.get merged x = Dict.get Cases.headers x.
Proof.
  exact (request_headers_merge (Notions.draws [8; 8; 4; 4; 1; 1; 1; 1]%Z)
           Notions.first_choice Cases.agent (Some Cases.headers)
           1 0 4 8 "8.8.4.4" "1.1.1.1"
           first_choice_in_list eq_refl eq_refl).
Defined.

Lemma negative_max_retries_sends_nothing_witness :
  Sample.client Sample.net_up (Sample.always 200) Cases.cfg_negative
    Sample.pool_off
  = Some (Return None,
          Client.__init__ Cases.cfg_negative (Sample.pool_off, [])).
Proof.
  apply (negative_max_retries_sends_nothing System.pool_state
           (System.pool_get_next_proxy Sample.net_up) Sample.by_scheme
           (Sample.always 200)
           (Client.__init__ Cases.cfg_negative (Sample.pool_off, []))).
  reflexivity.
Defined.

Lemma constructed_pool_gives_no_proxy_witness :
  (forall tr,
     Proxy.get_next_proxy Sample.net_up Sample.pool_off tr
     = (Return None, Sample.pool_off,
        tr ++ [Proxy.EvAcquire; Proxy.EvRelease])) /\
  exists r self',
    Client._request_with_retry (System.pool_get_next_proxy Sample.net_up)
      Sample.by_scheme Sample.unreachable
      (Client.__init__ Sample.cfg_off (Sample.pool_off, []))
    = Some (r, self') /\
    Forall Notions.direct (Client.log self') /\
    fst (Client.proxy_pool self') = Sample.pool_off.
Proof.
  exact (constructed_pool_gives_no_proxy Sample.cfg_off Sample.pool_off
           Sample.net_up Sample.by_scheme Sample.unreachable eq_refl).
Defined.

Lemma worker_runs_until_stopped_witness :
  let pool := Sample.pool_with [Sample.p_bad; Sample.p_remote] in
  Proxy._preload_worker Sample.no_ipv6 Sample.net_down 3
    (Proxy.set_stop_event true pool) []
  = (Some (Return tt), Proxy.set_stop_event true pool, []) /\
  exists self' tr',
    Proxy._preload_worker Sample.no_ipv6 Sample.net_down 2
      (Proxy.set_stop_event false pool) []
    = (None, self', tr') /\
    Notions.sleeps tr' = (Notions.sleeps [] + 2)%nat.
Proof.
  exact (worker_runs_until_stopped Sample.no_ipv6 Sample.net_down
           (Sample.pool_with [Sample.p_bad; Sample.p_remote]) [] 2
           net_down_fails_with_errors).
Defined.

(** A full buffer: no provider is asked, and the worker sleeps five
    seconds.  Room in the buffer and two providers without an
    acceptable candidate: both are asked and counted, and the worker
    sleeps half a second. *)
Lemma round_without_accepted_candidate_witness :
  let pool := Sample.pool_with [Sample.p_bad; Sample.p_remote] in
  Proxy.preload_round Sample.no_ipv6 Sample.net_up Sample.pool_ready []
  = (Proxy.Again, Sample.pool_ready, [] ++ [Proxy.EvSleep 5]) /\
  exists mid,
    Proxy.preload_round Sample.no_ipv6 Sample.net_down pool []
    = (Proxy.Again,
       Proxy.set_invalid_proxy_count 2 pool,
       [] ++ [Proxy.EvAcquire] ++ mid
          ++ [Proxy.EvRelease; Proxy.EvSleep (1 # 2)]) /\
    Proxy.contacted mid = [Sample.p_bad; Sample.p_remote].
Proof.
  split.
  - exact (proj1 (round_without_accepted_candidate Sample.no_ipv6
                    Sample.net_up net_up_fails_with_errors
                    Sample.pool_ready [] eq_refl) eq_refl).
  - exact (proj2 (round_without_accepted_candidate Sample.no_ipv6
                    Sample.net_down net_down_fails_with_errors
                    (Sample.pool_with [Sample.p_bad; Sample.p_remote]) []
                    eq_refl) eq_refl eq_refl).
Defined.

Lemma round_buffers_first_accepted_witness :
  let pool := Sample.pool_with [Sample.p_bad; Sample.p_good; Sample.p_other] in
  exists self' mid,
    Proxy.preload_round Sample.no_ipv6 Sample.net_up pool []
    = (Proxy.Again, self',
       [] ++ [Proxy.EvAcquire] ++ mid
          ++ [Proxy.EvRelease; Proxy.EvSleep 0]) /\
    Proxy.proxy_queue self' = Queue.mk 1 [Sample.good].
Proof.
  exact (round_buffers_first_accepted Sample.no_ipv6 Sample.net_up
           net_up_fails_with_errors
           (Sample.pool_with [Sample.p_bad; Sample.p_good; Sample.p_other])
           [] Sample.good eq_refl eq_refl eq_refl).
Defined.

Lemma close_without_running_task_witness :
  Proxy.close Cases.no_wait Sample.pool_off
  = (Return tt, Proxy.set_stop_event true Sample.pool_off) /\
  Proxy.close Cases.no_wait (Proxy.set_stop_event true Sample.pool_off)
  = (Return tt, Proxy.set_stop_event true Sample.pool_off) /\
  forall cfg, Proxy._preload_task (snd (Proxy.new cfg)) = None.
Proof.
  exact (close_without_running_task Cases.no_wait Sample.pool_off I).
Defined.

(** An endpoint that answers 500 with an empty body: the fallback
    returns the address [http://], and the second provider is not
    asked. *)
Lemma fallback_takes_any_answer_witness :
  let pool := Sample.pool_with [Sample.p_remote; Sample.p_other] in
  Proxy.get_next_proxy Cases.net_error pool []
  = (Return (Some "http://"),
     Proxy.set_current_proxy (Some "http://") pool,
     [] ++ [Proxy.EvAcquire; Proxy.EvGetProxy Sample.p_remote;
            Proxy.EvHttpGet "https://proxy.example/get";
            Proxy.EvRelease]).
Proof.
  exact (fallback_takes_any_answer Cases.net_error
           (Sample.pool_with [Sample.p_remote; Sample.p_other]) []
           Sample.platform [Sample.p_other] (mkResponse 500 "")
           eq_refl eq_refl eq_refl).
Defined.

(** The three platforms named [pool-a] come out in the order of the
    priorities 1 (not given), 1 and 2. *)
Lemma providers_follow_priority_witness :
  exists ordered self,
    Proxy.__init__ Cases.globals_debug_off Cases.cfg_platforms
    = (Return tt, self) /\
    Proxy.providers self = map Proxy.RemoteProxyProvider ordered /\
    Permutation ordered
      [Cases.platform_late; Cases.platform_plain; Cases.platform_first] /\
    StronglySorted Notions.by_priority ordered /\
    (forall k,
       Notions.with_priority k ordered
       = Notions.with_priority k
           [Cases.platform_late; Cases.platform_plain;
            Cases.platform_first]) /\
    Proxy._preload_task self = Some Proxy.create_task.
Proof.
  exact (providers_follow_priority Cases.globals_debug_off
           Cases.cfg_platforms (Proxy.VBool false)
           eq_refl eq_refl eq_refl ltac:(discriminate)).
Defined.

Example providers_in_order :
  Proxy.providers
    (snd (Proxy.__init__ Cases.globals_debug_off Cases.cfg_platforms))
  = map Proxy.RemoteProxyProvider
      [Cases.platform_plain; Cases.platform_first; Cases.platform_late].
Proof. vm_compute. reflexivity. Qed.

Lemma debug_proxy_overrides_platforms_witness :
  exists self,
    Proxy.__init__ Cases.globals_debug_on Cases.cfg_platforms
    = (Return tt, self) /\
    Proxy.providers self = [Proxy.DebugProxyProvider Sample.good] /\
    Proxy._preload_task self = Some Proxy.create_task /\
    Proxy.proxy_queue self = Queue.create 1.
Proof.
  exact (debug_proxy_overrides_platforms Cases.globals_debug_on
           Cases.cfg_platforms (Proxy.VBool true) Sample.good
           eq_refl eq_refl eq_refl ltac:(discriminate) eq_refl).
Defined.

(** On the pool with a buffered address the executor enters and leaves;
    on a pool whose provider gives a text that is no URL, the
    constructor raises and the executor is left without a client. *)
Lemma enter_then_exit_witness :
  let get := System.pool_get_next_proxy Sample.net_up in
  let close := System.pool_close Cases.no_wait in
  let self := Client.__init__ Sample.cfg_off (Sample.pool_ready, []) in
  let a := Some Sample.good in
  let unready :=
    Client.__init__ Sample.cfg_off (Sample.pool_with [Sample.p_bad], []) in
  (exists s1 s2,
     Client.__aenter__ get Sample.by_scheme self = (Return tt, s1) /\
     Client.__aexit__ close s1 = (Return tt, s2) /\
     Client.log s1
     = Client.log self ++ [Client.EvGetNextProxy a; Client.EvNewClient a] /\
     Client.log s2 = Client.log s1 ++ [Client.EvAclose a] /\
     Client.proxy_pool s2 = snd (close (snd (get (Sample.pool_ready, [])))) /\
     Client._get_http_client get Sample.by_scheme s2
     = (Return (Client.mkClient a), s2)) /\
  (exists s1,
     Client.__aenter__ get Sample.by_scheme unready
     = (Raise (exn_of ValueError "Unknown scheme for proxy URL"), s1) /\
     Client.log s1
     = Client.log unready ++ [Client.EvGetNextProxy (Some "not an address")] /\
     Client._async_client s1 = Client._async_client unready).
Proof.
  intros get close self a unready. split.
  - exact (enter_then_exit System.pool_state get Sample.by_scheme close self a
             (snd (get (Sample.pool_ready, [])))
             (snd (close (snd (get (Sample.pool_ready, [])))))
             eq_refl eq_refl).
  - exact (enter_then_exit System.pool_state get Sample.by_scheme close
             unready (Some "not an address")
             (snd (get (Sample.pool_with [Sample.p_bad], [])))
             (snd (close (snd (get (Sample.pool_with [Sample.p_bad], [])))))
             eq_refl eq_refl).
Defined.

(** The [TimeoutError] of the built-ins is not retried: one request,
    and the exception leaves the call. *)
Lemma other_exceptions_are_not_retried_witness :
  let get := System.pool_get_next_proxy Sample.net_up in
  let self := Client.__init__ Sample.cfg_off (Sample.pool_off, []) in
  let self0 := snd (Client._get_http_client get Sample.by_scheme self) in
  let e := exn_of TimeoutError "timed out" in
  (caught_by (Client.retry_exceptions self) e = true <->
   issubclass (exc_class e) RequestError = true \/
   exc_class e = ConnectionResetError) /\
  (caught_by (Client.retry_exceptions self) e = false ->
   Client.retry_loop get Sample.by_scheme Cases.stalled 4 0 self
   = Some (Raise e, Client.emit (Client.EvRequest None) self0)).
Proof.
  intros get self self0 e.
  exact (other_exceptions_are_not_retried System.pool_state get
           Sample.by_scheme Cases.stalled 3 0 self self0
           (Client.mkClient None) e
           (conj eq_refl eq_refl) (proj1 (Z.leb_le 0 3) eq_refl)
           eq_refl eq_refl).
Defined.

(** Two timeouts, then an answer: three requests and five calls of
    [get_next_proxy]. *)
Lemma request_with_retry_recovers_witness :
  let get := System.pool_get_next_proxy Sample.net_up in
  let self := Client.__init__ Sample.cfg_off (Sample.pool_ready, []) in
  exists self',
    Client._request_with_retry get Sample.by_scheme Cases.flaky self
    = Some (Return (Some (mkResponse 200 "ok")), self') /\
    Client.requests (Client.log self') = (0 + 2 + 1)%nat /\
    Client.pool_calls (Client.log self') = (0 + 2 * 2 + 1)%nat.
Proof.
  intros get self.
  apply (request_with_retry_recovers System.pool_state get Sample.by_scheme
           Cases.flaky Sample.ready ready_serves
           self 2 (mkResponse 200 "ok")).
  - split; reflexivity.
  - split; [reflexivity | right; reflexivity].
  - apply Z.leb_le. reflexivity.
  - intros i p Hi. exists (exn_of ConnectTimeout "timed out").
    destruct i as [|[|i]]; [now split | now split | lia].
  - intros p. reflexivity.
  - reflexivity.
Defined.

(** What the executor does with an address the constructor refuses.
    The buffered address makes the first client; the request times
    out; the handler fetches the text of the provider and drops it,
    closes the client and fetches the text again for the new client:
    [ValueError] ends the call after one request, with three retries
    left. *)
Example refused_address_ends_the_call :
  let pool :=
    Proxy.set_proxy_queue (Queue.mk 1 [Sample.good])
      (Sample.pool_with [Sample.p_bad]) in
  let run :=
    Sample.client Sample.net_up Sample.unreachable Sample.cfg_off pool in
  option_map fst run
  = Some (Raise (exn_of ValueError "Unknown scheme for proxy URL")) /\
  option_map (fun r => Client.log (snd r)) run
  = Some [Client.EvGetNextProxy (Some Sample.good);
          Client.EvNewClient (Some Sample.good);
          Client.EvRequest (Some Sample.good);
          Client.EvGetNextProxy (Some "not an address");
          Client.EvAclose (Some Sample.good);
          Client.EvGetNextProxy (Some "not an address")].
Proof. vm_compute. split; reflexivity. Qed.

(** A provider whose text is no URL, and an executor whose subclass has
    set no [cache_data]: the first attempt ends in the exception of the
    constructor before a request is sent. *)
Lemma construction_error_ends_the_call_witness :
  let get := System.pool_get_next_proxy Sample.net_up in
  let unready :=
    Client.__init__ Sample.cfg_off (Sample.pool_with [Sample.p_bad], []) in
  let bare := Client.__init__ Sample.cfg_off (Sample.pool_off, []) in
  Client._request_with_retry get Sample.by_scheme (Sample.always 200) unready
  = Some (Raise (exn_of ValueError "Unknown scheme for proxy URL"),
          Client.mkApi None (Some "not an address")
            (snd (get (Sample.pool_with [Sample.p_bad], [])))
            (Client.max_retries unready) (Client.retry_status_codes unready)
            (Client.retry_exceptions unready)
            (Client.log unready
             ++ [Client.EvGetNextProxy (Some "not an address")])) /\
  Client._request_with_retry get Sample.no_cache_data (Sample.always 200) bare
  = Some (Raise (exn_of AttributeError "cache_data"),
          Client.mkApi None None (snd (get (Sample.pool_off, [])))
            (Client.max_retries bare) (Client.retry_status_codes bare)
            (Client.retry_exceptions bare)
            (Client.log bare ++ [Client.EvGetNextProxy None])).
Proof.
  intros get unready bare. split.
  - exact (construction_error_ends_the_call System.pool_state get
             Sample.by_scheme (Sample.always 200) unready
             (Some "not an address")
             (snd (get (Sample.pool_with [Sample.p_bad], [])))
             (exn_of ValueError "Unknown scheme for proxy URL")
             eq_refl (proj1 (Z.leb_le 0 3) eq_refl) eq_refl eq_refl eq_refl).
  - exact (construction_error_ends_the_call System.pool_state get
             Sample.no_cache_data (Sample.always 200) bare None
             (snd (get (Sample.pool_off, [])))
             (exn_of AttributeError "cache_data")
             eq_refl (proj1 (Z.leb_le 0 3) eq_refl) eq_refl eq_refl eq_refl).
Defined.

Lemma endpoint_with_scheme_is_rejected_witness :
  let net : nat -> string -> result response :=
    fun _ _ => Return (mkResponse 200 "http://192.0.2.7:3128") in
  let address := "http://http://192.0.2.7:3128" in
  fst (Proxy.get_proxy net Sample.p_remote []) = Return (Some address) /\
  Proxy._validate_proxy Sample.no_ipv6 address = Return false /\
  Proxy.offer Sample.no_ipv6 (Some address) (1 # 2) Sample.pool_off
  = (Proxy.Continue, 1 # 2,
     Proxy.set_invalid_proxy_count
       (Proxy.invalid_proxy_count Sample.pool_off + 1) Sample.pool_off).
Proof.
  intros net address.
  exact (endpoint_with_scheme_is_rejected Sample.no_ipv6 net Sample.platform
           [] (mkResponse 200 "http://192.0.2.7:3128") "http"
           "192.0.2.7:3128" (1 # 2) Sample.pool_off
           eq_refl eq_refl (or_introl eq_refl)).
Defined.

Lemma preloaded_address_is_served_witness :
  let pool := Sample.pool_with [Sample.p_bad; Sample.p_good; Sample.p_other] in
  exists self' tr',
    Proxy.preload_round Sample.no_ipv6 Sample.net_up pool []
    = (Proxy.Again, self', tr') /\
    Proxy.get_next_proxy Sample.net_up self' tr'
    = (Return (Some Sample.good),
       Proxy.set_current_proxy (Some Sample.good)
         (Proxy.set_proxy_queue (Queue.create 1) self'),
       tr').
Proof.
  exact (preloaded_address_is_served Sample.no_ipv6 Sample.net_up
           net_up_fails_with_errors
           (Sample.pool_with [Sample.p_bad; Sample.p_good; Sample.p_other])
           [] Sample.good eq_refl eq_refl eq_refl).
Defined.
